(** * libcucul importers (cucul/import.c): a shallow embedding

    The three decoders of [import.c] (native binary, plain text, ANSI) and
    the entry point [cucul_import_canvas] are transcribed as Rocq functions.
    C integers are kept as [Z] with the 32-bit (or 8-bit) reduction written
    where the C expression performs it; memory accesses the C code makes
    outside an object are reported as a [fault] instead of being given a
    value.

    The effects of the demo program (src/cacademo.c) that work on integers
    follow the importers: the sprite of the metaballs, the discs of the
    moire, Langton's ants and the drops of the matrix. Their arrays are
    lists, and an access outside an array is [None]. *)

From Stdlib Require Import ZArith List Lia Bool String Ascii.
From Stdlib Require Import Strings.Byte.
From stdpp Require Import base option list gmap strings.
Import ListNotations.
Open Scope Z_scope.

(** ** Machine integers *)

Module Int.

(** [unsigned int] / [uint32_t] *)
Definition u32 (z : Z) : Z := z mod 2 ^ 32.

(** [int], two's complement *)
Definition s32 (z : Z) : Z := (z + 2 ^ 31) mod 2 ^ 32 - 2 ^ 31.

(** [uint8_t] / [unsigned char] *)
Definition u8 (z : Z) : Z := z mod 2 ^ 8.

End Int.
Import Int.

(** The value of a byte of the input buffer. *)
Definition byte_val (b : byte) : Z := Z.of_N (Byte.to_N b).

(** ** Faults

    What the C code does outside the objects it owns is undefined; the
    embedding stops there and says which access it was. *)

Inductive fault : Type :=
| BufferOverread (i : Z)   (* buffer[i] read with i outside 0..size-1 *)
| ArgvOverflow (t : Z)     (* argv[t] written with t outside 0..1023 *)
| NbrOverflow (j : Z)      (* nbr[j] written with j outside 0..1023 *)
| Uninitialised            (* a stack cell read before any write to it *)
| AtoiRange                (* atoi of a value that does not fit an int *)
| NullCanvas               (* use of a canvas that could not be created *)
| OutOfFuel.

Inductive result (A : Type) : Type :=
| Ok (a : A)
| Fault (f : fault).
Arguments Ok {A} a.
Arguments Fault {A} f.

Definition bind {A B} (m : result A) (k : A -> result B) : result B :=
  match m with
  | Ok a => k a
  | Fault f => Fault f
  end.

Notation "'do' x <- m ; k" := (bind m (fun x => k))
  (at level 10, x name, m at level 100, k at level 200).

(** What a run that did not fault shows of its result. *)
Definition observe {A B} (f : A -> B) (m : result A) : result B :=
  do a <- m; Ok (f a).

(** [buffer[i]] for a buffer of [length buffer] bytes. *)
Definition getb (buffer : list byte) (i : Z) : result Z :=
  if i <? 0 then Fault (BufferOverread i)
  else match buffer !! Z.to_nat i with
       | Some b => Ok (byte_val b)
       | None => Fault (BufferOverread i)
       end.

(** [buffer + i] *)
Definition offset (buffer : list byte) (i : Z) : list byte :=
  drop (Z.to_nat i) buffer.

Definition sizeof (buffer : list byte) : Z := Z.of_nat (length buffer).

(** ** What [cucul.h] and the canvas internals provide *)

(** Modelled from the spec: [cucul.h], [cucul_internals.h] and the canvas
    code are not among the sources. The colour indices, the code-page table
    [_cucul_cp437_to_utf32] and the packing of a colour pair into a cell
    attribute are taken as parameters. *)
Class cucul_h : Type := {
  CUCUL_COLOR_BLACK : Z;
  CUCUL_COLOR_RED : Z;
  CUCUL_COLOR_GREEN : Z;
  CUCUL_COLOR_BROWN : Z;
  CUCUL_COLOR_BLUE : Z;
  CUCUL_COLOR_MAGENTA : Z;
  CUCUL_COLOR_CYAN : Z;
  CUCUL_COLOR_LIGHTGRAY : Z;
  CUCUL_COLOR_DEFAULT : Z;
  CUCUL_COLOR_TRANSPARENT : Z;
  _cucul_cp437_to_utf32 : Z -> Z;
  cucul_attr : Z -> Z -> Z;
}.

(** The spec's palette: eight base colours with indices below 8 (their
    bright variants sit 8 above), all of them and the two special colours
    fitting a [uint8_t]. *)
Definition base_colour (c : Z) : Prop := 0 <= c < 8.

Record palette_ok `{cucul_h} : Prop := {
  black_base : base_colour CUCUL_COLOR_BLACK;
  red_base : base_colour CUCUL_COLOR_RED;
  green_base : base_colour CUCUL_COLOR_GREEN;
  brown_base : base_colour CUCUL_COLOR_BROWN;
  blue_base : base_colour CUCUL_COLOR_BLUE;
  magenta_base : base_colour CUCUL_COLOR_MAGENTA;
  cyan_base : base_colour CUCUL_COLOR_CYAN;
  lightgray_base : base_colour CUCUL_COLOR_LIGHTGRAY;
}.

(** Modelled from the spec: one assignment of the parameters, used where
    a property is evaluated at a concrete input. The eight base colours
    are numbered 0..7 in the order of the PC text modes, the two special
    colours lie above the sixteen palette entries, the code page is the
    identity (which it is on printable ASCII, the only bytes pasted in
    those inputs) and the attribute keeps the background in the high
    half-word. *)
Definition libcucul : cucul_h := {|
  CUCUL_COLOR_BLACK := 0;
  CUCUL_COLOR_BLUE := 1;
  CUCUL_COLOR_GREEN := 2;
  CUCUL_COLOR_CYAN := 3;
  CUCUL_COLOR_RED := 4;
  CUCUL_COLOR_MAGENTA := 5;
  CUCUL_COLOR_BROWN := 6;
  CUCUL_COLOR_LIGHTGRAY := 7;
  CUCUL_COLOR_DEFAULT := 16;
  CUCUL_COLOR_TRANSPARENT := 32;
  _cucul_cp437_to_utf32 := fun c => c;
  cucul_attr := fun fg bg => Z.lor (Z.shiftl bg 16) fg;
|}.

(** ** The canvas *)

(** Modelled from the spec: the canvas is a [width] x [height] grid of
    cells stored row by row, each with a character and an attribute, and
    an active colour pair. [import_caca] stores into [chars] and [attr]
    by flat index, so the two arrays are kept as the code indexes them. *)
Record cucul_canvas : Type := {
  cv_width : Z;
  cv_height : Z;
  cv_chars : Z -> Z;
  cv_attr : Z -> Z;
  cv_fgcolor : Z;
  cv_bgcolor : Z;
}.

(** The default blank character of a cell nothing was written to. *)
Definition blank : Z := 32.

Section Canvas.
Context `{cucul_h}.

(** Modelled from the spec: create(width, height) gives a canvas of that
    size whose cells are all blank. *)
Definition blank_canvas (width height : Z) : cucul_canvas :=
  {| cv_width := width; cv_height := height;
     cv_chars := fun _ => blank;
     cv_attr := fun _ => cucul_attr CUCUL_COLOR_DEFAULT CUCUL_COLOR_TRANSPARENT;
     cv_fgcolor := CUCUL_COLOR_DEFAULT;
     cv_bgcolor := CUCUL_COLOR_TRANSPARENT |}.

(** Modelled from the spec: creation hands out the new canvas; [None]
    stands for the NULL the callers test for. *)
Definition cucul_create_canvas (width height : Z) : option cucul_canvas :=
  Some (blank_canvas width height).

Definition in_canvas (cv : cucul_canvas) (x y : Z) : bool :=
  (0 <=? x) && (x <? cv_width cv) && (0 <=? y) && (y <? cv_height cv).

(** Modelled from the spec: resize keeps the cells inside the old bounds
    where they were (same column and row) and leaves the new ones blank. *)
Definition cucul_set_canvas_size (cv : cucul_canvas) (width height : Z)
  : cucul_canvas :=
  let keep (old : Z -> Z) (fresh : Z) (n : Z) : Z :=
    let x := n mod width in
    let y := n / width in
    if (0 <=? n) && (n <? width * height) && in_canvas cv x y
    then old (x + y * cv_width cv) else fresh in
  {| cv_width := width; cv_height := height;
     cv_chars := keep (cv_chars cv) blank;
     cv_attr := keep (cv_attr cv) (cucul_attr (cv_fgcolor cv) (cv_bgcolor cv));
     cv_fgcolor := cv_fgcolor cv;
     cv_bgcolor := cv_bgcolor cv |}.

(** Modelled from the spec: set active color(handle, fg, bg). *)
Definition cucul_set_color (cv : cucul_canvas) (fg bg : Z) : cucul_canvas :=
  {| cv_width := cv_width cv; cv_height := cv_height cv;
     cv_chars := cv_chars cv; cv_attr := cv_attr cv;
     cv_fgcolor := fg; cv_bgcolor := bg |}.

(** Modelled from the spec: write character(handle, x, y, codepoint)
    stores the code point and the active colour in the cell; a position
    outside the grid has no cell and the canvas is left as it is. *)
Definition _cucul_putchar32 (cv : cucul_canvas) (x y : Z) (ch : Z)
  : cucul_canvas :=
  if in_canvas cv x y then
    let n := x + y * cv_width cv in
    {| cv_width := cv_width cv; cv_height := cv_height cv;
       cv_chars := fun k => if k =? n then ch else cv_chars cv k;
       cv_attr := fun k => if k =? n then cucul_attr (cv_fgcolor cv) (cv_bgcolor cv)
                           else cv_attr cv k;
       cv_fgcolor := cv_fgcolor cv; cv_bgcolor := cv_bgcolor cv |}
  else cv.

(** Modelled from the spec: [cucul_putchar] is the same write, for the
    byte [import_text] hands it. *)
Definition cucul_putchar (cv : cucul_canvas) (x y : Z) (ch : Z) : cucul_canvas :=
  _cucul_putchar32 cv x y ch.

(** [cv->chars[n] = ch; cv->attr[n] = at], as [import_caca] does it. *)
Definition poke (cv : cucul_canvas) (n ch at' : Z) : cucul_canvas :=
  {| cv_width := cv_width cv; cv_height := cv_height cv;
     cv_chars := fun k => if k =? n then ch else cv_chars cv k;
     cv_attr := fun k => if k =? n then at' else cv_attr cv k;
     cv_fgcolor := cv_fgcolor cv; cv_bgcolor := cv_bgcolor cv |}.

(** The characters of row [y], left to right. *)
Definition row_chars (cv : cucul_canvas) (y : Z) : list Z :=
  map (fun x => cv_chars cv (Z.of_nat x + y * cv_width cv))
      (seq 0 (Z.to_nat (cv_width cv))).

Definition canvas_rows (cv : cucul_canvas) : list (list Z) :=
  map (fun y => row_chars cv (Z.of_nat y)) (seq 0 (Z.to_nat (cv_height cv))).

(** ** import_caca *)

(** Big-endian 32-bit field at [buf[k .. k+3]]. *)
Definition be32 (buf : list byte) (k : Z) : result Z :=
  do b0 <- getb buf k;
  do b1 <- getb buf (k + 1);
  do b2 <- getb buf (k + 2);
  do b3 <- getb buf (k + 3);
  Ok (Z.lor (Z.lor (Z.lor (u32 (Z.shiftl b0 24)) (u32 (Z.shiftl b1 16)))
                   (u32 (Z.shiftl b2 8))) b3).

(** [for(n = height * width; n--; )]: the body runs for n-1 down to 0. *)
Fixpoint caca_cells (buf : list byte) (n : nat) (cv : cucul_canvas)
  : result cucul_canvas :=
  match n with
  | O => Ok cv
  | S n' =>
      let k := Z.of_nat n' in
      do ch <- be32 buf (16 + 0 + 8 * k);
      do at' <- be32 buf (16 + 4 + 8 * k);
      caca_cells buf n' (poke cv k ch at')
  end.

Definition is_magic (buf : list byte) (k : Z) (m : list byte) : result bool :=
  do b0 <- getb buf k;
  do b1 <- getb buf (k + 1);
  do b2 <- getb buf (k + 2);
  do b3 <- getb buf (k + 3);
  Ok (bool_decide ([b0; b1; b2; b3] = map byte_val m)).

Definition import_caca (buf : list byte) : result (option cucul_canvas) :=
  let size := sizeof buf in
  if size <? 16 then Ok None else
  do m1 <- is_magic buf 0 ["C"; "A"; "C"; "A"]%byte;
  if negb m1 then Ok None else
  do m2 <- is_magic buf 4 ["C"; "A"; "N"; "V"]%byte;
  if negb m2 then Ok None else
  do width <- be32 buf 8;
  do height <- be32 buf 12;
  if (width =? 0) || (height =? 0) then Ok None else
  if negb (size =? u32 (16 + u32 (u32 (width * height) * 8))) then Ok None else
  match cucul_create_canvas width height with
  | None => Ok None
  | Some cv =>
      do cv' <- caca_cells buf (Z.to_nat (u32 (height * width))) cv;
      Ok (Some cv')
  end.

End Canvas.

Section Importers.
Context `{cucul_h}.

(** ** import_text *)

(** One iteration of [for(i = 0; i < size; i++)] on the byte [ch]; the
    locals are [width], [height], [x], [y] (all [unsigned int]). *)
Record text_state : Type := {
  t_cv : cucul_canvas;
  t_width : Z;
  t_height : Z;
  t_x : Z;
  t_y : Z;
}.

Definition text_step (s : text_state) (ch : Z) : text_state :=
  if ch =? 13 then s
  else if ch =? 10 then
    {| t_cv := t_cv s; t_width := t_width s; t_height := t_height s;
       t_x := 0; t_y := u32 (t_y s + 1) |}
  else
    let x := t_x s in
    let y := t_y s in
    let grow := (t_width s <=? x) || (t_height s <=? y) in
    let width := if t_width s <=? x then u32 (x + 1) else t_width s in
    let height := if t_height s <=? y then u32 (y + 1) else t_height s in
    let cv := if grow then cucul_set_canvas_size (t_cv s) width height
              else t_cv s in
    let cv := cucul_putchar cv (s32 x) (s32 y) ch in
    {| t_cv := cv; t_width := width; t_height := height;
       t_x := u32 (x + 1); t_y := y |}.

Definition import_text (text : list byte) : result (option cucul_canvas) :=
  match cucul_create_canvas 1 1 with
  | None => Fault NullCanvas
  | Some cv =>
      let cv := cucul_set_color cv CUCUL_COLOR_DEFAULT CUCUL_COLOR_TRANSPARENT in
      let s0 := {| t_cv := cv; t_width := 1; t_height := 1; t_x := 0; t_y := 0 |} in
      Ok (Some (t_cv (fold_left text_step (map byte_val text) s0)))
  end.

(** ** ANSI loader helpers *)

(** [#define IS_ALPHA(x) (x>='A' && x<='z')] *)
Definition IS_ALPHA (x : Z) : bool := (65 <=? x) && (x <=? 122).

(** [#define END_ARG 0x1337] *)
Definition END_ARG : Z := 0x1337.

(** A stack array of 1024 cells: a cell holds nothing until it is written. *)
Definition array_set (overflow : Z -> fault) (a : gmap Z Z) (k v : Z)
  : result (gmap Z Z) :=
  if (0 <=? k) && (k <? 1024) then Ok (<[k := v]> a) else Fault (overflow k).

Definition array_get (a : gmap Z Z) (k : Z) : result Z :=
  match a !! k with
  | Some v => Ok v
  | None => Fault Uninitialised
  end.

(** The C string held in [nbr]: the cells from index [k] up to the first 0. *)
Fixpoint c_string (cells : nat) (nbr : gmap Z Z) (k : Z) : result (list Z) :=
  match cells with
  | O => Fault Uninitialised
  | S cells' =>
      do c <- array_get nbr k;
      if c =? 0 then Ok []
      else do rest <- c_string cells' nbr (k + 1); Ok (c :: rest)
  end.

(** [atoi] is the C library's (ISO C 7.20.1.2): leading white space, an
    optional sign, then decimal digits up to the first other character;
    the behaviour is undefined when the value does not fit an [int]. *)
Definition isspace (c : Z) : bool := (c =? 32) || ((9 <=? c) && (c <=? 13)).

Fixpoint skip_spaces (s : list Z) : list Z :=
  match s with
  | c :: s' => if isspace c then skip_spaces s' else s
  | [] => []
  end.

Fixpoint digits (acc : Z) (s : list Z) : Z :=
  match s with
  | c :: s' => if (48 <=? c) && (c <=? 57) then digits (acc * 10 + (c - 48)) s'
               else acc
  | [] => acc
  end.

Definition atoi (s : list Z) : result Z :=
  let v := match skip_spaces s with
           | 45 :: s' => - digits 0 s'
           | 43 :: s' => digits 0 s'
           | s' => digits 0 s'
           end in
  if (- 2 ^ 31 <=? v) && (v <? 2 ^ 31) then Ok v else Fault AtoiRange.

(** [ret[t] = atoi((char* )nbr)], the [int] converted to [unsigned int]. *)
Definition store_number (ret nbr : gmap Z Z) (t : Z) : result (gmap Z Z) :=
  do s <- c_string 1024 nbr 0;
  do v <- atoi s;
  array_set ArgvOverflow ret t (u32 v).

(** The [for(i = 0; i < size; i++)] loop of [parse_tuple]; [n] counts the
    iterations that remain. The result is the returned [int] and [ret]. *)
Fixpoint parse_tuple_loop (n : nat) (buffer : list byte) (size i j t : Z)
  (nbr ret : gmap Z Z) : result (Z * gmap Z Z) :=
  match n with
  | O => Ok (size, ret)
  | S n' =>
      do b <- getb buffer i;
      if IS_ALPHA b then
        do rt <- (if negb (j =? 0)
                  then do ret <- store_number ret nbr t; Ok (ret, t + 1)
                  else Ok (ret, t));
        do ret <- array_set ArgvOverflow (fst rt) (snd rt) END_ARG;
        Ok (i, ret)
      else if negb (b =? 59) then
        do nbr <- array_set NbrOverflow nbr j b;
        do nbr <- array_set NbrOverflow nbr (j + 1) 0;
        parse_tuple_loop n' buffer size (i + 1) (j + 1) t nbr ret
      else
        do ret <- store_number ret nbr t;
        do ret <- array_set ArgvOverflow ret (t + 1) END_ARG;
        parse_tuple_loop n' buffer size (i + 1) 0 (t + 1) nbr ret
  end.

Definition parse_tuple (buffer : list byte) (size : Z) : result (Z * gmap Z Z) :=
  do ret <- array_set ArgvOverflow ∅ 0 END_ARG;
  parse_tuple_loop (Z.to_nat size) buffer size 0 0 0 ∅ ret.

(** The six [uint8_t] locals of [import_ansi] that [manage_modifiers]
    receives by pointer. *)
Record modifiers : Type := {
  fg : Z;
  bg : Z;
  save_fg : Z;
  save_bg : Z;
  bold : Z;
  reverse : Z;
}.

Definition ansi2cucul : list Z :=
  [ CUCUL_COLOR_BLACK; CUCUL_COLOR_RED; CUCUL_COLOR_GREEN; CUCUL_COLOR_BROWN;
    CUCUL_COLOR_BLUE; CUCUL_COLOR_MAGENTA; CUCUL_COLOR_CYAN;
    CUCUL_COLOR_LIGHTGRAY ].

Definition ansi2cucul_at (k : Z) : Z := u8 (nth (Z.to_nat k) ansi2cucul 0).

Definition set_fg (v : Z) (m : modifiers) : modifiers :=
  {| fg := u8 v; bg := bg m; save_fg := save_fg m; save_bg := save_bg m;
     bold := bold m; reverse := reverse m |}.

Definition set_bg (v : Z) (m : modifiers) : modifiers :=
  {| fg := fg m; bg := u8 v; save_fg := save_fg m; save_bg := save_bg m;
     bold := bold m; reverse := reverse m |}.

Definition manage_modifiers (i : Z) (m : modifiers) : modifiers :=
  if (30 <=? i) && (i <=? 37) then set_fg (ansi2cucul_at (i - 30)) m
  else if (40 <=? i) && (i <=? 47) then set_bg (ansi2cucul_at (i - 40)) m
  else if (90 <=? i) && (i <=? 97) then set_fg (ansi2cucul_at (i - 90) + 8) m
  else if (100 <=? i) && (i <=? 107) then set_bg (ansi2cucul_at (i - 100) + 8) m
  else if i =? 0 then
    {| fg := u8 CUCUL_COLOR_DEFAULT; bg := u8 CUCUL_COLOR_DEFAULT;
       save_fg := save_fg m; save_bg := save_bg m; bold := 0; reverse := 0 |}
  else if i =? 1 then
    {| fg := fg m; bg := bg m; save_fg := save_fg m; save_bg := save_bg m;
       bold := 1; reverse := reverse m |}
  else if i =? 4 then m
  else if i =? 5 then m
  else if i =? 7 then
    {| fg := fg m; bg := bg m; save_fg := save_fg m; save_bg := save_bg m;
       bold := bold m; reverse := 1 |}
  else if i =? 8 then
    {| fg := u8 CUCUL_COLOR_TRANSPARENT; bg := u8 CUCUL_COLOR_TRANSPARENT;
       save_fg := fg m; save_bg := bg m; bold := bold m; reverse := reverse m |}
  else if i =? 28 then
    {| fg := save_fg m; bg := save_bg m; save_fg := save_fg m;
       save_bg := save_bg m; bold := bold m; reverse := reverse m |}
  else if i =? 39 then set_fg CUCUL_COLOR_DEFAULT m
  else if i =? 49 then set_bg CUCUL_COLOR_DEFAULT m
  else m.

(** ** import_ansi *)

(** The locals of [import_ansi] that live across iterations of its loop. *)
Record ansi_state : Type := {
  a_cv : cucul_canvas;
  a_i : Z;
  a_x : Z;
  a_y : Z;
  a_width : Z;
  a_height : Z;
  a_save_x : Z;
  a_save_y : Z;
  a_mod : modifiers;
}.

Definition with_i (i : Z) (s : ansi_state) : ansi_state :=
  {| a_cv := a_cv s; a_i := i; a_x := a_x s; a_y := a_y s;
     a_width := a_width s; a_height := a_height s;
     a_save_x := a_save_x s; a_save_y := a_save_y s; a_mod := a_mod s |}.

Definition with_xy (x y : Z) (s : ansi_state) : ansi_state :=
  {| a_cv := a_cv s; a_i := a_i s; a_x := x; a_y := y;
     a_width := a_width s; a_height := a_height s;
     a_save_x := a_save_x s; a_save_y := a_save_y s; a_mod := a_mod s |}.

Definition with_save (x y : Z) (s : ansi_state) : ansi_state :=
  {| a_cv := a_cv s; a_i := a_i s; a_x := a_x s; a_y := a_y s;
     a_width := a_width s; a_height := a_height s;
     a_save_x := x; a_save_y := y; a_mod := a_mod s |}.

Definition with_cv (cv : cucul_canvas) (s : ansi_state) : ansi_state :=
  {| a_cv := cv; a_i := a_i s; a_x := a_x s; a_y := a_y s;
     a_width := a_width s; a_height := a_height s;
     a_save_x := a_save_x s; a_save_y := a_save_y s; a_mod := a_mod s |}.

Definition with_height (h : Z) (s : ansi_state) : ansi_state :=
  {| a_cv := a_cv s; a_i := a_i s; a_x := a_x s; a_y := a_y s;
     a_width := a_width s; a_height := h;
     a_save_x := a_save_x s; a_save_y := a_save_y s; a_mod := a_mod s |}.

Definition with_mod (m : modifiers) (s : ansi_state) : ansi_state :=
  {| a_cv := a_cv s; a_i := a_i s; a_x := a_x s; a_y := a_y s;
     a_width := a_width s; a_height := a_height s;
     a_save_x := a_save_x s; a_save_y := a_save_y s; a_mod := m |}.

Definition SAUCE00 : list byte := ["S"; "A"; "U"; "C"; "E"; "0"; "0"]%byte.

(** [!memcmp(buffer + k, lit, |lit|)] *)
Fixpoint memcmp_eq (buffer : list byte) (k : Z) (lit : list byte) : result bool :=
  match lit with
  | [] => Ok true
  | c :: lit' =>
      do b <- getb buffer k;
      if b =? byte_val c then memcmp_eq buffer (k + 1) lit' else Ok false
  end.

(** [buffer[i] == '\x1b' && buffer[i + 1] == '['], left to right. *)
Definition is_escape (buffer : list byte) (i : Z) : result bool :=
  do b <- getb buffer i;
  if b =? 0x1b then do b1 <- getb buffer (i + 1); Ok (b1 =? 91) else Ok false.

(** [for(j = i; j < (int)size; j++) if(IS_ALPHA(buffer[j])) ...]: the
    final byte [c], or ['\0'] when the loop runs out; [n] counts the
    iterations that remain. *)
Fixpoint final_byte (n : nat) (buffer : list byte) (j : Z) : result Z :=
  match n with
  | O => Ok 0
  | S n' =>
      do b <- getb buffer j;
      if IS_ALPHA b then Ok b else final_byte n' buffer (j + 1)
  end.

(** [while(argv[argc] != END_ARG) argc++;] *)
Fixpoint count_args (cells : nat) (argv : gmap Z Z) (argc : Z) : result Z :=
  match cells with
  | O => Fault Uninitialised
  | S cells' =>
      do v <- array_get argv argc;
      if v =? END_ARG then Ok argc else count_args cells' argv (u32 (argc + 1))
  end.

(** [for(j = x; j < width; j++) _cucul_putchar32(cv, j, y, ' ');] *)
Fixpoint clear_eol (n : nat) (cv : cucul_canvas) (j y : Z) : cucul_canvas :=
  match n with
  | O => cv
  | S n' => clear_eol n' (_cucul_putchar32 cv j y 32) (j + 1) y
  end.

(** [for(j = 0; j < (int)argc; j++) manage_modifiers(argv[j], ...);] *)
Fixpoint apply_modifiers (n : nat) (argv : gmap Z Z) (j : Z) (m : modifiers)
  : result modifiers :=
  match n with
  | O => Ok m
  | S n' =>
      do v <- array_get argv j;
      apply_modifiers n' argv (j + 1) (manage_modifiers (s32 v) m)
  end.

(** The tail of [case 'm']: the bold promotion, stored into [fg] and [bg],
    then the colour handed to the canvas. *)
Definition promote (m : modifiers) : modifiers :=
  let m := if negb (bold m =? 0) && (fg m <? 8) then set_fg (fg m + 8) m else m in
  if negb (bold m =? 0) && (bg m <? 8) then set_bg (bg m + 8) m else m.

Definition apply_colour (cv : cucul_canvas) (m : modifiers) : cucul_canvas :=
  if negb (reverse m =? 0) then cucul_set_color cv (bg m) (fg m)
  else cucul_set_color cv (fg m) (bg m).

(** [argc ? argv[0] : 1] *)
Definition count_or_one (argc : Z) (argv : gmap Z Z) : result Z :=
  if negb (argc =? 0) then array_get argv 0 else Ok 1.

(** [switch(c)] *)
Definition dispatch (c argc : Z) (argv : gmap Z Z) (s : ansi_state)
  : result ansi_state :=
  if (c =? 102) || (c =? 72) then           (* 'f', 'H' *)
    if argc =? 0 then Ok (with_xy 0 0 s)
    else if argc =? 1 then
      do a0 <- array_get argv 0;
      Ok (with_xy 0 (s32 (u32 (a0 - 1))) s)
    else if argc =? 2 then
      do a0 <- array_get argv 0;
      do a1 <- array_get argv 1;
      Ok (with_xy (s32 (u32 (a1 - 1))) (s32 (u32 (a0 - 1))) s)
    else Ok s
  else if c =? 65 then                      (* 'A' *)
    do n <- count_or_one argc argv;
    let y := s32 (u32 (u32 (a_y s) - n)) in
    Ok (with_xy (a_x s) (if y <? 0 then 0 else y) s)
  else if c =? 66 then                      (* 'B' *)
    do n <- count_or_one argc argv;
    Ok (with_xy (a_x s) (s32 (u32 (u32 (a_y s) + n))) s)
  else if c =? 67 then                      (* 'C' *)
    do n <- count_or_one argc argv;
    Ok (with_xy (s32 (u32 (u32 (a_x s) + n))) (a_y s) s)
  else if c =? 68 then                      (* 'D' *)
    do n <- count_or_one argc argv;
    let x := s32 (u32 (u32 (a_x s) - n)) in
    Ok (with_xy (if x <? 0 then 0 else x) (a_y s) s)
  else if c =? 115 then                     (* 's' *)
    Ok (with_save (a_x s) (a_y s) s)
  else if c =? 117 then                     (* 'u' *)
    Ok (with_xy (a_save_x s) (a_save_y s) s)
  else if c =? 74 then                      (* 'J' *)
    do a0 <- array_get argv 0;
    if a0 =? 2 then Ok (with_xy 0 0 s) else Ok s
  else if c =? 75 then                      (* 'K' *)
    let cv := clear_eol (Z.to_nat (a_width s - a_x s)) (a_cv s) (a_x s) (a_y s) in
    Ok (with_xy (a_width s) (a_y s) (with_cv cv s))
  else if c =? 109 then                     (* 'm' *)
    do m <- apply_modifiers (Z.to_nat (s32 argc)) argv 0 (a_mod s);
    let m := promote m in
    Ok (with_cv (apply_colour (a_cv s) m) (with_mod m s))
  else Ok s.

(** The state an SGR command leaves when its codes gave the modifiers [m]. *)
Definition sgr_applied (m : modifiers) (s : ansi_state) : ansi_state :=
  with_cv (apply_colour (a_cv s) m) (with_mod m s).

(** Pasting the character [b] at the cursor. *)
Definition paste (b : Z) (s : ansi_state) : ansi_state :=
  let s := if a_width s <=? a_x s then with_xy 0 (s32 (a_y s + 1)) s else s in
  let s := if a_height s <=? a_y s then
             let height := s32 (a_y s + 1) in
             with_cv (cucul_set_canvas_size (a_cv s) (u32 (a_width s)) (u32 height))
                     (with_height height s)
           else s in
  let cv := _cucul_putchar32 (a_cv s) (a_x s) (a_y s) (_cucul_cp437_to_utf32 b) in
  with_xy (s32 (a_x s + 1)) (a_y s) (with_cv cv s).

(** The body of [for(i = 0; i < size; i += skip)], increment included:
    [None] is the [break], [Some s'] the state the next test sees. *)
Definition ansi_body (buffer : list byte) (s : ansi_state)
  : result (option ansi_state) :=
  let size := sizeof buffer in
  let i := a_i s in
  do b <- getb buffer i;
  do sauce <- (if (b =? 0x1a) && (8 <=? u32 (size - i))
               then memcmp_eq buffer (i + 1) SAUCE00 else Ok false);
  if sauce then Ok None
  else if b =? 13 then Ok (Some (with_i (u32 (i + 1)) s))
  else if b =? 10 then
    Ok (Some (with_i (u32 (i + 1)) (with_xy 0 (s32 (a_y s + 1)) s)))
  else
    do esc <- is_escape buffer i;
    if esc then
      let i := u32 (u32 (i + 1) + 1) in
      do c <- final_byte (Z.to_nat (s32 size - s32 i)) buffer (s32 i);
      do r <- parse_tuple (offset buffer i) (s32 (u32 (size - i)));
      let skip := u32 (1 + fst r) in
      let argv := snd r in
      do argc <- count_args 1024 argv 0;
      do s' <- dispatch c argc argv s;
      Ok (Some (with_i (u32 (i + skip)) s'))
    else
      Ok (Some (with_i (u32 (i + 1)) (paste b s))).

(** The loop itself. It is not structurally recursive; [fuel] bounds the
    number of iterations and [None] says the bound was too small
    ([ansi_loop_total] shows it is not for the bound [ansi_run] uses). *)
Fixpoint ansi_loop (fuel : nat) (buffer : list byte) (s : ansi_state)
  : option (result ansi_state) :=
  match fuel with
  | O => None
  | S fuel' =>
      if a_i s <? sizeof buffer then
        match ansi_body buffer s with
        | Ok (Some s') => ansi_loop fuel' buffer s'
        | Ok None => Some (Ok s)
        | Fault f => Some (Fault f)
        end
      else Some (Ok s)
  end.

(** [n] iterations of the loop that all reach the next test. *)
Fixpoint ansi_steps (n : nat) (buffer : list byte) (s : ansi_state)
  : result (option ansi_state) :=
  match n with
  | O => Ok (Some s)
  | S n' =>
      if a_i s <? sizeof buffer then
        do r <- ansi_body buffer s;
        match r with
        | None => Ok None
        | Some s' => ansi_steps n' buffer s'
        end
      else Ok None
  end.

Definition ansi_init (cv : cucul_canvas) : ansi_state :=
  let m := {| fg := u8 CUCUL_COLOR_LIGHTGRAY; bg := u8 CUCUL_COLOR_BLACK;
              save_fg := u8 CUCUL_COLOR_LIGHTGRAY; save_bg := u8 CUCUL_COLOR_BLACK;
              bold := 0; reverse := 0 |} in
  {| a_cv := cucul_set_color cv (fg m) (bg m); a_i := 0; a_x := 0; a_y := 0;
     a_width := 80; a_height := 25; a_save_x := 0; a_save_y := 0; a_mod := m |}.

(** The state the loop of [import_ansi] is entered with. *)
Definition ansi_start : ansi_state := ansi_init (blank_canvas 80 25).

(** The state of the locals when the loop of [import_ansi] is left. *)
Definition ansi_run (buffer : list byte) : result ansi_state :=
  match cucul_create_canvas 80 25 with
  | None => Fault NullCanvas
  | Some cv =>
      match ansi_loop (S (length buffer)) buffer (ansi_init cv) with
      | Some r => r
      | None => Fault OutOfFuel
      end
  end.

Definition import_ansi (buffer : list byte) : result (option cucul_canvas) :=
  do s <- ansi_run buffer; Ok (Some (a_cv s)).

(** ** cucul_import_canvas *)

Definition tolower (c : ascii) : ascii :=
  let n := nat_of_ascii c in
  if ((65 <=? n) && (n <=? 90))%nat then ascii_of_nat (n + 32) else c.

(** [!strcasecmp(a, b)] *)
Fixpoint strcasecmp_eq (a b : string) : bool :=
  match a, b with
  | EmptyString, EmptyString => true
  | String c a', String d b' =>
      bool_decide (tolower c = tolower d) && strcasecmp_eq a' b'
  | _, _ => false
  end.

(** The importers [cucul_import_canvas] can hand the buffer to. *)
Inductive importer : Type := Caca | Text | Ansi.

Definition run_importer (f : importer) (data : list byte)
  : result (option cucul_canvas) :=
  match f with
  | Caca => import_caca data
  | Text => import_text data
  | Ansi => import_ansi data
  end.

(** [while(i<size-1) { if(buf[i] == 0x1b && buf[i+1] == '[') ...; i++; }];
    [n] counts the iterations that remain. *)
Fixpoint find_escape (n : nat) (buf : list byte) (i : Z) : result bool :=
  match n with
  | O => Ok false
  | S n' =>
      do e <- is_escape buf i;
      if e then Ok true else find_escape n' buf (u32 (i + 1))
  end.

(** [buf[0] == 'C' && buf[1] == 'A' && buf[2] == 'C' && buf[3] != 'A'] *)
Definition caca_guess (buf : list byte) : result bool :=
  do b0 <- getb buf 0;
  if negb (b0 =? 67) then Ok false else
  do b1 <- getb buf 1;
  if negb (b1 =? 65) then Ok false else
  do b2 <- getb buf 2;
  if negb (b2 =? 67) then Ok false else
  do b3 <- getb buf 3;
  Ok (negb (b3 =? 65)).

(** The autodetection block: which importer the buffer is returned from. *)
Definition autodetect (buf : list byte) : result importer :=
  let size := sizeof buf in
  do caca <- (if 4 <=? size then caca_guess buf else Ok false);
  if caca then Ok Caca
  else
    do esc <- find_escape (Z.to_nat (u32 (size - 1))) buf 0;
    if esc then Ok Ansi else Ok Text.

(** [data] is the [size] bytes at the pointer; the empty list stands for
    both [size == 0] and [data == NULL]. *)
Definition cucul_import_canvas (data : list byte) (format : string)
  : result (option cucul_canvas) :=
  let size := sizeof data in
  if size =? 0 then Ok None
  else if strcasecmp_eq "caca" format then import_caca data
  else if strcasecmp_eq "text" format then import_text data
  else if strcasecmp_eq "ansi" format then import_ansi data
  else if strcasecmp_eq "" format then
    do f <- autodetect data; run_importer f data
  else Ok None.

End Importers.

(** * More of [import.c] *)

Section MoreImporters.
Context `{cucul_h}.

(** [cucul_get_import_list]: the array up to its two closing NULLs. *)
Definition cucul_get_import_list : list string :=
  [ ""; "autodetect";
    "text"; "plain text";
    "caca"; "native libcaca format";
    "ansi"; "ANSI coloured text" ]%string.

End MoreImporters.

(** The strings of the list that are values for [format]: every other
    one, from the first. *)
Fixpoint format_values (l : list string) : list string :=
  match l with
  | f :: _ :: l' => f :: format_values l'
  | _ => []
  end.

(** A string with its capital letters made small. *)
Fixpoint lower (s : string) : string :=
  match s with
  | EmptyString => EmptyString
  | String c s' => String (tolower c) (lower s')
  end.

(** ** Reading a canvas and a text by rows *)

(** The character of the cell in column [x] of row [y]. *)
Definition cell_char (cv : cucul_canvas) (x y : Z) : Z :=
  cv_chars cv (x + y * cv_width cv).

(** The lines of a text: a line feed (10) ends a line, a carriage return
    (13) belongs to none. The pair is the lines already ended and the one
    being read. *)
Definition feed_line (st : list (list Z) * list Z) (c : Z)
  : list (list Z) * list Z :=
  if c =? 13 then st
  else if c =? 10 then (fst st ++ [snd st], [])
  else (fst st, snd st ++ [c]).

Definition text_lines (text : list Z) : list (list Z) :=
  let st := fold_left feed_line text ([], []) in fst st ++ [snd st].

(** The length of the longest line. *)
Fixpoint max_len (lines : list (list Z)) : Z :=
  match lines with
  | [] => 0
  | l :: lines' => Z.max (Z.of_nat (length l)) (max_len lines')
  end.

(** The number of lines up to the last one that is not empty. *)
Fixpoint used_rows (lines : list (list Z)) : Z :=
  match lines with
  | [] => 0
  | l :: lines' =>
      if used_rows lines' =? 0
      then (if Z.of_nat (length l) =? 0 then 0 else 1)
      else 1 + used_rows lines'
  end.

(** The character the lines have at column [x] of row [y], blank where
    the line is shorter or missing. *)
Definition line_char (lines : list (list Z)) (x y : Z) : Z :=
  nth (Z.to_nat x) (nth (Z.to_nat y) lines []) blank.

(** What holds between the locals of [import_text] and the lines read so
    far, [n] bytes into the text. *)
Definition text_inv (st : list (list Z) * list Z) (s : text_state) (n : Z)
  : Prop :=
  let lines := fst st ++ [snd st] in
  t_x s = Z.of_nat (length (snd st))
  /\ t_y s = Z.of_nat (length (fst st))
  /\ t_x s + t_y s <= n
  /\ t_width s = Z.max 1 (max_len lines)
  /\ t_height s = Z.max 1 (used_rows lines)
  /\ cv_width (t_cv s) = t_width s
  /\ cv_height (t_cv s) = t_height s
  /\ forall x y, 0 <= x < t_width s -> 0 <= y < t_height s ->
       cell_char (t_cv s) x y = line_char lines x y.

(** ** Parameter tuples as they are written *)

(** A number: one decimal digit or more. *)
Definition is_number (ds : list byte) : Prop :=
  ds <> [] /\ Forall (fun b => 48 <= byte_val b <= 57) ds.

(** Its value. *)
Definition decimal (ds : list byte) : Z :=
  fold_left (fun a b => a * 10 + (byte_val b - 48)) ds 0.

(** A number [atoi] and [nbr] can take: its value fits an [int] and its
    digits and the closing 0 fit the 1024 cells. *)
Definition good_number (ds : list byte) : Prop :=
  is_number ds /\ decimal ds < 2 ^ 31 /\ Z.of_nat (length ds) <= 1023.

(** Numbers with a semicolon between each two. *)
Fixpoint tuple_bytes (nums : list (list byte)) : list byte :=
  match nums with
  | [] => []
  | ds :: nums' =>
      match nums' with
      | [] => ds
      | _ => ds ++ ";"%byte :: tuple_bytes nums'
      end
  end.

(** A stack array after the values [vs] were stored from index [j] on,
    each followed by a [stop] that the next one overwrites: [nbr] after a
    number was copied to it (the stop is 0), [ret] after values were stored
    (the stop is [END_ARG]). *)
Fixpoint array_written (a : gmap Z Z) (j : Z) (vs : list Z) (stop : Z)
  : gmap Z Z :=
  match vs with
  | [] => a
  | v :: vs' => array_written (<[j + 1 := stop]> (<[j := v]> a)) (j + 1) vs' stop
  end.

(** ** The ANSI decoder on bytes it only pastes *)

(** A byte the loop of [import_ansi] pastes whatever follows it: not CR,
    LF, ESC or SUB. *)
Definition plain_byte (b : byte) : Prop :=
  byte_val b <> 13 /\ byte_val b <> 10 /\ byte_val b <> 27 /\ byte_val b <> 26.

Section PlainInvariant.
Context `{cucul_h}.

(** What holds of the locals of [import_ansi] after [k] plain bytes. *)
Definition plain_inv (buffer : list byte) (k : Z) (s : ansi_state) : Prop :=
  a_i s = k
  /\ a_x s + 80 * a_y s = k
  /\ 0 <= a_x s <= 80 /\ 0 <= a_y s
  /\ (0 < k -> 1 <= a_x s)
  /\ a_width s = 80
  /\ a_height s = Z.max 25 (a_y s + 1)
  /\ cv_width (a_cv s) = 80
  /\ cv_height (a_cv s) = a_height s
  /\ forall x y b, 0 <= x < 80 -> 0 <= y -> x + 80 * y < k ->
       buffer !! Z.to_nat (x + 80 * y) = Some b ->
       cell_char (a_cv s) x y = _cucul_cp437_to_utf32 (byte_val b).

End PlainInvariant.


(** ** Reads outside the buffer *)

(** The computation does not stop at a read outside the buffer. *)
Definition no_overread {A} (m : result A) : Prop :=
  forall j, m <> Fault (BufferOverread j).

(** * [cacademo.c]: the effects that work on integers *)

(** The pixel buffers and the sprite are arrays of [uint8_t]; an access
    outside the array is [None]. *)
Definition load (a : list Z) (k : Z) : option Z :=
  if k <? 0 then None else a !! Z.to_nat k.

Definition store (a : list Z) (k v : Z) : option (list Z) :=
  if (0 <=? k) && (k <? Z.of_nat (length a))
  then Some (<[Z.to_nat k := v]> a) else None.

Definition is_uint8 (v : Z) : Prop := 0 <= v < 256.

Definition XSIZ : Z := 256.
Definition YSIZ : Z := 256.

(** ** Metaballs *)

Definition METASIZE : Z := XSIZ / 2.

(** The loop of [draw_ball]; [n] counts the iterations that remain. *)
Fixpoint draw_ball_loop (n : nat) (metaball screen : list Z) (i e b : Z)
  : option (list Z) :=
  match n with
  | O => Some screen
  | S n' =>
      p ← load screen b;
      m ← load metaball i;
      let color := u32 (p + m) in
      let color := if 255 <? color then 255 else color in
      screen ← store screen b (u8 color);
      let e' := if e =? METASIZE then 0 else e in
      let b' := if e =? METASIZE then u32 (b + u32 (XSIZ - METASIZE)) else b in
      draw_ball_loop n' metaball screen (u32 (i + 1)) (u32 (e' + 1)) (u32 (b' + 1))
  end.

Definition draw_ball (metaball screen : list Z) (bx by_ : Z) : option (list Z) :=
  draw_ball_loop (Z.to_nat (METASIZE * METASIZE)) metaball screen 0 0
                 (u32 (u32 (by_ * XSIZ) + bx)).

(** The index of the pixel that iteration [k] of [draw_ball] adds to, for
    a ball drawn from index [b0] on. *)
Definition ball_pos (b0 k : Z) : Z :=
  b0 + k + (XSIZ - METASIZE) * ((Z.max k 1 - 1) / METASIZE).

(** ** The moire effect *)

Definition DISCSIZ : Z := XSIZ * 2.
Definition DISCTHICKNESS : Z := XSIZ * 15 / 40.

(** A byte read through a [char*]: [char] is signed or not. *)
Definition char_of (signed : bool) (v : Z) : Z :=
  if signed && (128 <=? v) then v - 256 else v.

(** The inner loop of [put_disc], over [i]; [src] is the offset of the
    pointer [src] from [disc], and [n] counts the iterations that remain. *)
Fixpoint put_disc_cols (n : nat) (signed : bool) (disc screen : list Z)
  (src j i : Z) : option (list Z) :=
  match n with
  | O => Some screen
  | S n' =>
      p ← load screen (i + XSIZ * j);
      d ← load disc (src + (i + DISCSIZ * j));
      screen ← store screen (i + XSIZ * j) (u8 (Z.lxor p (char_of signed d)));
      put_disc_cols n' signed disc screen src j (i + 1)
  end.

(** The outer loop, over [j]. *)
Fixpoint put_disc_rows (n : nat) (signed : bool) (disc screen : list Z)
  (src j : Z) : option (list Z) :=
  match n with
  | O => Some screen
  | S n' =>
      screen ← put_disc_cols (Z.to_nat XSIZ) signed disc screen src j 0;
      put_disc_rows n' signed disc screen src (j + 1)
  end.

Definition put_disc (signed : bool) (disc screen : list Z) (x y : Z)
  : option (list Z) :=
  let src := s32 (DISCSIZ / 2 - x) + s32 (s32 (DISCSIZ / 2 - y) * DISCSIZ) in
  put_disc_rows (Z.to_nat YSIZ) signed disc screen src 0.

(** [memset(a + k, v, n)]: the count is a [size_t], and a negative [n]
    becomes a count larger than any array here. *)
Fixpoint memset_loop (n : nat) (a : list Z) (k v : Z) : option (list Z) :=
  match n with
  | O => Some a
  | S n' => a ← store a k v; memset_loop n' a (k + 1) v
  end.

Definition memset (a : list Z) (k v n : Z) : option (list Z) :=
  if n <? 0 then None else memset_loop (Z.to_nat n) a k (u8 v).

Definition draw_line (disc : list Z) (x y color : Z) : option (list Z) :=
  if (x =? 0) || (y =? 0) || (DISCSIZ / 2 <? y) then Some disc
  else
    let x := if DISCSIZ / 2 <? x then DISCSIZ / 2 else x in
    disc ← memset disc (DISCSIZ / 2 - x + s32 (DISCSIZ * s32 (DISCSIZ / 2 - y)))
                  color (s32 (2 * x - 1));
    memset disc (DISCSIZ / 2 - x + s32 (DISCSIZ * s32 (s32 (DISCSIZ / 2 + y) - 1)))
           color (s32 (2 * x - 1)).

(** The loop [for(t = 0, dx = 0, dy = i; dx <= dy; dx++)] of the case
    [PREPARE]; [n] bounds the iterations, and [None] is an access outside
    [disc] or the bound reached. *)
Fixpoint circle_loop (n : nat) (disc : list Z) (i t dx dy : Z)
  : option (list Z) :=
  match n with
  | O => None
  | S n' =>
      if dx <=? dy then
        let color := Z.rem (Z.quot i DISCTHICKNESS) 2 in
        disc ← draw_line disc (Z.quot dx 3) (Z.quot dy 3) color;
        disc ← draw_line disc (Z.quot dy 3) (Z.quot dx 3) color;
        let t' := s32 (t + (if 0 <? t then s32 (dx - dy) else dx)) in
        let dy' := if 0 <? t then s32 (dy - 1) else dy in
        circle_loop n' disc i t' (s32 (dx + 1)) dy'
      else Some disc
  end.

(** The loop [for(i = DISCSIZ * 2; i > 0; i -= DISCTHICKNESS)]. *)
Fixpoint fill_loop (n : nat) (disc : list Z) (i : Z) : option (list Z) :=
  match n with
  | O => None
  | S n' =>
      if 0 <? i then
        disc ← circle_loop (Z.to_nat (i + 2)) disc i 0 0 i;
        fill_loop n' disc (s32 (i - DISCTHICKNESS))
      else Some disc
  end.

(** "Fill the circle" of the case [PREPARE] of [moire]. *)
Definition fill_the_circle (disc : list Z) : option (list Z) :=
  fill_loop (Z.to_nat (DISCSIZ * 2)) disc (DISCSIZ * 2).

(** "Draw circles" of the case [UPDATE], after the [memset] of the screen:
    the two discs, at the places the caller computed. *)
Definition draw_circles (signed : bool) (disc : list Z) (x1 y1 x2 y2 : Z)
  : option (list Z) :=
  screen ← put_disc signed disc (replicate (Z.to_nat (XSIZ * YSIZ)) 0) x1 y1;
  put_disc signed disc screen x2 y2.

(** A byte that is 0 or 1. *)
Definition is_bit (v : Z) : Prop := v = 0 \/ v = 1.

(** The cell in column [c] of row [r] of [disc] is one of those
    [draw_line] fills when called with [x] and [y]. *)
Definition line_covers (x y c r : Z) : bool :=
  negb ((x =? 0) || (y =? 0) || (DISCSIZ / 2 <? y))
  && ((r =? DISCSIZ / 2 - y) || (r =? DISCSIZ / 2 + y - 1))
  && (DISCSIZ / 2 - Z.min x (DISCSIZ / 2) <=? c)
  && (c <=? DISCSIZ / 2 + Z.min x (DISCSIZ / 2) - 2).

(** ** Langton's ants *)

Definition ANTS : Z := 15.
Definition ITER : Z := 2.

(** [static int steps[][2]] *)
Definition steps : list (Z * Z) := [(0, 1); (1, 0); (0, -1); (-1, 0)].

(** The static variables of [langton] that [UPDATE] works on. *)
Record langton_state : Type := {
  l_screen : list Z;
  l_ax : list Z;
  l_ay : list Z;
  l_dir : list Z;
}.

(** [%] of two [int]: no value when the divisor is 0. *)
Definition c_mod (a b : Z) : option Z :=
  if b =? 0 then None else Some (Z.rem a b).

(** The loop over the cells that lets the trails fade; [n] counts the
    iterations that remain. *)
Fixpoint fade_loop (n : nat) (screen : list Z) (x : Z) : option (list Z) :=
  match n with
  | O => Some screen
  | S n' =>
      p ← load screen x;
      screen ← (if 1 <? Z.land p 0x0f then store screen x (u8 (p - 1))
                else Some screen);
      fade_loop n' screen (s32 (x + 1))
  end.

(** The loop over the ants. *)
Fixpoint ants_loop (n : nat) (width height : Z) (st : langton_state) (a : Z)
  : option langton_state :=
  match n with
  | O => Some st
  | S n' =>
      x ← load (l_ax st) a;
      y ← load (l_ay st) a;
      d ← load (l_dir st) a;
      let k := s32 (x + s32 (width * y)) in
      p ← load (l_screen st) k;
      let marked := negb (Z.land p 0x0f =? 0) in
      d' ← c_mod (s32 (d + (if marked then 1 else 3))) 4;
      dir ← store (l_dir st) a d';
      screen ← store (l_screen st) k
                 (u8 (if marked then Z.shiftl a 4
                      else Z.lor (Z.shiftl a 4) 0x0f));
      step ← (if d' <? 0 then None else steps !! Z.to_nat d');
      x' ← c_mod (s32 (s32 (width + x) + fst step)) width;
      ax ← store (l_ax st) a x';
      y' ← c_mod (s32 (s32 (height + y) + snd step)) height;
      ay ← store (l_ay st) a y';
      ants_loop n' width height
        {| l_screen := screen; l_ax := ax; l_ay := ay; l_dir := dir |}
        (s32 (a + 1))
  end.

(** The loop [for(i = 0; i < ITER; i++)] of the case [UPDATE]. *)
Fixpoint langton_iter (n : nat) (width height : Z) (st : langton_state)
  : option langton_state :=
  match n with
  | O => Some st
  | S n' =>
      screen ← fade_loop (Z.to_nat (s32 (width * height))) (l_screen st) 0;
      st ← ants_loop (Z.to_nat ANTS) width height
             {| l_screen := screen; l_ax := l_ax st; l_ay := l_ay st;
                l_dir := l_dir st |} 0;
      langton_iter n' width height st
  end.

Definition langton_update (width height : Z) (st : langton_state)
  : option langton_state :=
  langton_iter (Z.to_nat ITER) width height st.

(** What [PREPARE] and [INIT] set up, when [cucul_rand] keeps below its
    upper bound: a screen of [width * height] bytes, and every ant on a
    cell of it, heading one of the four ways. The canvas is small enough
    for [width + ax[a] + 1] and [height + ay[a] + 1] to fit an [int]. *)
Definition ants_on_screen (width height : Z) (st : langton_state) : Prop :=
  0 < width < 2 ^ 30 /\ 0 < height < 2 ^ 30 /\ width * height < 2 ^ 31
  /\ Z.of_nat (length (l_screen st)) = width * height
  /\ Forall is_uint8 (l_screen st)
  /\ Z.of_nat (length (l_ax st)) = ANTS /\ Forall (fun x => 0 <= x < width) (l_ax st)
  /\ Z.of_nat (length (l_ay st)) = ANTS /\ Forall (fun y => 0 <= y < height) (l_ay st)
  /\ Z.of_nat (length (l_dir st)) = ANTS /\ Forall (fun d => 0 <= d < 4) (l_dir st).

(** A cell after the trails faded once. *)
Definition faded (p : Z) : Z := if 1 <? p mod 16 then p - 1 else p.

(** ** The matrix effect *)

Definition MINLEN : Z := 15.
Definition MAXLEN : Z := 30.

(** [struct drop] *)
Record matrix_drop : Type := {
  d_x : Z;
  d_y : Z;
  d_speed : Z;
  d_len : Z;
  d_str : list Z;
}.

(** The foreground colours [RENDER] draws a drop with:
    [CUCUL_COLOR_WHITE], [CUCUL_COLOR_LIGHTGREEN], [CUCUL_COLOR_GREEN] and
    [CUCUL_COLOR_DARKGRAY]. *)
Inductive drop_colour : Type :=
| DROP_WHITE
| DROP_LIGHTGREEN
| DROP_GREEN
| DROP_DARKGRAY.

(** A call [cucul_set_color(cv, fg, CUCUL_COLOR_BLACK)] followed by
    [cucul_putchar(cv, x, y, ch)]. *)
Record drawn : Type := {
  dr_fg : drop_colour;
  dr_x : Z;
  dr_y : Z;
  dr_ch : Z;
}.

(** The loop [for(j = 0; j < drop[i].len; j++)] of the case [RENDER]: the
    calls it makes, in order, or [None] when it reads outside [str] or
    takes the remainder of a division by 0; [n] counts the iterations that
    remain. *)
Fixpoint render_drop_loop (n : nat) (d : matrix_drop) (x y j : Z) : option (list drawn) :=
  match n with
  | O => Some []
  | S n' =>
      let fg := if j <? 2 then DROP_WHITE
                else if j <? Z.quot (d_len d) 4 then DROP_LIGHTGREEN
                else if j <? Z.quot (s32 (d_len d * 4)) 5 then DROP_GREEN
                else DROP_DARKGRAY in
      k ← c_mod (s32 (y - j)) (d_len d);
      ch ← load (d_str d) k;
      rest ← render_drop_loop n' d x y (s32 (j + 1));
      Some ({| dr_fg := fg; dr_x := x; dr_y := s32 (y - j); dr_ch := ch |} :: rest)
  end.

(** The body of the loop over the drops, for a canvas of [w] by [h]. *)
Definition render_drop (w h : Z) (d : matrix_drop) : option (list drawn) :=
  let x := s32 (Z.quot (Z.quot (s32 (d_x d * w)) 1000) 2 * 2) in
  let y := Z.quot (s32 (d_y d * s32 (h + MAXLEN))) 1000 in
  render_drop_loop (Z.to_nat (d_len d)) d x y 0.

(** The row of the head of a drop on a canvas [h] rows tall. *)
Definition head_row (h : Z) (d : matrix_drop) : Z := d_y d * (h + MAXLEN) / 1000.

(** A drop as [PREPARE] makes it and [UPDATE] keeps it, when [cucul_rand]
    keeps below its upper bound. *)
Definition drop_ok (d : matrix_drop) : Prop :=
  0 <= d_x d < 1000 /\ 0 <= d_y d <= 1000
  /\ MINLEN <= d_len d < MAXLEN /\ Z.of_nat (length (d_str d)) = MAXLEN.

(** * Statements *)

Definition ESC : byte := x1b.
Definition LF : byte := x0a.

(** The test the autodetection makes for the native format. *)
Definition caca_signature (buf : list byte) : Prop :=
  4 <= sizeof buf /\ buf !! 0%nat = Some "C"%byte /\ buf !! 1%nat = Some "A"%byte
  /\ buf !! 2%nat = Some "C"%byte /\ buf !! 3%nat <> Some "A"%byte.

(** An escape introducer: ESC at [k], '[' right after it. *)
Definition csi_at (buf : list byte) (k : nat) : Prop :=
  buf !! k = Some ESC /\ buf !! S k = Some "["%byte.

Definition has_csi (buf : list byte) : Prop := exists k, csi_at buf k.



(** What an SGR command leaves to see: the six modifiers and the colour
    pair of the canvas. *)
Definition colours (s : ansi_state) : modifiers * (Z * Z) :=
  (a_mod s, (cv_fgcolor (a_cv s), cv_bgcolor (a_cv s))).

(** The six modifiers are [uint8_t]. *)
Definition uint8_modifiers (m : modifiers) : Prop :=
  0 <= fg m < 256 /\ 0 <= bg m < 256
  /\ 0 <= save_fg m < 256 /\ 0 <= save_bg m < 256.

(** Inputs the properties below are evaluated at. *)

(** A 16-byte native header announcing 65536 x 65536 cells. *)
Definition caca_64k : list byte :=
  ["C"; "A"; "C"; "A"; "C"; "A"; "N"; "V";
   x00; x01; x00; x00; x00; x01; x00; x00]%byte.

(** A 1 x 1 native file: the cell 'A' with attribute 7. *)
Definition caca_1x1 : list byte :=
  ["C"; "A"; "C"; "A"; "C"; "A"; "N"; "V";
   x00; x00; x00; x01; x00; x00; x00; x01;
   x00; x00; x00; "A"; x00; x00; x00; x07]%byte.

(** ESC [ 0;0;...;0 m with 1025 values. *)
Definition many_values : list byte :=
  [ESC; "["%byte] ++ concat (repeat ["0"; ";"]%byte 1024) ++ ["0"; "m"]%byte.

(** Three line feeds, then ESC [ 4919 A. *)
Definition up_4919 : list byte :=
  [LF; LF; LF; ESC; "["; "4"; "9"; "1"; "9"; "A"]%byte.

(** ESC [ 5 C, then ESC [ 4919 D. *)
Definition left_4919 : list byte :=
  [ESC; "["; "5"; "C"; ESC; "["; "4"; "9"; "1"; "9"; "D"]%byte.

Definition a_nl_bb_nl_ccc : list byte :=
  ["A"; LF; "B"; "B"; LF; "C"; "C"; "C"]%byte.

Definition esc_m : list byte := [ESC; "["; "m"]%byte.

(** ESC [ 1;7;31 m, then ESC [ m or ESC [ 0 m. *)
Definition bold_reverse_red : list byte :=
  [ESC; "["; "1"; ";"; "7"; ";"; "3"; "1"; "m"]%byte.

(** ESC [ 1;31 m ESC [ 8 m *)
Definition bold_red_invisible : list byte :=
  [ESC; "["; "1"; ";"; "3"; "1"; "m"; ESC; "["; "8"; "m"]%byte.



(** Three line feeds, then cursor up without and with its argument. *)
Definition up_default : list byte := [LF; LF; LF; ESC; "["; "A"]%byte.
Definition up_1 : list byte := [LF; LF; LF; ESC; "["; "1"; "A"]%byte.

Definition cacb : list byte := ["C"; "A"; "C"; "B"]%byte.
Definition caca : list byte := ["C"; "A"; "C"; "A"]%byte.

(** The tuple of ESC [ 1;31 m as [parse_tuple] leaves it, and the state the
    command leaves when it is the first of the input. *)
Definition argv_1_31 : gmap Z Z := <[2 := END_ARG]> (<[1 := 31]> (<[0 := 1]> ∅)).

(** The codes of that tuple, and the tuple of ESC [ 8 m. *)
Definition codes_1_31 : list Z := [1; 31].
Definition argv_8 : gmap Z Z := <[1 := END_ARG]> (<[0 := 8]> ∅).

Definition bold_red : ansi_state :=
  sgr_applied
    (promote (manage_modifiers (H:=libcucul) 31
                (manage_modifiers (H:=libcucul) 1 (a_mod (ansi_start (H:=libcucul))))))
    (ansi_start (H:=libcucul)).

(** ** Further inputs *)

(** The two numbers of ESC [ 1;31 m, and the command itself. *)
Definition one_and_31 : list (list byte) := [["1"]; ["3"; "1"]]%byte.

Definition esc_1_31_m : list byte := [ESC; "["; "1"; ";"; "3"; "1"; "m"]%byte.

Definition hi : list byte := ["H"; "i"]%byte.


(** ESC [ 1;31 m H i, and the state the decoder leaves its loop with. *)
Definition red_hi : list byte := esc_1_31_m ++ hi.

Definition red_hi_pasted : ansi_state :=
  with_i 9 (paste (H:=libcucul) 105
              (with_i 8 (paste (H:=libcucul) 72 (with_i 7 bold_red)))).

(** A screen with every pixel at 250 and a sprite with every value at 15. *)
Definition bright_screen : list Z := replicate (Z.to_nat (XSIZ * YSIZ)) 250.
Definition flat_ball : list Z := replicate (Z.to_nat (METASIZE * METASIZE)) 15.

(** The screen after [memset(screen, 0, XSIZ * YSIZ)], and [disc] as a
    static array starts and with every byte set. *)
Definition black_screen : list Z := replicate (Z.to_nat (XSIZ * YSIZ)) 0.
Definition empty_disc : list Z := replicate (Z.to_nat (DISCSIZ * DISCSIZ)) 0.
Definition full_disc : list Z := replicate (Z.to_nat (DISCSIZ * DISCSIZ)) 1.

(** Four cells: unmarked, at the end of a trail, and on two trails. *)
Definition four_cells : list Z := [0; 1; 2; 0x1f].

(** Fifteen ants on cell (1, 2) of a blank screen of 4 by 4, heading the
    first way. *)
Definition ants_4x4 : langton_state :=
  {| l_screen := replicate 16 0;
     l_ax := replicate 15 1; l_ay := replicate 15 2; l_dir := replicate 15 0 |}.

(** A drop of 15 zeros at the top of the canvas. *)
Definition top_drop : matrix_drop :=
  {| d_x := 500; d_y := 0; d_speed := 5; d_len := 15; d_str := replicate 30 48 |}.

(** * Properties *)

(** ** Arithmetic of the machine integers *)

Lemma u32_range z : 0 <= u32 z < 2 ^ 32.
Proof. unfold u32. apply Z.mod_pos_bound. lia. Qed.

Lemma s32_range z : - 2 ^ 31 <= s32 z < 2 ^ 31.
Proof.
  unfold s32. pose proof (Z.mod_pos_bound (z + 2 ^ 31) (2 ^ 32)). lia.
Qed.

Lemma u8_range z : 0 <= u8 z < 256.
Proof. unfold u8. apply Z.mod_pos_bound. lia. Qed.

Lemma u32_small z : 0 <= z < 2 ^ 32 -> u32 z = z.
Proof. intros Hz. unfold u32. now apply Z.mod_small. Qed.

Lemma s32_small z : - 2 ^ 31 <= z < 2 ^ 31 -> s32 z = z.
Proof. intros Hz. unfold s32. rewrite Z.mod_small; lia. Qed.

Lemma u8_small z : 0 <= z < 256 -> u8 z = z.
Proof. intros Hz. unfold u8. now apply Z.mod_small. Qed.

Lemma byte_val_range b : 0 <= byte_val b < 256.
Proof. unfold byte_val. pose proof (Byte.to_N_bounded b). lia. Qed.

Lemma byte_val_inj b c : byte_val b = byte_val c -> b = c.
Proof.
  unfold byte_val. intros Hbc.
  apply N2Z.inj in Hbc.
  assert (Hopt : Some b = Some c)
    by (rewrite <- (Byte.of_to_N b), <- (Byte.of_to_N c); now rewrite Hbc).
  congruence.
Qed.

(** ** Reading the buffer *)

Lemma getb_lookup buffer (k : nat) b :
  buffer !! k = Some b -> getb buffer (Z.of_nat k) = Ok (byte_val b).
Proof.
  intros Hk. unfold getb.
  destruct (Z.ltb_spec (Z.of_nat k) 0) as [Hneg|_]; [lia|].
  now rewrite Nat2Z.id, Hk.
Qed.

Lemma getb_in_range buffer i :
  0 <= i < sizeof buffer -> exists b, buffer !! Z.to_nat i = Some b
                                      /\ getb buffer i = Ok (byte_val b).
Proof.
  intros Hi. unfold sizeof in Hi.
  destruct (lookup_lt_is_Some_2 buffer (Z.to_nat i)) as [b Hb]; [lia|].
  exists b. split; [assumption|].
  rewrite <- (getb_lookup _ _ _ Hb). f_equal. lia.
Qed.

Lemma getb_Ok buffer i v :
  getb buffer i = Ok v ->
  0 <= i < sizeof buffer /\ exists b, buffer !! Z.to_nat i = Some b /\ v = byte_val b.
Proof.
  unfold getb, sizeof.
  destruct (Z.ltb_spec i 0) as [Hneg|Hpos]; [discriminate|].
  destruct (buffer !! Z.to_nat i) as [b|] eqn:Hb; [|discriminate].
  intros [= <-]. apply lookup_lt_Some in Hb. split; [lia|]. now exists b.
Qed.

Lemma getb_middle pre b rest :
  getb (pre ++ b :: rest) (Z.of_nat (length pre)) = Ok (byte_val b).
Proof. apply getb_lookup. now apply list_lookup_middle. Qed.

Lemma sizeof_nonneg (l : list byte) : 0 <= sizeof l.
Proof. unfold sizeof. lia. Qed.

Lemma sizeof_cons b (l : list byte) : sizeof (b :: l) = sizeof l + 1.
Proof. unfold sizeof. simpl length. lia. Qed.

Lemma byte_val_eqb b c : (byte_val b =? byte_val c) = true <-> b = c.
Proof.
  rewrite Z.eqb_eq. split; [apply byte_val_inj | now intros ->].
Qed.

Lemma byte_val_neq b c : b <> c -> (byte_val b =? byte_val c) = false.
Proof.
  intros Hne. apply Z.eqb_neq. intros Heq. apply Hne. now apply byte_val_inj.
Qed.

Lemma bind_Ok {A B} (m : result A) (k : A -> result B) r :
  bind m k = Ok r -> exists a, m = Ok a /\ k a = Ok r.
Proof. destruct m as [a|f]; [|discriminate]. intros Hk. now exists a. Qed.

Ltac bind_inv Hb a Ha :=
  apply bind_Ok in Hb; destruct Hb as (a & Ha & Hb).

Create HintDb faults.

Ltac fault_inv Hf :=
  repeat match goal with
    | Hx : bind ?m _ = Fault _ |- _ => destruct m eqn:?; cbn [bind] in Hx
    | Hx : Ok _ = Fault _ |- _ => discriminate Hx
    | Hx : Fault _ = Fault _ |- _ => injection Hx as <-
    | Hx : (if ?c then _ else _) = Fault _ |- _ => destruct c
    | Hx : match ?x with _ => _ end = Fault _ |- _ => destruct x eqn:?
    end;
  try discriminate; eauto with faults.

Section Properties.
Context `{cucul_h}.

(** ** The native decoder and the autodetection *)

Lemma caca_signature_shape buf :
  caca_signature buf ->
  exists b3 rest, buf = ("C" :: "A" :: "C" :: b3 :: rest)%byte /\ b3 <> "A"%byte.
Proof.
  intros (Hsize & H0 & H1 & H2 & H3).
  destruct buf as [|c0 [|c1 [|c2 [|c3 rest]]]]; simpl in *; try discriminate;
    [unfold sizeof in Hsize; simpl in Hsize; lia|].
  injection H0 as ->. injection H1 as ->. injection H2 as ->.
  exists c3, rest. split; [reflexivity|]. congruence.
Qed.

Lemma caca_guess_shape (b3 : byte) rest :
  caca_guess ("C" :: "A" :: "C" :: b3 :: rest)%byte
  = Ok (negb (byte_val b3 =? 65)).
Proof. reflexivity. Qed.

Lemma is_magic_head (b0 b1 b2 b3 : byte) rest m :
  is_magic (b0 :: b1 :: b2 :: b3 :: rest) 0 m
  = Ok (bool_decide ([byte_val b0; byte_val b1; byte_val b2; byte_val b3]
                     = map byte_val m)).
Proof. reflexivity. Qed.

(** C1. Every buffer the autodetection hands to the native decoder (at
    least four bytes, 'C' 'A' 'C' first and a fourth byte other than 'A')
    is refused by [import_caca], whose own test wants that fourth byte to
    be 'A': the import returns NULL. *)
Theorem autodetected_caca_is_rejected buf :
  caca_signature buf ->
  autodetect buf = Ok Caca /\ import_caca buf = Ok None
  /\ cucul_import_canvas buf "" = Ok None.
Proof.
  intros Hsig. destruct (caca_signature_shape _ Hsig) as (b3 & rest & -> & Hb3).
  destruct Hsig as (Hsize & _).
  assert (Hguess : (byte_val b3 =? 65) = false) by (now apply (byte_val_neq b3 "A"%byte)).
  assert (Hauto : autodetect ("C" :: "A" :: "C" :: b3 :: rest)%byte = Ok Caca).
  { unfold autodetect. destruct (Z.leb_spec 4 (sizeof ("C" :: "A" :: "C" :: b3 :: rest)%byte)); [|lia].
    rewrite caca_guess_shape, Hguess. reflexivity. }
  assert (Hcaca : import_caca ("C" :: "A" :: "C" :: b3 :: rest)%byte = Ok None).
  { unfold import_caca.
    destruct (sizeof ("C" :: "A" :: "C" :: b3 :: rest)%byte <? 16); [reflexivity|].
    rewrite is_magic_head. case_bool_decide as Heq; [|reflexivity].
    injection Heq as Heq. apply Z.eqb_neq in Hguess. contradiction. }
  repeat split; try assumption.
  unfold cucul_import_canvas.
  destruct (Z.eqb_spec (sizeof ("C" :: "A" :: "C" :: b3 :: rest)%byte) 0) as [H0|_]; [lia|].
  cbn [strcasecmp_eq]. rewrite Hauto. exact Hcaca.
Qed.
Lemma caca_guess_head (c0 c1 c2 c3 : byte) rest :
  caca_guess (c0 :: c1 :: c2 :: c3 :: rest)
  = Ok ((byte_val c0 =? byte_val "C") && (byte_val c1 =? byte_val "A")
        && (byte_val c2 =? byte_val "C") && negb (byte_val c3 =? byte_val "A")).
Proof.
  change (byte_val "C") with 67. change (byte_val "A") with 65.
  unfold caca_guess.
  change (getb (c0 :: c1 :: c2 :: c3 :: rest) 0) with (Ok (byte_val c0)).
  change (getb (c0 :: c1 :: c2 :: c3 :: rest) 1) with (Ok (byte_val c1)).
  change (getb (c0 :: c1 :: c2 :: c3 :: rest) 2) with (Ok (byte_val c2)).
  change (getb (c0 :: c1 :: c2 :: c3 :: rest) 3) with (Ok (byte_val c3)).
  cbn [bind].
  destruct (byte_val c0 =? 67), (byte_val c1 =? 65), (byte_val c2 =? 67);
    reflexivity.
Qed.

Lemma caca_guess_spec buf :
  4 <= sizeof buf ->
  exists g, caca_guess buf = Ok g /\ (g = true <-> caca_signature buf).
Proof.
  intros Hsize.
  destruct buf as [|c0 [|c1 [|c2 [|c3 rest]]]];
    try (unfold sizeof in Hsize; simpl in Hsize; lia).
  rewrite caca_guess_head. unfold caca_signature. cbn [lookup list_lookup].
  destruct (byte_val c0 =? byte_val "C") eqn:E0; cbn [negb andb].
  2:{ eexists; split; [reflexivity|]. split; [discriminate|].
      intros (_ & [= ->] & _). rewrite Z.eqb_refl in E0. discriminate. }
  destruct (byte_val c1 =? byte_val "A") eqn:E1; cbn [negb andb].
  2:{ eexists; split; [reflexivity|]. split; [discriminate|].
      intros (_ & _ & [= ->] & _). rewrite Z.eqb_refl in E1. discriminate. }
  destruct (byte_val c2 =? byte_val "C") eqn:E2; cbn [negb andb].
  2:{ eexists; split; [reflexivity|]. split; [discriminate|].
      intros (_ & _ & _ & [= ->] & _). rewrite Z.eqb_refl in E2. discriminate. }
  apply byte_val_eqb in E0, E1, E2. subst.
  eexists; split; [reflexivity|].
  destruct (byte_val c3 =? byte_val "A") eqn:E3; cbn [negb].
  - apply byte_val_eqb in E3. subst. split; [discriminate|].
    intros (_ & _ & _ & _ & Hne). now contradiction Hne.
  - split; [|reflexivity]. intros _. repeat split; try assumption.
    intros [= ->]. rewrite Z.eqb_refl in E3. discriminate.
Qed.

Lemma is_escape_spec buf i :
  0 <= i -> i + 1 < sizeof buf ->
  exists e, is_escape buf i = Ok e /\ (e = true <-> csi_at buf (Z.to_nat i)).
Proof.
  intros Hi Hsize. unfold is_escape, csi_at.
  destruct (getb_in_range buf i) as (b & Hb & ->); [lia|].
  destruct (getb_in_range buf (i + 1)) as (b1 & Hb1 & Hg1); [lia|].
  replace (S (Z.to_nat i)) with (Z.to_nat (i + 1)) by lia.
  rewrite Hb, Hb1. cbn [bind].
  change 27 with (byte_val ESC). change 91 with (byte_val "[").
  destruct (byte_val b =? byte_val ESC) eqn:E0.
  - apply byte_val_eqb in E0. subst b. rewrite Hg1. cbn [bind].
    eexists; split; [reflexivity|]. rewrite byte_val_eqb.
    split; [intros ->; now split | now intros [_ [= ->]]].
  - eexists; split; [reflexivity|]. split; [discriminate|].
    intros [[= ->] _]. rewrite Z.eqb_refl in E0. discriminate.
Qed.

Lemma find_escape_spec buf n : forall i,
  0 <= i -> i + Z.of_nat n < sizeof buf -> sizeof buf <= 2 ^ 32 ->
  exists e, find_escape n buf i = Ok e
            /\ (e = true <-> exists k, (Z.to_nat i <= k < Z.to_nat i + n)%nat /\ csi_at buf k).
Proof.
  induction n as [|n IH]; intros i Hi Hsize Hmax.
  - exists false. split; [reflexivity|]. split; [discriminate|].
    intros (k & Hk & _). lia.
  - cbn [find_escape].
    destruct (is_escape_spec buf i) as (e & -> & He); [lia..|]. cbn [bind].
    destruct e.
    + exists true. split; [reflexivity|]. split; [|reflexivity]. intros _.
      exists (Z.to_nat i). split; [lia|]. now apply He.
    + rewrite u32_small by lia.
      destruct (IH (i + 1)) as (e & -> & He'); [lia..|].
      exists e. split; [reflexivity|]. rewrite He'. split.
      * intros (k & Hk & Hcsi). exists k. split; [lia|assumption].
      * intros (k & Hk & Hcsi). exists k. split; [|assumption].
        destruct (decide (k = Z.to_nat i)) as [->|Hne]; [|lia].
        apply He in Hcsi. discriminate.
Qed.

(** C4, as amended. With an empty format the buffer goes to exactly one
    importer: the native one if and only if it starts with 'C' 'A' 'C' and
    its fourth byte is not 'A'; otherwise the ANSI one if and only if an
    ESC directly followed by '[' occurs somewhere; otherwise the text one. *)
Theorem autodetect_priority buf :
  0 < sizeof buf < 2 ^ 32 ->
  exists f, autodetect buf = Ok f
    /\ cucul_import_canvas buf "" = run_importer f buf
    /\ (f = Caca <-> caca_signature buf)
    /\ (f = Ansi <-> ~ caca_signature buf /\ has_csi buf)
    /\ (f = Text <-> ~ caca_signature buf /\ ~ has_csi buf).
Proof.
  intros Hsize.
  assert (Hentry : forall f, autodetect buf = Ok f ->
                             cucul_import_canvas buf "" = run_importer f buf).
  { intros f Hf. unfold cucul_import_canvas.
    destruct (Z.eqb_spec (sizeof buf) 0); [lia|]. cbn [strcasecmp_eq].
    now rewrite Hf. }
  assert (Hcaca : exists g, (if 4 <=? sizeof buf then caca_guess buf else Ok false) = Ok g
                            /\ (g = true <-> caca_signature buf)).
  { destruct (Z.leb_spec 4 (sizeof buf)) as [Hge|Hlt].
    - now apply caca_guess_spec.
    - exists false. split; [reflexivity|]. split; [discriminate|].
      intros (Hge & _). lia. }
  destruct Hcaca as (g & Hg & Hsig).
  destruct (find_escape_spec buf (Z.to_nat (u32 (sizeof buf - 1))) 0)
    as (e & He & Hcsi); [lia| rewrite u32_small by lia; lia | lia |].
  assert (Hhas : e = true <-> has_csi buf).
  { rewrite Hcsi. unfold has_csi. split.
    - intros (k & _ & Hk). now exists k.
    - intros (k & Hk). exists k. split; [|assumption].
      destruct Hk as [_ Hk1]. apply lookup_lt_Some in Hk1.
      rewrite u32_small by lia. unfold sizeof. lia. }
  unfold autodetect in *. rewrite Hg. cbn [bind].
  destruct g.
  - exists Caca. split; [reflexivity|]. split; [now apply Hentry; rewrite Hg|].
    assert (caca_signature buf) by now apply Hsig.
    intuition congruence.
  - rewrite He. cbn [bind].
    assert (~ caca_signature buf) by (intros Hc; apply Hsig in Hc; discriminate).
    destruct e.
    + exists Ansi. split; [reflexivity|].
      split; [apply Hentry; rewrite Hg; cbn [bind]; now rewrite He|].
      assert (has_csi buf) by now apply Hhas.
      intuition congruence.
    + exists Text. split; [reflexivity|].
      split; [apply Hentry; rewrite Hg; cbn [bind]; now rewrite He|].
      assert (~ has_csi buf) by (intros Hc; apply Hhas in Hc; discriminate).
      intuition congruence.
Qed.

(** What [import_caca] has checked when it returns a canvas: the length
    equation holds modulo 2^32 only. *)
Lemma import_caca_accepts buf cv :
  import_caca buf = Ok (Some cv) ->
  16 <= sizeof buf
  /\ take 8 buf = ["C"; "A"; "C"; "A"; "C"; "A"; "N"; "V"]%byte
  /\ be32 buf 8 = Ok (cv_width cv) /\ be32 buf 12 = Ok (cv_height cv)
  /\ cv_width cv <> 0 /\ cv_height cv <> 0
  /\ sizeof buf = u32 (16 + u32 (u32 (cv_width cv * cv_height cv) * 8)).
Proof.
  unfold import_caca. intros Himp.
  destruct (Z.ltb_spec (sizeof buf) 16) as [|Hsize]; [discriminate|].
  bind_inv Himp m1 Hm1. destruct m1; [|discriminate]. cbn [negb] in Himp.
  bind_inv Himp m2 Hm2. destruct m2; [|discriminate]. cbn [negb] in Himp.
  bind_inv Himp width Hw. bind_inv Himp height Hh.
  destruct (Z.eqb_spec width 0) as [|Hw0]; [discriminate|].
  destruct (Z.eqb_spec height 0) as [|Hh0]; [discriminate|].
  cbn [orb] in Himp.
  destruct (Z.eqb_spec (sizeof buf) (u32 (16 + u32 (u32 (width * height) * 8))))
    as [Hlen|]; [|discriminate].
  cbn [negb] in Himp. unfold cucul_create_canvas in Himp.
  bind_inv Himp cv' Hcells. injection Himp as <-.
  assert (Hdim : forall n cv0 cv1, caca_cells buf n cv0 = Ok cv1 ->
                   cv_width cv1 = cv_width cv0 /\ cv_height cv1 = cv_height cv0).
  { induction n as [|n IH]; intros cv0 cv1 Hc.
    - now injection Hc as <-.
    - cbn [caca_cells] in Hc. bind_inv Hc ch Hch. bind_inv Hc at' Hat.
      apply IH in Hc. exact Hc. }
  apply Hdim in Hcells. cbn [cv_width cv_height] in Hcells.
  destruct Hcells as [-> ->].
  repeat split; try assumption.
  destruct buf as [|b0 [|b1 [|b2 [|b3 [|b4 [|b5 [|b6 [|b7 rest]]]]]]]];
    try (unfold sizeof in Hsize; cbn [length] in Hsize; lia).
  rewrite is_magic_head in Hm1.
  change (is_magic (b0 :: b1 :: b2 :: b3 :: b4 :: b5 :: b6 :: b7 :: rest) 4
                   ["C"; "A"; "N"; "V"]%byte)
    with (Ok (bool_decide ([byte_val b4; byte_val b5; byte_val b6; byte_val b7]
                           = map byte_val ["C"; "A"; "N"; "V"]%byte))) in Hm2.
  injection Hm1 as Hm1. injection Hm2 as Hm2.
  apply bool_decide_eq_true in Hm1, Hm2.
  cbn [map] in Hm1, Hm2.
  injection Hm1 as E0 E1 E2 E3. injection Hm2 as E4 E5 E6 E7.
  apply byte_val_inj in E0, E1, E2, E3, E4, E5, E6, E7. subst.
  reflexivity.
Qed.

Example import_caca_1x1 :
  exists cv, import_caca caca_1x1 = Ok (Some cv)
             /\ cv_width cv = 1 /\ cv_height cv = 1
             /\ cv_chars cv 0 = 65 /\ cv_attr cv 0 = 7.
Proof. eexists. split; [vm_compute; reflexivity|]. repeat split. Qed.

(** C5, at its failing input. A 16-byte header announcing 65536 x 65536
    cells passes the length test, because [16 + width * height * 8] is
    computed modulo 2^32, and a canvas of that size is returned although
    the buffer is 16 bytes long and not 16 + 65536 * 65536 * 8. *)
Theorem import_caca_length_wraps :
  exists cv, import_caca caca_64k = Ok (Some cv)
             /\ cv_width cv = 65536 /\ cv_height cv = 65536
             /\ sizeof caca_64k = 16
             /\ 16 + cv_width cv * cv_height cv * 8 = 34359738384.
Proof. eexists. split; [vm_compute; reflexivity|]. repeat split. Qed.

(** ** The ANSI decoder outside its arrays *)

(** C6. For the escape sequence ESC [ 0;0;...;0 m with 1024 semicolons
    (1025 values), [parse_tuple] stores at index 1024 of the 1024-cell
    [argv] of [import_ansi]. *)
Theorem parse_tuple_overflows_argv :
  length (List.filter (fun b => byte_val b =? 59) many_values) = 1024%nat
  /\ parse_tuple (offset many_values 2) (sizeof many_values - 2)
     = Fault (ArgvOverflow 1024)
  /\ import_ansi many_values = Fault (ArgvOverflow 1024).
Proof. repeat split; vm_compute; reflexivity. Qed.

(** C7, at its failing input. For the one-byte buffer ESC the test
    [buffer[i] == '\x1b' && buffer[i + 1] == '['] reads [buffer[1]], the
    index equal to the size. *)
Theorem import_ansi_reads_past_end :
  sizeof [ESC] = 1 /\ import_ansi [ESC] = Fault (BufferOverread 1).
Proof. split; reflexivity. Qed.

(** C8, at its failing input. After three line feeds the cursor is on
    row 3; ESC [ 4919 A leaves it on row 2, not on row max(0, 3 - 4919) = 0:
    4919 is [END_ARG], so the count of arguments comes out as 0 and the
    cursor moves up by the default of one row. Cursor left does the same:
    from column 5, ESC [ 4919 D leaves the cursor on column 4. *)
Theorem cursor_up_4919 :
  observe a_y (ansi_run (take 3 up_4919)) = Ok 3
  /\ observe (fun r => (snd r !! 0, count_args 1024 (snd r) 0))
             (parse_tuple (offset up_4919 5) (sizeof up_4919 - 5))
     = Ok (Some END_ARG, Ok 0)
  /\ observe a_y (ansi_run up_4919) = Ok 2
  /\ Z.max 0 (3 - 4919) = 0
  /\ observe a_x (ansi_run (take 4 left_4919)) = Ok 5
  /\ observe a_x (ansi_run left_4919) = Ok 4.
Proof. repeat split; vm_compute; reflexivity. Qed.

(** ** The text decoder *)

(** C10. The eight bytes A LF B B LF C C C decoded as plain text give a
    canvas three columns wide and three rows tall whose rows read "A",
    "BB" and "CCC", every other cell being blank. *)
Theorem import_text_three_rows :
  exists cv, import_text a_nl_bb_nl_ccc = Ok (Some cv)
    /\ 3 <= cv_width cv /\ 3 <= cv_height cv
    /\ canvas_rows cv = [[65; blank; blank]; [66; 66; blank]; [67; 67; 67]].
Proof. eexists. split; [reflexivity|]. vm_compute. repeat split; congruence. Qed.

(** ** The loop of the ANSI decoder *)

(** [parse_tuple] returns an offset inside what it was given. *)
Lemma parse_tuple_loop_range n : forall buffer size i j t nbr ret r,
  i + Z.of_nat n = size ->
  parse_tuple_loop n buffer size i j t nbr ret = Ok r ->
  i <= fst r <= size.
Proof.
  induction n as [|n IH]; intros buffer size i j t nbr ret r Hn Hr.
  - injection Hr as <-. cbn [fst]. lia.
  - cbn [parse_tuple_loop] in Hr. bind_inv Hr b Hb.
    destruct (IS_ALPHA b).
    + bind_inv Hr rt Hrt. bind_inv Hr ret' Hret. injection Hr as <-.
      cbn [fst]. lia.
    + destruct (negb (b =? 59)).
      * bind_inv Hr nbr1 Hn1. bind_inv Hr nbr2 Hn2.
        apply IH in Hr; lia.
      * bind_inv Hr ret1 Hr1. bind_inv Hr ret2 Hr2.
        apply IH in Hr; lia.
Qed.

Lemma parse_tuple_range buffer size r :
  0 <= size -> parse_tuple buffer size = Ok r -> 0 <= fst r <= size.
Proof.
  intros Hsize Hr. unfold parse_tuple in Hr. bind_inv Hr ret Hret.
  apply parse_tuple_loop_range in Hr; lia.
Qed.

Lemma is_escape_true buffer i :
  is_escape buffer i = Ok true -> 0 <= i /\ i + 1 < sizeof buffer.
Proof.
  unfold is_escape. intros He. bind_inv He b Hb.
  destruct (b =? 27); [|discriminate]. bind_inv He b1 Hb1.
  apply getb_Ok in Hb, Hb1. lia.
Qed.

Lemma a_i_with_i v s : a_i (with_i v s) = v.
Proof. reflexivity. Qed.

(** Every iteration that continues moves the index forward, at most to
    one past the end. *)
Lemma ansi_body_progress buffer s s' :
  sizeof buffer < 2 ^ 31 -> 0 <= a_i s < sizeof buffer ->
  ansi_body buffer s = Ok (Some s') ->
  a_i s < a_i s' <= sizeof buffer + 1.
Proof.
  intros Hmax Hi Hbody. unfold ansi_body in Hbody.
  bind_inv Hbody b Hb. bind_inv Hbody sauce Hsauce.
  destruct sauce; [discriminate|].
  destruct (b =? 13).
  { injection Hbody as <-. rewrite a_i_with_i, u32_small; lia. }
  destruct (b =? 10).
  { injection Hbody as <-. rewrite a_i_with_i, u32_small; lia. }
  bind_inv Hbody esc Hesc. destruct esc.
  - apply is_escape_true in Hesc.
    bind_inv Hbody c Hc. bind_inv Hbody r Hr. bind_inv Hbody argc Hargc.
    bind_inv Hbody s1 Hs1. injection Hbody as <-. rewrite a_i_with_i.
    rewrite (u32_small (a_i s + 1)) in * by lia.
    rewrite (u32_small (a_i s + 1 + 1)) in * by lia.
    rewrite (u32_small (sizeof buffer - _)) in Hr by lia.
    rewrite s32_small in Hr by lia.
    apply parse_tuple_range in Hr; [|lia].
    rewrite (u32_small (1 + fst r)) by lia.
    rewrite u32_small; lia.
  - injection Hbody as <-. rewrite a_i_with_i, u32_small; lia.
Qed.


Lemma ansi_steps_loop buffer n : forall s s' fuel,
  ansi_steps n buffer s = Ok (Some s') ->
  ansi_loop (n + fuel) buffer s = ansi_loop fuel buffer s'.
Proof.
  induction n as [|n IH]; intros s s' fuel Hsteps.
  - now injection Hsteps as <-.
  - cbn [ansi_steps] in Hsteps. cbn [Nat.add ansi_loop].
    destruct (a_i s <? sizeof buffer); [|discriminate].
    bind_inv Hsteps r Hr. rewrite Hr.
    destruct r as [s1|]; [|discriminate]. now apply IH.
Qed.

(** The loop of [import_ansi] never needs more iterations than there are
    bytes left: with one unit of fuel per remaining byte and one more, it
    comes to an end. *)
Lemma ansi_loop_total buffer fuel : forall s,
  sizeof buffer < 2 ^ 31 -> 0 <= a_i s ->
  sizeof buffer - a_i s < Z.of_nat fuel -> (0 < fuel)%nat ->
  exists r, ansi_loop fuel buffer s = Some r.
Proof.
  induction fuel as [|fuel IH]; intros s Hmax Hi Hfuel Hpos; [lia|].
  cbn [ansi_loop].
  destruct (Z.ltb_spec (a_i s) (sizeof buffer)) as [Hlt|Hge]; [|now eexists].
  destruct (ansi_body buffer s) as [[s1|]|f] eqn:Hbody; [|now eexists..].
  apply ansi_body_progress in Hbody; [|lia..].
  apply IH; lia.
Qed.

Lemma ansi_run_loop buffer :
  sizeof buffer < 2 ^ 31 ->
  ansi_loop (S (length buffer)) buffer ansi_start = Some (ansi_run buffer).
Proof.
  intros Hmax. unfold ansi_run, cucul_create_canvas. fold ansi_start.
  destruct (ansi_loop_total buffer (S (length buffer)) ansi_start)
    as (r & ->); try (cbn [a_i ansi_start ansi_init]; unfold sizeof in *; lia).
  reflexivity.
Qed.

(** ** Faults are accesses, never a lack of fuel *)

Lemma getb_fault buffer i f : getb buffer i = Fault f -> f <> OutOfFuel.
Proof. unfold getb. intros Hf. fault_inv Hf. Qed.
Hint Resolve getb_fault : faults.

Lemma array_set_fault a k v f :
  array_set ArgvOverflow a k v = Fault f \/ array_set NbrOverflow a k v = Fault f ->
  f <> OutOfFuel.
Proof. unfold array_set. intros [Hf|Hf]; fault_inv Hf. Qed.

Lemma argv_set_fault a k v f :
  array_set ArgvOverflow a k v = Fault f -> f <> OutOfFuel.
Proof. intros Hf. eapply array_set_fault. left. exact Hf. Qed.

Lemma nbr_set_fault a k v f :
  array_set NbrOverflow a k v = Fault f -> f <> OutOfFuel.
Proof. intros Hf. eapply array_set_fault. right. exact Hf. Qed.
Hint Resolve argv_set_fault nbr_set_fault : faults.

Lemma array_get_fault a k f : array_get a k = Fault f -> f <> OutOfFuel.
Proof. unfold array_get. intros Hf. fault_inv Hf. Qed.
Hint Resolve array_get_fault : faults.

Lemma c_string_fault n : forall nbr k f,
  c_string n nbr k = Fault f -> f <> OutOfFuel.
Proof.
  induction n as [|n IH]; intros nbr k f Hf; cbn [c_string] in Hf; fault_inv Hf.
Qed.
Hint Resolve c_string_fault : faults.

Lemma atoi_fault s f : atoi s = Fault f -> f <> OutOfFuel.
Proof. unfold atoi. intros Hf. fault_inv Hf. Qed.
Hint Resolve atoi_fault : faults.

Lemma store_number_fault ret nbr t f :
  store_number ret nbr t = Fault f -> f <> OutOfFuel.
Proof. unfold store_number. intros Hf. fault_inv Hf. Qed.
Hint Resolve store_number_fault : faults.

Lemma parse_tuple_loop_fault n : forall buffer size i j t nbr ret f,
  parse_tuple_loop n buffer size i j t nbr ret = Fault f -> f <> OutOfFuel.
Proof.
  induction n as [|n IH]; intros buffer size i j t nbr ret f Hf;
    cbn [parse_tuple_loop] in Hf; fault_inv Hf.
Qed.
Hint Resolve parse_tuple_loop_fault : faults.

Lemma parse_tuple_fault buffer size f :
  parse_tuple buffer size = Fault f -> f <> OutOfFuel.
Proof. unfold parse_tuple. intros Hf. fault_inv Hf. Qed.
Hint Resolve parse_tuple_fault : faults.

Lemma memcmp_eq_fault lit : forall buffer k f,
  memcmp_eq buffer k lit = Fault f -> f <> OutOfFuel.
Proof.
  induction lit as [|c lit IH]; intros buffer k f Hf; cbn [memcmp_eq] in Hf;
    fault_inv Hf.
Qed.
Hint Resolve memcmp_eq_fault : faults.

Lemma is_escape_fault buffer i f : is_escape buffer i = Fault f -> f <> OutOfFuel.
Proof. unfold is_escape. intros Hf. fault_inv Hf. Qed.
Hint Resolve is_escape_fault : faults.

Lemma final_byte_fault n : forall buffer j f,
  final_byte n buffer j = Fault f -> f <> OutOfFuel.
Proof.
  induction n as [|n IH]; intros buffer j f Hf; cbn [final_byte] in Hf;
    fault_inv Hf.
Qed.
Hint Resolve final_byte_fault : faults.

Lemma count_args_fault n : forall argv argc f,
  count_args n argv argc = Fault f -> f <> OutOfFuel.
Proof.
  induction n as [|n IH]; intros argv argc f Hf; cbn [count_args] in Hf;
    fault_inv Hf.
Qed.
Hint Resolve count_args_fault : faults.

Lemma apply_modifiers_fault n : forall argv j m f,
  apply_modifiers n argv j m = Fault f -> f <> OutOfFuel.
Proof.
  induction n as [|n IH]; intros argv j m f Hf; cbn [apply_modifiers] in Hf;
    fault_inv Hf.
Qed.
Hint Resolve apply_modifiers_fault : faults.

Lemma dispatch_fault c argc argv s f :
  dispatch c argc argv s = Fault f -> f <> OutOfFuel.
Proof. unfold dispatch, count_or_one. intros Hf. fault_inv Hf. Qed.
Hint Resolve dispatch_fault : faults.

Lemma ansi_body_fault buffer s f :
  ansi_body buffer s = Fault f -> f <> OutOfFuel.
Proof. unfold ansi_body. intros Hf. fault_inv Hf. Qed.

Lemma ansi_loop_fault buffer fuel : forall s f,
  ansi_loop fuel buffer s = Some (Fault f) -> f <> OutOfFuel.
Proof.
  induction fuel as [|fuel IH]; intros s f Hf; [discriminate|].
  cbn [ansi_loop] in Hf.
  destruct (a_i s <? sizeof buffer); [|discriminate].
  destruct (ansi_body buffer s) as [[s1|]|f1] eqn:Hbody;
    [now apply IH in Hf | discriminate |].
  injection Hf as <-. now apply ansi_body_fault in Hbody.
Qed.

(** For a buffer whose size fits an [int] the decoder comes to an end: it
    leaves the loop or stops at an access outside an object. *)
Lemma ansi_run_total buffer :
  sizeof buffer < 2 ^ 31 -> ansi_run buffer <> Fault OutOfFuel.
Proof.
  intros Hmax Hrun. pose proof (ansi_run_loop buffer Hmax) as Hloop.
  rewrite Hrun in Hloop. now apply ansi_loop_fault in Hloop.
Qed.

(** ** The SAUCE marker *)




Lemma final_byte_finds bs : forall pre final rest n,
  Forall (fun b => IS_ALPHA (byte_val b) = false) bs ->
  IS_ALPHA (byte_val final) = true -> (length bs < n)%nat ->
  final_byte n (pre ++ bs ++ final :: rest) (Z.of_nat (length pre))
  = Ok (byte_val final).
Proof.
  induction bs as [|b bs IH]; intros pre final rest n Hbs Hfinal Hn;
    (destruct n as [|n]; [cbn [length] in Hn; lia|]); cbn [final_byte app].
  - rewrite getb_middle. cbn [bind]. now rewrite Hfinal.
  - rewrite getb_middle. cbn [bind]. inversion Hbs as [|? ? Hb Hbs']; subst.
    rewrite Hb.
    replace (pre ++ b :: bs ++ final :: rest)
      with ((pre ++ [b]) ++ bs ++ final :: rest) by now rewrite <- app_assoc.
    replace (Z.of_nat (length pre) + 1) with (Z.of_nat (length (pre ++ [b])))
      by (rewrite length_app; cbn [length]; lia).
    apply IH; [assumption..|]. cbn [length] in Hn. lia.
Qed.

(** ** One iteration does not look past what it reads *)





(** ** The run up to the end of ground bytes *)










(** ** Select Graphic Rendition *)

Lemma getb_offset buffer i l (k : nat) b :
  0 <= i -> offset buffer i = l -> l !! k = Some b ->
  getb buffer (i + Z.of_nat k) = Ok (byte_val b).
Proof.
  intros Hi <- Hk. unfold offset in Hk. rewrite lookup_drop in Hk.
  rewrite <- (getb_lookup _ _ _ Hk). f_equal. lia.
Qed.

Lemma offset_skip buffer i l (k : nat) :
  0 <= i -> offset buffer i = l -> offset buffer (i + Z.of_nat k) = drop k l.
Proof.
  intros Hi <-. unfold offset. rewrite drop_drop. f_equal. lia.
Qed.

Lemma offset_size buffer i b l :
  0 <= i -> offset buffer i = b :: l -> i + sizeof (b :: l) = sizeof buffer.
Proof.
  intros Hi Hoff. apply (f_equal length) in Hoff. unfold offset in Hoff.
  rewrite length_drop in Hoff. unfold sizeof. cbn [length] in *. lia.
Qed.

(** A final byte right after the introducer: no value, the tuple is empty. *)
Lemma parse_tuple_empty (b : byte) rest size :
  0 < size -> IS_ALPHA (byte_val b) = true ->
  parse_tuple (b :: rest) size = Ok (0, <[0 := END_ARG]> (<[0 := END_ARG]> ∅)).
Proof.
  intros Hsize Halpha. unfold parse_tuple.
  destruct (Z.to_nat size) as [|n] eqn:Hn; [lia|].
  change (array_set ArgvOverflow ∅ 0 END_ARG) with (Ok (<[0 := END_ARG]> (∅ : gmap Z Z))).
  cbn [bind parse_tuple_loop].
  change (getb (b :: rest) 0) with (Ok (byte_val b)). cbn [bind].
  rewrite Halpha. reflexivity.
Qed.

Lemma count_args_empty (argv : gmap Z Z) :
  count_args 1024 (<[0 := END_ARG]> argv) 0 = Ok 0.
Proof.
  change (count_args 1024 (<[0 := END_ARG]> argv) 0)
    with (do v <- array_get (<[0 := END_ARG]> argv) 0;
          if v =? END_ARG then Ok 0
          else count_args 1023 (<[0 := END_ARG]> argv) (u32 (0 + 1))).
  unfold array_get. rewrite lookup_insert_eq. reflexivity.
Qed.

Lemma promote_keeps m :
  bold (promote m) = bold m /\ reverse (promote m) = reverse m
  /\ save_fg (promote m) = save_fg m /\ save_bg (promote m) = save_bg m
  /\ (bold m = 0 -> promote m = m).
Proof.
  unfold promote, set_fg, set_bg.
  destruct (Z.eqb_spec (bold m) 0) as [Hb|Hb]; cbn [negb andb].
  - assert (Hz : (bold m =? 0) = true) by now apply Z.eqb_eq.
    rewrite Hz. cbn [negb andb]. repeat split; intros; reflexivity.
  - assert (Hnz : (bold m =? 0) = false) by now apply Z.eqb_neq.
    destruct (fg m <? 8); cbn [bold fg bg]; rewrite Hnz; cbn [negb andb];
      destruct (bg m <? 8); cbn [bold reverse save_fg save_bg];
      (repeat split; try reflexivity; intros; contradiction).
Qed.

(** In every state ESC [ m applies no code: the modifiers only go through
    the two [if(bold && ... < 8)] that end [case 'm']. *)
Lemma ansi_body_sgr_empty buffer s rest :
  sizeof buffer < 2 ^ 31 -> 0 <= a_i s ->
  offset buffer (a_i s) = ESC :: "["%byte :: "m"%byte :: rest ->
  ansi_body buffer s
  = Ok (Some (with_i (a_i s + 3) (sgr_applied (promote (a_mod s)) s))).
Proof.
  intros Hmax Hi Hseq.
  pose proof (offset_size _ _ _ _ Hi Hseq) as Hsize.
  rewrite !sizeof_cons in Hsize. pose proof (sizeof_nonneg rest).
  assert (Hg0 : getb buffer (a_i s) = Ok 27).
  { replace (a_i s) with (a_i s + Z.of_nat 0) by lia.
    exact (getb_offset _ _ _ 0%nat ESC Hi Hseq eq_refl). }
  assert (Hg1 : getb buffer (a_i s + 1) = Ok 91).
  { exact (getb_offset _ _ _ 1%nat "["%byte Hi Hseq eq_refl). }
  assert (Hg2 : getb buffer (a_i s + 1 + 1) = Ok 109).
  { replace (a_i s + 1 + 1) with (a_i s + Z.of_nat 2) by lia.
    exact (getb_offset _ _ _ 2%nat "m"%byte Hi Hseq eq_refl). }
  assert (Hoff : offset buffer (a_i s + 1 + 1) = "m"%byte :: rest).
  { replace (a_i s + 1 + 1) with (a_i s + Z.of_nat 2) by lia.
    exact (offset_skip _ _ _ 2%nat Hi Hseq). }
  unfold ansi_body, is_escape. rewrite Hg0. cbn [bind].
  change (27 =? 26) with false. change (27 =? 13) with false.
  change (27 =? 10) with false. change (27 =? 27) with true.
  cbn [andb bind]. rewrite Hg1. cbn [bind]. change (91 =? 91) with true.
  rewrite (u32_small (a_i s + 1)) by lia.
  rewrite (u32_small (a_i s + 1 + 1)) by lia.
  rewrite (s32_small (a_i s + 1 + 1)), (s32_small (sizeof buffer)) by lia.
  rewrite (u32_small (sizeof buffer - _)), s32_small by lia.
  destruct (Z.to_nat (sizeof buffer - (a_i s + 1 + 1))) as [|n] eqn:Hn; [lia|].
  cbn [final_byte]. rewrite Hg2. cbn [bind]. change (IS_ALPHA 109) with true.
  rewrite Hoff, parse_tuple_empty by (reflexivity || lia).
  cbn [bind fst snd]. rewrite count_args_empty. cbn [bind].
  unfold dispatch.
  change (109 =? 102) with false. change (109 =? 72) with false.
  change (109 =? 65) with false. change (109 =? 66) with false.
  change (109 =? 67) with false. change (109 =? 68) with false.
  change (109 =? 115) with false. change (109 =? 117) with false.
  change (109 =? 74) with false. change (109 =? 75) with false.
  change (109 =? 109) with true. cbn [orb].
  change (Z.to_nat (s32 0)) with 0%nat. cbn [apply_modifiers bind].
  change (u32 (1 + 0)) with 1.
  rewrite u32_small by lia. do 3 f_equal. lia.
Qed.

(** ** The modifiers stay bytes *)

Lemma set_fg_uint8 v m : uint8_modifiers m -> uint8_modifiers (set_fg v m).
Proof.
  intros (_ & Hbg & Hsf & Hsb). unfold uint8_modifiers, set_fg. cbn.
  pose proof (u8_range v). tauto.
Qed.

Lemma set_bg_uint8 v m : uint8_modifiers m -> uint8_modifiers (set_bg v m).
Proof.
  intros (Hfg & _ & Hsf & Hsb). unfold uint8_modifiers, set_bg. cbn.
  pose proof (u8_range v). tauto.
Qed.

Lemma manage_modifiers_uint8 i m :
  uint8_modifiers m -> uint8_modifiers (manage_modifiers i m).
Proof.
  intros Hm. unfold manage_modifiers.
  repeat case_match; try (now apply set_fg_uint8); try (now apply set_bg_uint8);
    try assumption;
    destruct Hm as (Hfg & Hbg & Hsf & Hsb); unfold uint8_modifiers; cbn;
    pose proof (u8_range CUCUL_COLOR_DEFAULT);
    pose proof (u8_range CUCUL_COLOR_TRANSPARENT); tauto.
Qed.

Lemma apply_modifiers_uint8 n : forall argv j m m',
  uint8_modifiers m -> apply_modifiers n argv j m = Ok m' -> uint8_modifiers m'.
Proof.
  induction n as [|n IH]; intros argv j m m' Hm Happ.
  - now injection Happ as <-.
  - cbn [apply_modifiers] in Happ. bind_inv Happ v Hv.
    eapply IH; [|exact Happ]. now apply manage_modifiers_uint8.
Qed.

Lemma promote_bright m :
  uint8_modifiers m ->
  bold (promote m) = 0 \/ (8 <= fg (promote m) /\ 8 <= bg (promote m)).
Proof.
  intros (Hfg & Hbg & _). unfold promote, set_fg, set_bg.
  destruct (Z.eqb_spec (bold m) 0) as [Hb|Hb]; cbn [negb andb].
  { left. assert (Hz : (bold m =? 0) = true) by now apply Z.eqb_eq.
    rewrite Hz. exact Hb. }
  right. assert (Hnz : (bold m =? 0) = false) by now apply Z.eqb_neq.
  destruct (Z.ltb_spec (fg m) 8) as [Hf|Hf]; cbn [bold fg bg]; rewrite Hnz;
    cbn [negb andb];
    destruct (Z.ltb_spec (bg m) 8) as [Hg|Hg]; cbn [fg bg];
    rewrite ?u8_small by lia; lia.
Qed.

(** The loop of [case 'm'] over the codes the tuple holds. *)
Lemma apply_modifiers_codes codes : forall argv j m,
  (forall k c, codes !! k = Some c -> argv !! (j + Z.of_nat k) = Some c) ->
  apply_modifiers (length codes) argv j m
  = Ok (fold_left (fun m c => manage_modifiers (s32 c) m) codes m).
Proof.
  induction codes as [|c codes IH]; intros argv j m Hargv; [reflexivity|].
  cbn [length apply_modifiers fold_left]. unfold array_get.
  pose proof (Hargv 0%nat c eq_refl) as Hc. change (Z.of_nat 0) with 0 in Hc.
  rewrite Z.add_0_r in Hc. rewrite Hc. cbn [bind].
  apply IH. intros k c' Hk.
  replace (j + 1 + Z.of_nat k) with (j + Z.of_nat (S k)) by lia.
  now apply Hargv.
Qed.

Lemma codes_uint8 codes : forall m,
  uint8_modifiers m ->
  uint8_modifiers (fold_left (fun m c => manage_modifiers (s32 c) m) codes m).
Proof.
  induction codes as [|c codes IH]; intros m Hm; [exact Hm|].
  cbn [fold_left]. apply IH. now apply manage_modifiers_uint8.
Qed.

(** The command m with the codes [codes] in its tuple. *)
Lemma dispatch_sgr codes argv s :
  Z.of_nat (length codes) < 2 ^ 31 ->
  (forall k c, codes !! k = Some c -> argv !! Z.of_nat k = Some c) ->
  dispatch 109 (Z.of_nat (length codes)) argv s
  = Ok (sgr_applied
          (promote (fold_left (fun m c => manage_modifiers (s32 c) m) codes (a_mod s)))
          s).
Proof.
  intros Hlen Hargv. unfold dispatch.
  change (109 =? 102) with false. change (109 =? 72) with false.
  change (109 =? 65) with false. change (109 =? 66) with false.
  change (109 =? 67) with false. change (109 =? 68) with false.
  change (109 =? 115) with false. change (109 =? 117) with false.
  change (109 =? 74) with false. change (109 =? 75) with false.
  change (109 =? 109) with true. cbn [orb].
  rewrite s32_small, Nat2Z.id by lia.
  rewrite apply_modifiers_codes by (intros k c Hk; rewrite Z.add_0_l; now apply Hargv).
  reflexivity.
Qed.

(** What the two [if(bold && ... < 8)] store. *)
Lemma promote_stores m :
  uint8_modifiers m ->
  fg (promote m) = (if negb (bold m =? 0) && (fg m <? 8) then fg m + 8 else fg m)
  /\ bg (promote m) = (if negb (bold m =? 0) && (bg m <? 8) then bg m + 8 else bg m).
Proof.
  intros (Hfg & Hbg & _). unfold promote, set_fg, set_bg.
  destruct (Z.eqb_spec (bold m) 0) as [Hb|Hb]; cbn [negb andb].
  { assert (Hz : (bold m =? 0) = true) by now apply Z.eqb_eq.
    rewrite Hz. now split. }
  assert (Hnz : (bold m =? 0) = false) by now apply Z.eqb_neq.
  destruct (Z.ltb_spec (fg m) 8) as [Hf|Hf]; cbn [bold fg bg]; rewrite Hnz;
    cbn [negb andb];
    destruct (Z.ltb_spec (bg m) 8) as [Hg|Hg]; cbn [fg bg];
    rewrite ?u8_small by lia; now split.
Qed.

(** C3, as amended. Code 1 in [manage_modifiers] changes the bold flag
    and nothing else. A command m with the codes [codes] applies them in
    order and then, while bold is set, adds 8 to the foreground and to the
    background that are below 8 and stores the sums; the canvas colour is
    that stored pair, swapped when reverse is set; and a later command sees
    the stored pair: ESC [ 8 m saves the promoted colours. *)
Theorem bold_promotion_is_stored s codes argv argv8 :
  uint8_modifiers (a_mod s) ->
  Z.of_nat (length codes) < 2 ^ 31 ->
  (forall k c, codes !! k = Some c -> argv !! Z.of_nat k = Some c) ->
  argv8 !! 0 = Some 8 ->
  let m0 := fold_left (fun m c => manage_modifiers (s32 c) m) codes (a_mod s) in
  let bright v := if negb (bold m0 =? 0) && (v <? 8) then v + 8 else v in
  exists s' s8,
    dispatch 109 (Z.of_nat (length codes)) argv s = Ok s'
    /\ fg (a_mod s') = bright (fg m0) /\ bg (a_mod s') = bright (bg m0)
    /\ bold (a_mod s') = bold m0 /\ reverse (a_mod s') = reverse m0
    /\ save_fg (a_mod s') = save_fg m0 /\ save_bg (a_mod s') = save_bg m0
    /\ (bold (a_mod s') = 0 \/ (8 <= fg (a_mod s') /\ 8 <= bg (a_mod s')))
    /\ cv_fgcolor (a_cv s')
       = (if reverse m0 =? 0 then bright (fg m0) else bright (bg m0))
    /\ cv_bgcolor (a_cv s')
       = (if reverse m0 =? 0 then bright (bg m0) else bright (fg m0))
    /\ dispatch 109 1 argv8 s' = Ok s8
    /\ save_fg (a_mod s8) = bright (fg m0) /\ save_bg (a_mod s8) = bright (bg m0)
    /\ (forall m, manage_modifiers 1 m
                  = {| fg := fg m; bg := bg m; save_fg := save_fg m;
                       save_bg := save_bg m; bold := 1; reverse := reverse m |}).
Proof.
  intros Hm Hlen Hargv H8 m0 bright.
  assert (Hm0 : uint8_modifiers m0) by now apply codes_uint8.
  destruct (promote_stores m0 Hm0) as [Hfg Hbg].
  destruct (promote_keeps m0) as (Hb & Hr & Hsf & Hsb & _).
  set (s' := sgr_applied (promote m0) s).
  assert (Hd8 : dispatch 109 1 argv8 s'
                = Ok (sgr_applied (promote (manage_modifiers 8 (promote m0))) s')).
  { change 1 with (Z.of_nat (length [8])) at 1.
    rewrite (dispatch_sgr [8] argv8 s').
    - reflexivity.
    - cbn. lia.
    - intros [|k] c Hk; [|destruct k; discriminate].
      injection Hk as <-. exact H8. }
  exists s', (sgr_applied (promote (manage_modifiers 8 (promote m0))) s').
  split; [now apply dispatch_sgr|].
  change (a_mod s') with (promote m0).
  split; [exact Hfg|]. split; [exact Hbg|]. split; [exact Hb|]. split; [exact Hr|].
  split; [exact Hsf|]. split; [exact Hsb|].
  split; [now apply promote_bright|].
  split.
  { unfold s', sgr_applied, apply_colour, cucul_set_color.
    cbn [a_cv with_cv with_mod]. rewrite Hr.
    destruct (reverse m0 =? 0); cbn [negb cv_fgcolor]; assumption. }
  split.
  { unfold s', sgr_applied, apply_colour, cucul_set_color.
    cbn [a_cv with_cv with_mod]. rewrite Hr.
    destruct (reverse m0 =? 0); cbn [negb cv_bgcolor]; assumption. }
  split; [exact Hd8|].
  change (a_mod (sgr_applied (promote (manage_modifiers 8 (promote m0))) s'))
    with (promote (manage_modifiers 8 (promote m0))).
  destruct (promote_keeps (manage_modifiers 8 (promote m0))) as (_ & _ & Hsf8 & Hsb8 & _).
  rewrite Hsf8, Hsb8.
  change (save_fg (manage_modifiers 8 (promote m0))) with (fg (promote m0)).
  change (save_bg (manage_modifiers 8 (promote m0))) with (bg (promote m0)).
  split; [exact Hfg|]. split; [exact Hbg|]. reflexivity.
Qed.


Lemma ansi2cucul_base k :
  palette_ok -> (k < 8)%nat -> base_colour (nth k ansi2cucul 0).
Proof.
  intros Hp Hk.
  do 8 (destruct k as [|k]; [cbn [nth ansi2cucul]; apply Hp|]). lia.
Qed.

Lemma promote_fg m :
  bold m <> 0 -> 0 <= fg m < 8 -> fg (promote m) = fg m + 8.
Proof.
  intros Hb Hfg. unfold promote.
  assert (Hnz : (bold m =? 0) = false) by now apply Z.eqb_neq.
  rewrite Hnz. destruct (Z.ltb_spec (fg m) 8); [|lia]. cbn [negb andb].
  change (bold (set_fg (fg m + 8) m)) with (bold m). rewrite Hnz.
  cbn [negb andb].
  destruct (bg (set_fg (fg m + 8) m) <? 8); cbn [fg set_fg set_bg];
    apply u8_small; lia.
Qed.

Lemma manage_modifiers_fg k m :
  0 <= k < 8 -> manage_modifiers (30 + k) m = set_fg (ansi2cucul_at k) m.
Proof.
  intros Hk. unfold manage_modifiers.
  destruct (Z.leb_spec 30 (30 + k)); [|lia].
  destruct (Z.leb_spec (30 + k) 37); [|lia]. cbn [andb].
  now replace (30 + k - 30) with k by lia.
Qed.

(** Whatever the numbering of the base colours, "bold, then a foreground
    colour" leaves the bright variant in [fg], and code 8 saves that. *)
Lemma bold_colour_is_stored_bright m k :
  palette_ok -> 0 <= k < 8 ->
  let m' := promote (manage_modifiers (30 + k) (manage_modifiers 1 m)) in
  fg m' = nth (Z.to_nat k) ansi2cucul 0 + 8
  /\ save_fg (manage_modifiers 8 m') = nth (Z.to_nat k) ansi2cucul 0 + 8.
Proof.
  intros Hp Hk m'.
  pose proof (ansi2cucul_base (Z.to_nat k) Hp ltac:(lia)) as Hbase.
  unfold base_colour in Hbase.
  assert (Hfg : fg m' = nth (Z.to_nat k) ansi2cucul 0 + 8).
  { subst m'. rewrite manage_modifiers_fg by assumption.
    rewrite promote_fg.
    - cbn [fg set_fg]. unfold ansi2cucul_at.
      rewrite (u8_small (nth _ _ _)) by lia. now rewrite u8_small by lia.
    - cbn. discriminate.
    - cbn [fg set_fg]. unfold ansi2cucul_at.
      rewrite (u8_small (nth _ _ _)) by lia. now rewrite u8_small by lia. }
  split; [exact Hfg|]. rewrite <- Hfg. reflexivity.
Qed.

(** ** Cursor movement *)

Lemma cursor_up_clamps s argc argv n :
  argc <> 0 -> argv !! 0 = Some n ->
  0 <= n < 2 ^ 31 -> 0 <= a_y s < 2 ^ 31 ->
  dispatch 65 argc argv s = Ok (with_xy (a_x s) (Z.max 0 (a_y s - n)) s).
Proof.
  intros Hargc Hn Hrange Hy. unfold dispatch, count_or_one, array_get.
  change (65 =? 102) with false. change (65 =? 72) with false.
  change (65 =? 65) with true. cbn [orb].
  destruct (Z.eqb_spec argc 0); [contradiction|]. cbn [negb]. rewrite Hn.
  cbn [bind]. rewrite (u32_small (a_y s)) by lia.
  assert (Hwrap : s32 (u32 (a_y s - n)) = a_y s - n).
  { unfold s32, u32. rewrite Zplus_mod_idemp_l. apply s32_small. lia. }
  rewrite Hwrap. do 2 f_equal.
  destruct (Z.ltb_spec (a_y s - n) 0); lia.
Qed.

Lemma cursor_left_clamps s argc argv n :
  argc <> 0 -> argv !! 0 = Some n ->
  0 <= n < 2 ^ 31 -> 0 <= a_x s < 2 ^ 31 ->
  dispatch 68 argc argv s = Ok (with_xy (Z.max 0 (a_x s - n)) (a_y s) s).
Proof.
  intros Hargc Hn Hrange Hx. unfold dispatch, count_or_one, array_get.
  change (68 =? 102) with false. change (68 =? 72) with false.
  change (68 =? 65) with false. change (68 =? 66) with false.
  change (68 =? 67) with false.
  change (68 =? 68) with true. cbn [orb].
  destruct (Z.eqb_spec argc 0); [contradiction|]. cbn [negb]. rewrite Hn.
  cbn [bind]. rewrite (u32_small (a_x s)) by lia.
  assert (Hwrap : s32 (u32 (a_x s - n)) = a_x s - n).
  { unfold s32, u32. rewrite Zplus_mod_idemp_l. apply s32_small. lia. }
  rewrite Hwrap. do 2 f_equal.
  destruct (Z.ltb_spec (a_x s - n) 0); lia.
Qed.

Lemma cursor_up_left_nonneg c s argc argv s' :
  dispatch c argc argv s = Ok s' ->
  (c = 65 -> 0 <= a_y s') /\ (c = 68 -> 0 <= a_x s').
Proof.
  intros Hd. split; intros ->; unfold dispatch in Hd.
  - change (65 =? 102) with false in Hd. change (65 =? 72) with false in Hd.
    change (65 =? 65) with true in Hd. cbn [orb] in Hd.
    bind_inv Hd n Hn. injection Hd as <-. cbn [a_y with_xy].
    destruct (Z.ltb_spec (s32 (u32 (u32 (a_y s) - n))) 0); lia.
  - change (68 =? 102) with false in Hd. change (68 =? 72) with false in Hd.
    change (68 =? 65) with false in Hd. change (68 =? 66) with false in Hd.
    change (68 =? 67) with false in Hd.
    change (68 =? 68) with true in Hd. cbn [orb] in Hd.
    bind_inv Hd n Hn. injection Hd as <-. cbn [a_x with_xy].
    destruct (Z.ltb_spec (s32 (u32 (u32 (a_x s) - n))) 0); lia.
Qed.

End Properties.

(** * More properties of [import.c] *)

Lemma tolower_idem c : tolower (tolower c) = tolower c.
Proof. destruct c as [[] [] [] [] [] [] [] []]; reflexivity. Qed.

Lemma lower_idem s : lower (lower s) = lower s.
Proof. induction s as [|c s IH]; cbn [lower]; [reflexivity|]. now rewrite tolower_idem, IH. Qed.

Lemma strcasecmp_eq_spec a : forall b,
  strcasecmp_eq a b = true <-> lower a = lower b.
Proof.
  induction a as [|c a IH]; intros [|d b]; cbn [strcasecmp_eq lower];
    try (split; [discriminate | discriminate]); [tauto|].
  rewrite andb_true_iff, bool_decide_eq_true, IH.
  split; [intros [-> ->]; reflexivity | intros [= -> ->]; tauto].
Qed.

Lemma strcasecmp_eq_lower a b :
  strcasecmp_eq a (lower b) = strcasecmp_eq a b.
Proof.
  destruct (strcasecmp_eq a b) eqn:Hab.
  - apply strcasecmp_eq_spec. rewrite lower_idem. now apply strcasecmp_eq_spec.
  - destruct (strcasecmp_eq a (lower b)) eqn:Hal; [|reflexivity].
    apply strcasecmp_eq_spec in Hal. rewrite lower_idem in Hal.
    apply strcasecmp_eq_spec in Hal. congruence.
Qed.

Section MoreProperties.
Context `{cucul_h}.

(** X1. The format name is matched without regard to case. *)
Theorem import_format_ignores_case data format :
  cucul_import_canvas data format = cucul_import_canvas data (lower format).
Proof.
  unfold cucul_import_canvas. now rewrite !strcasecmp_eq_lower.
Qed.

(** X2. An empty buffer, or a format that is none of the four names in
    any spelling of capitals, gives NULL. *)
Theorem import_rejects data format :
  data = [] \/ lower format ∉ ["caca"; "text"; "ansi"; ""]%string ->
  cucul_import_canvas data format = Ok None.
Proof.
  intros [-> | Hfmt]; [reflexivity|].
  unfold cucul_import_canvas. destruct (sizeof data =? 0); [reflexivity|].
  assert (Hno : forall name : string, name ∈ ["caca"; "text"; "ansi"; ""]%string ->
                        lower name = name -> strcasecmp_eq name format = false).
  { intros name Hin Hlow. destruct (strcasecmp_eq name format) eqn:Hn; [|reflexivity].
    apply strcasecmp_eq_spec in Hn. rewrite Hlow in Hn. rewrite <- Hn in Hfmt.
    contradiction. }
  rewrite !Hno by (reflexivity || set_solver). reflexivity.
Qed.

Lemma autodetect_Ok buf :
  0 < sizeof buf < 2 ^ 32 -> exists f, autodetect buf = Ok f.
Proof.
  intros Hsize. unfold autodetect.
  assert (Hcaca : exists g, (if 4 <=? sizeof buf then caca_guess buf else Ok false) = Ok g).
  { destruct (Z.leb_spec 4 (sizeof buf)) as [Hge|Hlt]; [|now eexists].
    destruct (caca_guess_spec buf Hge) as (g & Hg & _). now exists g. }
  destruct Hcaca as (g & ->). cbn [bind]. destruct g; [now eexists|].
  destruct (find_escape_spec buf (Z.to_nat (u32 (sizeof buf - 1))) 0)
    as (e & -> & _); [lia| rewrite u32_small by lia; lia | lia |].
  cbn [bind]. destruct e; now eexists.
Qed.

(** X3. Every format value that [cucul_get_import_list] announces
    selects the importer of its name: on a buffer that is not empty, "text"
    gives what [import_text] gives, "caca" what [import_caca] gives, "ansi"
    what [import_ansi] gives, and "" what the importer the autodetection
    picks gives. *)
Theorem import_list_is_accepted data format :
  0 < sizeof data < 2 ^ 32 ->
  format ∈ format_values cucul_get_import_list ->
  (format = ""%string
   /\ exists f, autodetect data = Ok f
                /\ cucul_import_canvas data format = run_importer f data)
  \/ (format = "text"%string /\ cucul_import_canvas data format = import_text data)
  \/ (format = "caca"%string /\ cucul_import_canvas data format = import_caca data)
  \/ (format = "ansi"%string /\ cucul_import_canvas data format = import_ansi data).
Proof.
  intros Hsize Hin. cbn in Hin.
  assert (Hnz : (sizeof data =? 0) = false) by (apply Z.eqb_neq; lia).
  unfold cucul_import_canvas. rewrite Hnz.
  repeat (apply elem_of_cons in Hin; destruct Hin as [-> | Hin]).
  - left. split; [reflexivity|]. cbn [strcasecmp_eq].
    destruct (autodetect_Ok data Hsize) as (f & Hf). exists f.
    split; [exact Hf|]. now rewrite Hf.
  - right. left. now split.
  - right. right. left. now split.
  - right. right. right. now split.
  - now apply elem_of_nil in Hin.
Qed.


(** ** The native decoder on a well-formed file *)

Lemma be32_in_range buf k :
  0 <= k -> k + 3 < sizeof buf -> exists v, be32 buf k = Ok v /\ 0 <= v.
Proof.
  intros Hk Hsize. unfold be32.
  destruct (getb_in_range buf k) as (b0 & _ & ->); [lia|].
  destruct (getb_in_range buf (k + 1)) as (b1 & _ & ->); [lia|].
  destruct (getb_in_range buf (k + 2)) as (b2 & _ & ->); [lia|].
  destruct (getb_in_range buf (k + 3)) as (b3 & _ & ->); [lia|].
  cbn [bind]. eexists. split; [reflexivity|].
  pose proof (byte_val_range b3).
  pose proof (u32_range (Z.shiftl (byte_val b0) 24)).
  pose proof (u32_range (Z.shiftl (byte_val b1) 16)).
  pose proof (u32_range (Z.shiftl (byte_val b2) 8)).
  repeat (apply Z.lor_nonneg; split); lia.
Qed.

Lemma be32_nonneg buf k v : be32 buf k = Ok v -> 0 <= v.
Proof.
  unfold be32. intros Hv.
  bind_inv Hv b0 H0. bind_inv Hv b1 H1. bind_inv Hv b2 H2. bind_inv Hv b3 H3.
  injection Hv as <-. apply getb_Ok in H3. destruct H3 as (_ & b & _ & ->).
  pose proof (byte_val_range b).
  pose proof (u32_range (Z.shiftl b0 24)).
  pose proof (u32_range (Z.shiftl b1 16)).
  pose proof (u32_range (Z.shiftl b2 8)).
  repeat (apply Z.lor_nonneg; split); lia.
Qed.

Lemma caca_cells_decodes buf n : forall cv,
  16 + 8 * Z.of_nat n <= sizeof buf ->
  exists cv', caca_cells buf n cv = Ok cv'
    /\ cv_width cv' = cv_width cv /\ cv_height cv' = cv_height cv
    /\ (forall k, 0 <= k < Z.of_nat n ->
          be32 buf (16 + 0 + 8 * k) = Ok (cv_chars cv' k)
          /\ be32 buf (16 + 4 + 8 * k) = Ok (cv_attr cv' k))
    /\ (forall k, Z.of_nat n <= k ->
          cv_chars cv' k = cv_chars cv k /\ cv_attr cv' k = cv_attr cv k).
Proof.
  induction n as [|n IH]; intros cv Hsize.
  - exists cv. repeat split; try reflexivity; intros; lia.
  - cbn [caca_cells].
    destruct (be32_in_range buf (16 + 0 + 8 * Z.of_nat n)) as (ch & Hch & _); [lia..|].
    destruct (be32_in_range buf (16 + 4 + 8 * Z.of_nat n)) as (at' & Hat & _); [lia..|].
    rewrite Hch, Hat. cbn [bind].
    destruct (IH (poke cv (Z.of_nat n) ch at')) as (cv' & Hcells & Hw & Hh & Hlow & Hhigh);
      [lia|].
    exists cv'. split; [exact Hcells|]. split; [exact Hw|]. split; [exact Hh|]. split.
    + intros k Hk. destruct (Z.eq_dec k (Z.of_nat n)) as [->|Hne].
      * destruct (Hhigh (Z.of_nat n)) as [-> ->]; [lia|].
        cbn [poke cv_chars cv_attr]. rewrite Z.eqb_refl. now split.
      * apply Hlow. lia.
    + intros k Hk. destruct (Hhigh k) as [-> ->]; [lia|].
      cbn [poke cv_chars cv_attr].
      destruct (Z.eqb_spec k (Z.of_nat n)); [lia|]. now split.
Qed.

(** X4. A file with the two signatures, non-zero dimensions and exactly
    16 + width * height * 8 bytes is decoded without any access outside the
    buffer: the canvas has the announced size and each cell holds the two
    big-endian words of its 8-byte record. *)
Theorem import_caca_decodes buf width height :
  take 8 buf = ["C"; "A"; "C"; "A"; "C"; "A"; "N"; "V"]%byte ->
  be32 buf 8 = Ok width -> be32 buf 12 = Ok height ->
  width <> 0 -> height <> 0 ->
  sizeof buf = 16 + width * height * 8 -> sizeof buf < 2 ^ 32 ->
  exists cv, import_caca buf = Ok (Some cv)
    /\ cv_width cv = width /\ cv_height cv = height
    /\ forall n, 0 <= n < width * height ->
         be32 buf (16 + 8 * n) = Ok (cv_chars cv n)
         /\ be32 buf (16 + 8 * n + 4) = Ok (cv_attr cv n).
Proof.
  intros Hmagic Hw Hh Hw0 Hh0 Hlen Hmax.
  pose proof (be32_nonneg _ _ _ Hw) as Hwpos.
  pose proof (be32_nonneg _ _ _ Hh) as Hhpos.
  assert (Hwh : 0 < width * height) by nia.
  unfold import_caca.
  destruct (Z.ltb_spec (sizeof buf) 16) as [Hlt|_]; [lia|].
  destruct buf as [|b0 [|b1 [|b2 [|b3 [|b4 [|b5 [|b6 [|b7 rest]]]]]]]];
    try discriminate.
  cbn [take] in Hmagic. injection Hmagic as -> -> -> -> -> -> -> ->.
  set (buf := ("C" :: "A" :: "C" :: "A" :: "C" :: "A" :: "N" :: "V" :: _)%byte) in *.
  change (is_magic buf 0 ["C"; "A"; "C"; "A"]%byte) with (Ok true).
  change (is_magic buf 4 ["C"; "A"; "N"; "V"]%byte) with (Ok true).
  cbn [bind negb]. rewrite Hw, Hh. cbn [bind].
  destruct (Z.eqb_spec width 0) as [|_]; [contradiction|].
  destruct (Z.eqb_spec height 0) as [|_]; [contradiction|]. cbn [orb].
  rewrite (u32_small (width * height)) by lia.
  rewrite (u32_small (width * height * 8)) by lia.
  rewrite u32_small by lia.
  destruct (Z.eqb_spec (sizeof buf) (16 + width * height * 8)) as [_|]; [|contradiction].
  cbn [negb]. unfold cucul_create_canvas.
  rewrite (Z.mul_comm height width), (u32_small (width * height)) by lia.
  destruct (caca_cells_decodes buf (Z.to_nat (width * height)) (blank_canvas width height))
    as (cv & -> & Hcw & Hch & Hcells & _); [lia|].
  cbn [bind]. exists cv. split; [reflexivity|].
  split; [exact Hcw|]. split; [exact Hch|].
  intros n Hn. destruct (Hcells n) as [Hc Ha]; [lia|].
  replace (16 + 8 * n) with (16 + 0 + 8 * n) by lia.
  replace (16 + 0 + 8 * n + 4) with (16 + 4 + 8 * n) by lia. now split.
Qed.

(** ** Cells of the canvas *)

Lemma cell_char_resize cv width height x y :
  0 <= x < width -> 0 <= y < height ->
  cell_char (cucul_set_canvas_size cv width height) x y
  = if in_canvas cv x y then cell_char cv x y else blank.
Proof.
  intros Hx Hy. unfold cell_char, cucul_set_canvas_size. cbn [cv_chars cv_width].
  assert (Hmod : (x + y * width) mod width = x)
    by (rewrite Z.mod_add by lia; apply Z.mod_small; lia).
  assert (Hdiv : (x + y * width) / width = y)
    by (rewrite Z.div_add by lia; rewrite Z.div_small by lia; lia).
  rewrite Hmod, Hdiv.
  destruct (Z.leb_spec 0 (x + y * width)); [|nia].
  destruct (Z.ltb_spec (x + y * width) (width * height)); [|nia].
  reflexivity.
Qed.

Lemma cell_char_putchar cv x0 y0 ch x y :
  in_canvas cv x0 y0 = true -> 0 <= x < cv_width cv ->
  cell_char (_cucul_putchar32 cv x0 y0 ch) x y
  = if (x =? x0) && (y =? y0) then ch else cell_char cv x y.
Proof.
  intros Hin Hx. unfold cell_char, _cucul_putchar32. rewrite Hin.
  cbn [cv_chars cv_width].
  unfold in_canvas in Hin. rewrite !andb_true_iff in Hin.
  destruct Hin as (((Hx0 & Hx1) & Hy0) & Hy1).
  apply Z.leb_le in Hx0, Hy0. apply Z.ltb_lt in Hx1, Hy1.
  destruct (Z.eqb_spec x x0) as [->|Hne]; cbn [andb].
  - destruct (Z.eqb_spec y y0) as [->|Hney].
    + now rewrite Z.eqb_refl.
    + destruct (Z.eqb_spec (x0 + y * cv_width cv) (x0 + y0 * cv_width cv));
        [nia|reflexivity].
  - destruct (Z.eqb_spec (x + y * cv_width cv) (x0 + y0 * cv_width cv)) as [Heq|];
      [|reflexivity].
    exfalso. apply Hne.
    assert (Hm : (x + y * cv_width cv) mod cv_width cv
                 = (x0 + y0 * cv_width cv) mod cv_width cv) by now rewrite Heq.
    rewrite !Z.mod_add, !Z.mod_small in Hm by lia. exact Hm.
Qed.

Lemma putchar_size cv x y ch :
  cv_width (_cucul_putchar32 cv x y ch) = cv_width cv
  /\ cv_height (_cucul_putchar32 cv x y ch) = cv_height cv.
Proof. unfold _cucul_putchar32. now destruct (in_canvas cv x y). Qed.

(** ** The lines of a text *)

Lemma max_len_snoc lines l :
  max_len (lines ++ [l]) = Z.max (max_len lines) (Z.of_nat (length l)).
Proof.
  induction lines as [|l0 lines IH]; cbn [app max_len]; [lia|].
  rewrite IH. lia.
Qed.

Lemma max_len_nonneg lines : 0 <= max_len lines.
Proof. induction lines as [|l lines IH]; cbn [max_len]; lia. Qed.

Lemma used_rows_range lines : 0 <= used_rows lines <= Z.of_nat (length lines).
Proof.
  induction lines as [|l lines IH]; cbn [used_rows length]; [lia|].
  destruct (used_rows lines =? 0); [|lia].
  destruct (Z.of_nat (length l) =? 0); lia.
Qed.

Lemma used_rows_snoc lines l :
  used_rows (lines ++ [l])
  = if Z.of_nat (length l) =? 0 then used_rows lines
    else Z.of_nat (length lines) + 1.
Proof.
  induction lines as [|l0 lines IH]; cbn [app used_rows length].
  - destruct (Z.of_nat (length l) =? 0); reflexivity.
  - rewrite IH. destruct (Z.eqb_spec (Z.of_nat (length l)) 0) as [Hl|Hl].
    + reflexivity.
    + destruct (Z.eqb_spec (Z.of_nat (length lines) + 1) 0); lia.
Qed.

Lemma line_char_wide lines x y :
  max_len lines <= x -> line_char lines x y = blank.
Proof.
  intros Hx. unfold line_char.
  assert (Hlen : forall l, In l lines -> Z.of_nat (length l) <= x).
  { clear y. induction lines as [|l0 lines IH]; intros l Hin; [contradiction|].
    cbn [max_len] in Hx. destruct Hin as [->|Hin]; [lia|]. apply IH; [lia|assumption]. }
  destruct (Nat.lt_ge_cases (Z.to_nat y) (length lines)) as [Hy|Hy].
  - apply nth_overflow. pose proof (Hlen _ (nth_In lines [] Hy)).
    pose proof (max_len_nonneg lines). lia.
  - rewrite (nth_overflow lines) by assumption. now destruct (Z.to_nat x).
Qed.

Lemma line_char_below lines x y :
  0 <= y -> used_rows lines <= y -> line_char lines x y = blank.
Proof.
  unfold line_char. revert y.
  induction lines as [|l lines IH]; intros y Hy0 Hy.
  - destruct (Z.to_nat y), (Z.to_nat x); reflexivity.
  - cbn [used_rows] in Hy. pose proof (used_rows_range lines) as Hr.
    destruct (Z.eq_dec y 0) as [->|Hne].
    + cbn [Z.to_nat nth].
      destruct (Z.eqb_spec (used_rows lines) 0) as [H0|H0]; [|lia].
      destruct (Z.eqb_spec (Z.of_nat (length l)) 0) as [Hl|Hl]; [|lia].
      destruct l; [now destruct (Z.to_nat x) | discriminate].
    + replace (Z.to_nat y) with (S (Z.to_nat (y - 1))) by lia. cbn [nth].
      apply IH; [lia|].
      destruct (Z.eqb_spec (used_rows lines) 0) as [H0|H0]; [lia|lia].
Qed.

Lemma line_char_snoc_nil lines x y :
  line_char (lines ++ [[]]) x y = line_char lines x y.
Proof.
  unfold line_char.
  destruct (Nat.lt_ge_cases (Z.to_nat y) (length lines)) as [Hy|Hy].
  - now rewrite app_nth1.
  - rewrite (nth_overflow lines) by assumption.
    rewrite app_nth2 by assumption.
    destruct (Z.to_nat y - length lines)%nat as [|[|k]], (Z.to_nat x); reflexivity.
Qed.

Lemma line_char_extend done cur c x y :
  0 <= x -> 0 <= y ->
  line_char (done ++ [cur ++ [c]]) x y
  = if (x =? Z.of_nat (length cur)) && (y =? Z.of_nat (length done)) then c
    else line_char (done ++ [cur]) x y.
Proof.
  intros Hx Hy. unfold line_char.
  destruct (Nat.lt_ge_cases (Z.to_nat y) (length done)) as [Hlt|Hge].
  - rewrite !app_nth1 by assumption.
    destruct (Z.eqb_spec y (Z.of_nat (length done))); [lia|].
    now rewrite andb_false_r.
  - rewrite !app_nth2 by assumption.
    destruct (Z.eqb_spec y (Z.of_nat (length done))) as [->|Hne].
    + rewrite Nat2Z.id, Nat.sub_diag. cbn [nth]. rewrite andb_true_r.
      destruct (Z.eqb_spec x (Z.of_nat (length cur))) as [->|Hnx].
      * rewrite Nat2Z.id, app_nth2, Nat.sub_diag by lia. reflexivity.
      * destruct (Nat.lt_ge_cases (Z.to_nat x) (length cur)) as [Hxl|Hxg].
        -- now rewrite app_nth1.
        -- rewrite !nth_overflow; [reflexivity| lia |].
           rewrite length_app. cbn [length]. lia.
    + rewrite andb_false_r.
      destruct (Z.to_nat y - length done)%nat as [|k] eqn:Hk; [lia|].
      now destruct k.
Qed.

(** ** The text decoder lays the lines out as rows *)

Lemma text_step_cr s : text_step s 13 = s.
Proof. reflexivity. Qed.

Lemma text_step_inv st s n c :
  n < 2 ^ 31 - 1 -> text_inv st s n ->
  text_inv (feed_line st c) (text_step s c) (n + 1).
Proof.
  intros Hn (Hx & Hy & Hxy & Hw & Hh & Hcw & Hch & Hcells).
  destruct st as [done cur]. cbn [fst snd] in *.
  unfold feed_line, text_step.
  destruct (Z.eqb_spec c 13) as [_|_].
  { unfold text_inv. cbn [fst snd]. repeat split; try assumption. lia. }
  destruct (Z.eqb_spec c 10) as [_|_].
  - unfold text_inv. cbn [fst snd t_x t_y t_width t_height t_cv length].
    rewrite max_len_snoc, used_rows_snoc. cbn [length Z.of_nat Z.eqb].
    pose proof (max_len_nonneg (done ++ [cur])).
    rewrite length_app. cbn [length].
    rewrite u32_small by lia.
    repeat split; try assumption; try lia.
    intros x y Hx' Hy'. rewrite line_char_snoc_nil. now apply Hcells.
  - pose proof (used_rows_range (done ++ [cur])) as Hrows.
    rewrite length_app in Hrows. cbn [length] in Hrows.
    pose proof (max_len_nonneg done) as Hmld.
    assert (Hml : max_len (done ++ [cur]) = Z.max (max_len done) (Z.of_nat (length cur)))
      by apply max_len_snoc.
    set (W' := if t_width s <=? t_x s then u32 (t_x s + 1) else t_width s).
    set (H' := if t_height s <=? t_y s then u32 (t_y s + 1) else t_height s).
    assert (HW' : W' = Z.max 1 (max_len (done ++ [cur ++ [c]]))).
    { subst W'. rewrite max_len_snoc, length_app. cbn [length].
      destruct (Z.leb_spec (t_width s) (t_x s)); [rewrite u32_small by lia|]; lia. }
    assert (HH' : H' = Z.max 1 (used_rows (done ++ [cur ++ [c]]))).
    { subst H'. rewrite used_rows_snoc, length_app. cbn [length].
      destruct (Z.eqb_spec (Z.of_nat (length cur + 1)) 0); [lia|].
      destruct (Z.leb_spec (t_height s) (t_y s)); [rewrite u32_small by lia|]; lia. }
    assert (HWge : t_width s <= W' /\ t_x s < W')
      by (subst W'; destruct (Z.leb_spec (t_width s) (t_x s));
          [rewrite u32_small by lia|]; lia).
    assert (HHge : t_height s <= H' /\ t_y s < H')
      by (subst H'; destruct (Z.leb_spec (t_height s) (t_y s));
          [rewrite u32_small by lia|]; lia).
    set (cv1 := if (t_width s <=? t_x s) || (t_height s <=? t_y s)
                then cucul_set_canvas_size (t_cv s) W' H' else t_cv s).
    assert (Hcv1 : cv_width cv1 = W' /\ cv_height cv1 = H'
                   /\ forall x y, 0 <= x < W' -> 0 <= y < H' ->
                        cell_char cv1 x y = line_char (done ++ [cur]) x y).
    { subst cv1.
      destruct ((t_width s <=? t_x s) || (t_height s <=? t_y s)) eqn:Hgrow.
      - split; [reflexivity|]. split; [reflexivity|]. intros x y Hx' Hy'.
        rewrite cell_char_resize by assumption. unfold in_canvas.
        rewrite Hcw, Hch.
        destruct (Z.leb_spec 0 x); [|lia]. destruct (Z.leb_spec 0 y); [|lia].
        destruct (Z.ltb_spec x (t_width s)); cbn [andb].
        + destruct (Z.ltb_spec y (t_height s)).
          * apply Hcells; lia.
          * symmetry. apply line_char_below; lia.
        + symmetry. apply line_char_wide. lia.
      - apply orb_false_iff in Hgrow. destruct Hgrow as [Hgw Hgh].
        subst W' H'. rewrite Hgw, Hgh. split; [assumption|]. split; [assumption|].
        intros x y Hx' Hy'. now apply Hcells. }
    destruct Hcv1 as (Hcw1 & Hch1 & Hcells1).
    rewrite (s32_small (t_x s)), (s32_small (t_y s)) by lia.
    assert (Hin : in_canvas cv1 (t_x s) (t_y s) = true).
    { unfold in_canvas. rewrite Hcw1, Hch1.
      destruct (Z.leb_spec 0 (t_x s)); [|lia]. destruct (Z.ltb_spec (t_x s) W'); [|lia].
      destruct (Z.leb_spec 0 (t_y s)); [|lia]. destruct (Z.ltb_spec (t_y s) H'); [|lia].
      reflexivity. }
    unfold text_inv. cbn [fst snd t_x t_y t_width t_height t_cv].
    fold W' H' cv1. unfold cucul_putchar.
    destruct (putchar_size cv1 (t_x s) (t_y s) c) as [Hpw Hph].
    rewrite length_app. cbn [length]. rewrite u32_small by lia.
    split; [lia|]. split; [assumption|]. split; [lia|].
    split; [assumption|]. split; [assumption|].
    split; [congruence|]. split; [congruence|].
    intros x y Hx' Hy'.
    rewrite cell_char_putchar by (assumption || lia).
    rewrite line_char_extend by lia. rewrite <- Hx, <- Hy.
    destruct ((x =? t_x s) && (y =? t_y s)); [reflexivity|].
    now apply Hcells1.
Qed.

Lemma text_fold_inv text : forall st s n,
  n + Z.of_nat (length text) < 2 ^ 31 -> text_inv st s n ->
  text_inv (fold_left feed_line text st) (fold_left text_step text s)
           (n + Z.of_nat (length text)).
Proof.
  induction text as [|c text IH]; intros st s n Hn Hinv.
  - cbn [fold_left length]. now rewrite Z.add_0_r.
  - cbn [fold_left length] in *.
    replace (n + Z.of_nat (S (length text))) with (n + 1 + Z.of_nat (length text)) by lia.
    apply IH; [lia|]. apply text_step_inv; [lia|assumption].
Qed.

(** X5. [import_text] lays the lines of the text out as the rows of the
    canvas: the canvas is as wide as the longest line and as tall as the
    last line that is not empty (one by one at least), each cell holds the
    byte its line has in that column, and is blank where the line is
    shorter. Carriage returns appear nowhere. *)
Theorem import_text_rows text :
  sizeof text < 2 ^ 31 ->
  exists cv, import_text text = Ok (Some cv)
    /\ cv_width cv = Z.max 1 (max_len (text_lines (map byte_val text)))
    /\ cv_height cv = Z.max 1 (used_rows (text_lines (map byte_val text)))
    /\ forall x y, 0 <= x < cv_width cv -> 0 <= y < cv_height cv ->
         cell_char cv x y = line_char (text_lines (map byte_val text)) x y.
Proof.
  intros Hsize. unfold import_text, cucul_create_canvas.
  eexists. split; [reflexivity|].
  set (s0 := {| t_cv := cucul_set_color (blank_canvas 1 1) CUCUL_COLOR_DEFAULT
                                        CUCUL_COLOR_TRANSPARENT;
                t_width := 1; t_height := 1; t_x := 0; t_y := 0 |}).
  assert (Hinit : text_inv ([], []) s0 0).
  { unfold text_inv. cbn. repeat split; try lia.
    intros x y Hx Hy. assert (x = 0) as -> by lia. assert (y = 0) as -> by lia.
    reflexivity. }
  pose proof (text_fold_inv (map byte_val text) ([], []) s0 0) as Hfin.
  rewrite length_map in Hfin. unfold sizeof in Hsize.
  specialize (Hfin ltac:(lia) Hinit).
  destruct Hfin as (_ & _ & _ & Hw & Hh & Hcw & Hch & Hcells).
  unfold text_lines. rewrite Hcw, Hch, <- Hw, <- Hh.
  split; [reflexivity|]. split; [reflexivity|]. exact Hcells.
Qed.

(** X6. Carriage returns are dropped: a text and the same text without
    its carriage returns give the same canvas. *)
Theorem import_text_ignores_cr text :
  import_text (List.filter (fun b => negb (byte_val b =? 13)) text)
  = import_text text.
Proof.
  unfold import_text. destruct (cucul_create_canvas 1 1) as [cv|]; [|reflexivity].
  do 3 f_equal.
  generalize ({| t_cv := cucul_set_color cv CUCUL_COLOR_DEFAULT CUCUL_COLOR_TRANSPARENT;
                 t_width := 1; t_height := 1; t_x := 0; t_y := 0 |}).
  induction text as [|b text IH]; intros s; [reflexivity|].
  cbn [List.filter map fold_left].
  destruct (Z.eqb_spec (byte_val b) 13) as [Hcr|Hcr]; cbn [negb].
  - rewrite Hcr, text_step_cr. apply IH.
  - cbn [map fold_left]. apply IH.
Qed.

(** ** The tuple parser on numbers *)

Lemma digits_fold ds : forall acc,
  Forall (fun b => 48 <= byte_val b <= 57) ds ->
  digits acc (map byte_val ds)
  = fold_left (fun a b => a * 10 + (byte_val b - 48)) ds acc.
Proof.
  induction ds as [|b ds IH]; intros acc Hds; [reflexivity|].
  apply Forall_cons in Hds. destruct Hds as [Hb Hds].
  cbn [map digits fold_left].
  destruct (Z.leb_spec 48 (byte_val b)); [|lia].
  destruct (Z.leb_spec (byte_val b) 57); [|lia]. cbn [andb]. now apply IH.
Qed.

Lemma atoi_number ds :
  is_number ds -> decimal ds < 2 ^ 31 ->
  atoi (map byte_val ds) = Ok (decimal ds).
Proof.
  intros [Hne Hds] Hmax. destruct ds as [|b ds]; [contradiction|].
  pose proof Hds as Hall. apply Forall_cons in Hds. destruct Hds as [Hb _].
  assert (Hval : digits 0 (map byte_val (b :: ds)) = decimal (b :: ds))
    by now apply digits_fold.
  assert (Hpos : 0 <= decimal (b :: ds)).
  { unfold decimal. clear Hmax Hval Hne Hb.
    assert (Hgen : forall l acc, Forall (fun b => 48 <= byte_val b <= 57) l -> 0 <= acc ->
               0 <= fold_left (fun a b => a * 10 + (byte_val b - 48)) l acc).
    { induction l as [|c l IH]; intros acc Hl Hacc; [exact Hacc|].
      apply Forall_cons in Hl. destruct Hl as [Hc Hl]. cbn [fold_left].
      apply IH; [assumption|lia]. }
    apply Hgen; [assumption|lia]. }
  cbn [map] in Hval. unfold atoi. cbn [map skip_spaces].
  assert (Hsp : isspace (byte_val b) = false).
  { unfold isspace. destruct (Z.eqb_spec (byte_val b) 32); [lia|].
    destruct (Z.leb_spec 9 (byte_val b)); [|reflexivity].
    destruct (Z.leb_spec (byte_val b) 13); [lia|reflexivity]. }
  rewrite Hsp. clear Hsp.
  assert (Hcases : byte_val b = 48 \/ byte_val b = 49 \/ byte_val b = 50
                   \/ byte_val b = 51 \/ byte_val b = 52 \/ byte_val b = 53
                   \/ byte_val b = 54 \/ byte_val b = 55 \/ byte_val b = 56
                   \/ byte_val b = 57) by lia.
  remember (byte_val b) as d eqn:Hd. clear Hd Hb.
  assert (Hgoal : (if (- 2 ^ 31 <=? decimal (b :: ds)) && (decimal (b :: ds) <? 2 ^ 31)
                   then Ok (decimal (b :: ds)) else Fault AtoiRange)
                  = Ok (decimal (b :: ds))).
  { destruct (Z.leb_spec (- 2 ^ 31) (decimal (b :: ds))); [|lia].
    destruct (Z.ltb_spec (decimal (b :: ds)) (2 ^ 31)); [|lia]. reflexivity. }
  repeat (destruct Hcases as [-> | Hcases]; [cbv iota; rewrite Hval; exact Hgoal|]).
  subst d. cbv iota. rewrite Hval. exact Hgoal.
Qed.

Lemma array_written_lookup vs stop : forall a j k,
  array_written a j vs stop !! k
  = if (j <=? k) && (k <? j + Z.of_nat (length vs))
    then vs !! Z.to_nat (k - j)
    else if (k =? j + Z.of_nat (length vs)) && negb (Nat.eqb (length vs) 0)
         then Some stop else a !! k.
Proof.
  induction vs as [|v vs IH]; intros a j k.
  - cbn [array_written length Nat.eqb negb]. rewrite andb_false_r.
    destruct (Z.leb_spec j k), (Z.ltb_spec k (j + Z.of_nat 0)); try lia; reflexivity.
  - cbn [array_written length Nat.eqb negb]. rewrite IH, andb_true_r.
    destruct (Z.leb_spec (j + 1) k) as [Hk1|Hk1];
      destruct (Z.ltb_spec k (j + 1 + Z.of_nat (length vs))) as [Hk2|Hk2];
      destruct (Z.leb_spec j k) as [Hk3|Hk3];
      destruct (Z.ltb_spec k (j + Z.of_nat (S (length vs)))) as [Hk4|Hk4];
      try lia; cbn [andb].
    + replace (Z.to_nat (k - j)) with (S (Z.to_nat (k - (j + 1)))) by lia.
      reflexivity.
    + destruct (Z.eqb_spec k (j + 1 + Z.of_nat (length vs))) as [Hk5|Hk5];
        destruct (Z.eqb_spec k (j + Z.of_nat (S (length vs)))) as [Hk6|Hk6];
        try lia; cbn [andb].
      * destruct (length vs) eqn:Hlen; cbn [Nat.eqb negb]; [|reflexivity].
        replace k with (j + 1) by lia. now rewrite lookup_insert_eq.
      * rewrite !lookup_insert_ne by lia. reflexivity.
    + assert (k = j) as -> by lia. rewrite Z.sub_diag.
      cbn [Z.to_nat lookup list_lookup].
      destruct (Z.eqb_spec j (j + 1 + Z.of_nat (length vs))); [lia|]. cbn [andb].
      rewrite lookup_insert_ne by lia. now rewrite lookup_insert_eq.
    + destruct (Z.eqb_spec k (j + 1 + Z.of_nat (length vs))); [lia|].
      destruct (Z.eqb_spec k (j + Z.of_nat (S (length vs)))); [lia|]. cbn [andb].
      rewrite !lookup_insert_ne by lia. reflexivity.
Qed.

(** The string [atoi] is given once a number was copied to [nbr]. *)
Lemma c_string_written nbr (vs : list Z) fuel : forall k,
  Forall (fun v => v <> 0) vs -> vs <> [] ->
  (k <= length vs)%nat -> (length vs - k < fuel)%nat ->
  c_string fuel (array_written nbr 0 vs 0) (Z.of_nat k) = Ok (drop k vs).
Proof.
  induction fuel as [|fuel IH]; intros k Hnz Hne Hk Hfuel; [lia|].
  cbn [c_string]. unfold array_get. rewrite array_written_lookup.
  destruct (Z.leb_spec 0 (Z.of_nat k)); [|lia]. cbn [andb].
  destruct (Z.ltb_spec (Z.of_nat k) (0 + Z.of_nat (length vs))) as [Hlt|Hge].
  - rewrite Z.sub_0_r, Nat2Z.id.
    destruct (vs !! k) as [v|] eqn:Hv; [|apply lookup_ge_None in Hv; lia].
    cbn [bind].
    assert (v <> 0)
      by (eapply (proj1 (Forall_forall _ _) Hnz), list_elem_of_lookup_2; eassumption).
    destruct (Z.eqb_spec v 0); [contradiction|].
    replace (Z.of_nat k + 1) with (Z.of_nat (S k)) by lia.
    rewrite IH by (assumption || lia). cbn [bind].
    now rewrite (drop_S _ _ _ Hv).
  - assert (k = length vs) as -> by lia.
    destruct (Z.eqb_spec (Z.of_nat (length vs)) (0 + Z.of_nat (length vs))); [|lia].
    rewrite drop_all.
    destruct vs; [contradiction|]. cbn [length Nat.eqb negb andb bind].
    now rewrite Z.eqb_refl.
Qed.

Lemma digit_not_special v :
  48 <= v <= 57 -> IS_ALPHA v = false /\ (v =? 59) = false /\ v <> 0.
Proof.
  intros Hv. unfold IS_ALPHA.
  destruct (Z.leb_spec 65 v); [lia|]. destruct (Z.eqb_spec v 59); [lia|].
  repeat split. lia.
Qed.

(** The digits of a number are copied to [nbr]. *)
Lemma parse_tuple_loop_digits ds : forall pre rest n size j t nbr ret,
  Forall (fun b => 48 <= byte_val b <= 57) ds ->
  0 <= j -> j + Z.of_nat (length ds) <= 1023 ->
  parse_tuple_loop (length ds + n) (pre ++ ds ++ rest) size
                   (Z.of_nat (length pre)) j t nbr ret
  = parse_tuple_loop n (pre ++ ds ++ rest) size
                     (Z.of_nat (length pre) + Z.of_nat (length ds))
                     (j + Z.of_nat (length ds)) t
                     (array_written nbr j (map byte_val ds) 0) ret.
Proof.
  induction ds as [|b ds IH]; intros pre rest n size j t nbr ret Hds Hj Hmax.
  - cbn [length Nat.add map array_written]. now rewrite !Z.add_0_r.
  - apply Forall_cons in Hds. destruct Hds as [Hb Hds].
    destruct (digit_not_special _ Hb) as (Halpha & Hsemi & _).
    cbn [length Nat.add parse_tuple_loop app].
    rewrite getb_middle. cbn [bind]. rewrite Halpha, Hsemi. cbn [negb].
    unfold array_set.
    destruct (Z.leb_spec 0 j); [|lia]. destruct (Z.ltb_spec j 1024); [|cbn [length] in Hmax; lia].
    cbn [andb bind].
    destruct (Z.leb_spec 0 (j + 1)); [|lia].
    destruct (Z.ltb_spec (j + 1) 1024); [|cbn [length] in Hmax; lia].
    cbn [andb bind].
    specialize (IH (pre ++ [b]) rest n size (j + 1) t
                   (<[j + 1 := 0]> (<[j := byte_val b]> nbr)) ret Hds).
    rewrite <- !app_assoc in IH. cbn [app] in IH.
    rewrite length_app in IH. cbn [length] in IH.
    replace (Z.of_nat (length pre + 1)) with (Z.of_nat (length pre) + 1) in IH by lia.
    rewrite IH by (cbn [length] in Hmax; lia).
    cbn [map array_written]. f_equal; lia.
Qed.

(** [ret[t] = atoi(nbr)] once the number [ds] was copied to [nbr]. *)
Lemma store_number_written ret nbr ds t :
  is_number ds -> decimal ds < 2 ^ 31 -> Z.of_nat (length ds) <= 1023 ->
  0 <= t < 1024 ->
  store_number ret (array_written nbr 0 (map byte_val ds) 0) t
  = Ok (<[t := decimal ds]> ret).
Proof.
  intros Hnum Hval Hlen Ht. unfold store_number.
  destruct Hnum as [Hne Hds].
  pose proof (c_string_written nbr (map byte_val ds) 1024 0) as Hstr.
  change (Z.of_nat 0) with 0 in Hstr. rewrite Hstr.
  - rewrite drop_0. cbn [bind]. rewrite atoi_number by (assumption || now split).
    cbn [bind]. unfold array_set.
    destruct (Z.leb_spec 0 t); [|lia]. destruct (Z.ltb_spec t 1024); [|lia].
    cbn [andb]. rewrite u32_small; [reflexivity|].
    assert (Hgen : forall l acc, Forall (fun b => 48 <= byte_val b <= 57) l -> 0 <= acc ->
               0 <= fold_left (fun a b => a * 10 + (byte_val b - 48)) l acc).
    { induction l as [|c l IH]; intros acc Hl Hacc; [exact Hacc|].
      apply Forall_cons in Hl. destruct Hl as [Hc Hl]. cbn [fold_left].
      apply IH; [assumption|lia]. }
    specialize (Hgen ds 0 Hds ltac:(lia)). fold (decimal ds) in Hgen. lia.
  - apply Forall_map. eapply Forall_impl; [exact Hds|]. cbn. intros b Hb. lia.
  - destruct ds; [contradiction|discriminate].
  - lia.
  - rewrite length_map. lia.
Qed.

Lemma parse_tuple_loop_numbers nums : forall pre final rest n size t nbr ret,
  nums <> [] -> Forall good_number nums ->
  0 <= t -> t + Z.of_nat (length nums) <= 1023 ->
  IS_ALPHA (byte_val final) = true ->
  (length (tuple_bytes nums) < n)%nat ->
  parse_tuple_loop n (pre ++ tuple_bytes nums ++ final :: rest) size
                   (Z.of_nat (length pre)) 0 t nbr ret
  = Ok (Z.of_nat (length pre) + Z.of_nat (length (tuple_bytes nums)),
        array_written ret t (map decimal nums) END_ARG).
Proof.
  induction nums as [|ds nums IH]; intros pre final rest n size t nbr ret
                                          Hne Hgood Ht Hmax Halpha Hn;
    [contradiction|].
  apply Forall_cons in Hgood. destruct Hgood as [(Hnum & Hval & Hlen) Hgood].
  pose proof Hnum as [Hdne Hds].
  assert (Hjnz : (0 + Z.of_nat (length ds) =? 0) = false).
  { apply Z.eqb_neq. destruct ds; [contradiction|]. cbn [length]. lia. }
  cbn [length] in Hmax.
  destruct nums as [|ds' nums].
  - cbn [tuple_bytes map array_written] in *.
    destruct n as [|n]; [lia|].
    replace (S n) with (length ds + S (n - length ds))%nat by lia.
    rewrite parse_tuple_loop_digits by (assumption || lia).
    cbn [parse_tuple_loop].
    replace (Z.of_nat (length pre) + Z.of_nat (length ds))
      with (Z.of_nat (length (pre ++ ds))) by (rewrite length_app; lia).
    rewrite app_assoc, getb_middle. cbn [bind]. rewrite Halpha, Hjnz. cbn [negb].
    rewrite store_number_written by (assumption || lia). cbn [bind fst snd].
    unfold array_set.
    destruct (Z.leb_spec 0 (t + 1)); [|lia]. destruct (Z.ltb_spec (t + 1) 1024); [|lia].
    cbn [andb bind]. reflexivity.
  - assert (Htuple : tuple_bytes (ds :: ds' :: nums)
                     = ds ++ ";"%byte :: tuple_bytes (ds' :: nums)) by reflexivity.
    rewrite Htuple in *. clear Htuple.
    rewrite length_app in Hn. cbn [length] in Hn.
    replace n with (length ds + S (n - length ds - 1))%nat by lia.
    rewrite <- (app_assoc ds), parse_tuple_loop_digits by (assumption || lia).
    cbn [parse_tuple_loop].
    replace (Z.of_nat (length pre) + Z.of_nat (length ds))
      with (Z.of_nat (length (pre ++ ds))) by (rewrite length_app; lia).
    rewrite app_assoc. cbn [app]. rewrite getb_middle. cbn [bind].
    change (IS_ALPHA (byte_val ";")) with false.
    change (byte_val ";" =? 59) with true. cbn [negb].
    rewrite store_number_written by (assumption || lia). cbn [bind].
    unfold array_set.
    destruct (Z.leb_spec 0 (t + 1)); [|lia]. destruct (Z.ltb_spec (t + 1) 1024); [|lia].
    cbn [andb bind].
    specialize (IH ((pre ++ ds) ++ [";"%byte]) final rest (n - length ds - 1)%nat size
                   (t + 1) (array_written nbr 0 (map byte_val ds) 0)
                   (<[t + 1 := END_ARG]> (<[t := decimal ds]> ret))).
    rewrite <- (app_assoc (pre ++ ds)) in IH. cbn [app] in IH.
    replace (Z.of_nat (length (pre ++ ds)) + 1)
      with (Z.of_nat (length ((pre ++ ds) ++ [";"%byte])))
      by (rewrite !length_app; cbn [length]; lia).
    rewrite IH; [|discriminate|assumption|lia|cbn [length] in *; lia|assumption|lia].
    cbn [map array_written]. rewrite !length_app. cbn [length].
    do 2 f_equal. lia.
Qed.

Lemma count_args_counts argv k fuel : forall i,
  0 <= i <= k -> k < 2 ^ 32 -> (Z.to_nat (k - i) < fuel)%nat ->
  (forall j, i <= j < k -> exists v, argv !! j = Some v /\ v <> END_ARG) ->
  argv !! k = Some END_ARG ->
  count_args fuel argv i = Ok k.
Proof.
  induction fuel as [|fuel IH]; intros i Hi Hk Hfuel Hvals Hend; [lia|].
  cbn [count_args]. unfold array_get.
  destruct (Z.eq_dec i k) as [->|Hne].
  - rewrite Hend. cbn [bind]. now rewrite Z.eqb_refl.
  - destruct (Hvals i) as (v & -> & Hv); [lia|]. cbn [bind].
    destruct (Z.eqb_spec v END_ARG); [contradiction|].
    rewrite u32_small by lia. apply IH; try assumption; try lia.
    intros j Hj. apply Hvals. lia.
Qed.

(** [ret] after [parse_tuple] stored the values of [nums]. *)
Lemma argv_written_values nums argv :
  argv = array_written (<[0 := END_ARG]> ∅) 0 (map decimal nums) END_ARG ->
  (forall k ds, nums !! k = Some ds -> argv !! Z.of_nat k = Some (decimal ds))
  /\ argv !! Z.of_nat (length nums) = Some END_ARG.
Proof.
  intros ->. split.
  - intros k ds Hk. rewrite array_written_lookup, length_map.
    pose proof (lookup_lt_Some _ _ _ Hk).
    destruct (Z.leb_spec 0 (Z.of_nat k)); [|lia].
    destruct (Z.ltb_spec (Z.of_nat k) (0 + Z.of_nat (length nums))); [|lia].
    cbn [andb]. rewrite Z.sub_0_r, Nat2Z.id, list_lookup_fmap, Hk. reflexivity.
  - rewrite array_written_lookup, length_map.
    destruct (Z.ltb_spec (Z.of_nat (length nums)) (0 + Z.of_nat (length nums))); [lia|].
    rewrite andb_false_r.
    destruct (Z.eqb_spec (Z.of_nat (length nums)) (0 + Z.of_nat (length nums))); [|lia].
    destruct nums; cbn [length Nat.eqb negb andb]; [|reflexivity].
    now rewrite lookup_insert_eq.
Qed.

Lemma argv_written_count nums argv :
  Z.of_nat (length nums) <= 1023 ->
  (forall k ds, nums !! k = Some ds -> argv !! Z.of_nat k = Some (decimal ds)) ->
  argv !! Z.of_nat (length nums) = Some END_ARG ->
  Forall (fun ds => decimal ds <> END_ARG) nums ->
  count_args 1024 argv 0 = Ok (Z.of_nat (length nums)).
Proof.
  intros Hmax Hvals Hend Hno. apply count_args_counts; try assumption; try lia.
  intros j Hj. destruct (nums !! Z.to_nat j) as [ds|] eqn:Hds;
    [|apply lookup_ge_None in Hds; lia].
  exists (decimal ds). split.
  - rewrite <- (Hvals _ _ Hds). f_equal. lia.
  - eapply (proj1 (Forall_forall _ _) Hno), list_elem_of_lookup_2. eassumption.
Qed.

Lemma parse_tuple_written nums final rest size :
  Forall good_number nums -> Z.of_nat (length nums) <= 1023 ->
  IS_ALPHA (byte_val final) = true ->
  sizeof (tuple_bytes nums) < size ->
  parse_tuple (tuple_bytes nums ++ final :: rest) size
  = Ok (sizeof (tuple_bytes nums),
        array_written (<[0 := END_ARG]> ∅) 0 (map decimal nums) END_ARG).
Proof.
  intros Hgood Hmax Halpha Hsize.
  destruct nums as [|ds nums].
  - cbn [tuple_bytes app]. rewrite parse_tuple_empty
      by (assumption || (unfold sizeof in Hsize; cbn in Hsize; lia)).
    cbn [map array_written]. now rewrite insert_insert_eq.
  - unfold parse_tuple.
    change (array_set ArgvOverflow ∅ 0 END_ARG)
      with (Ok (<[0 := END_ARG]> (∅ : gmap Z Z))).
    cbn [bind].
    pose proof (parse_tuple_loop_numbers (ds :: nums) [] final rest (Z.to_nat size)
                  size 0 ∅ (<[0 := END_ARG]> ∅)) as Hloop.
    cbn [app length] in Hloop. change (Z.of_nat 0) with 0 in Hloop.
    rewrite Z.add_0_l in Hloop.
    cbn [length] in Hmax.
    rewrite Hloop; [reflexivity|discriminate|assumption|lia|lia|assumption|
                    unfold sizeof in Hsize; lia].
Qed.

(** X7. [parse_tuple] on numbers written with semicolons between them and
    a final byte after them returns the length of what precedes the final
    byte and leaves in [ret] the value of each number, in order, then
    [END_ARG]; and the caller's count of arguments is the number of values
    when none of them equals [END_ARG]. *)
Theorem parse_tuple_numbers nums final rest size :
  Forall good_number nums -> Z.of_nat (length nums) <= 1023 ->
  IS_ALPHA (byte_val final) = true ->
  sizeof (tuple_bytes nums) < size ->
  exists argv,
    parse_tuple (tuple_bytes nums ++ final :: rest) size
    = Ok (sizeof (tuple_bytes nums), argv)
    /\ (forall k ds, nums !! k = Some ds -> argv !! Z.of_nat k = Some (decimal ds))
    /\ argv !! Z.of_nat (length nums) = Some END_ARG
    /\ (Forall (fun ds => decimal ds <> END_ARG) nums ->
        count_args 1024 argv 0 = Ok (Z.of_nat (length nums))).
Proof.
  intros Hgood Hmax Halpha Hsize. eexists.
  split; [now apply parse_tuple_written|].
  destruct (argv_written_values nums _ eq_refl) as [Hvals Hend].
  split; [exact Hvals|]. split; [exact Hend|]. now apply argv_written_count.
Qed.

(** ** What the loop of the ANSI decoder keeps *)

Lemma ansi_loop_invariant (P : ansi_state -> Prop) buffer :
  (forall s s', P s -> ansi_body buffer s = Ok (Some s') -> P s') ->
  forall fuel s r, P s -> ansi_loop fuel buffer s = Some (Ok r) -> P r.
Proof.
  intros Hbody. induction fuel as [|fuel IH]; intros s r Hs Hloop; [discriminate|].
  cbn [ansi_loop] in Hloop.
  destruct (a_i s <? sizeof buffer); [|now injection Hloop as <-].
  destruct (ansi_body buffer s) as [[s1|]|f] eqn:Hb.
  - eapply IH; [|exact Hloop]. eapply Hbody; eassumption.
  - now injection Hloop as <-.
  - discriminate.
Qed.

Lemma ansi_run_invariant (P : ansi_state -> Prop) buffer s :
  P ansi_start ->
  (forall s s', P s -> ansi_body buffer s = Ok (Some s') -> P s') ->
  ansi_run buffer = Ok s -> P s.
Proof.
  intros Hstart Hbody Hrun. unfold ansi_run, cucul_create_canvas in Hrun.
  fold ansi_start in Hrun.
  destruct (ansi_loop (S (length buffer)) buffer ansi_start) as [r|] eqn:Hloop;
    [|discriminate].
  subst r. eapply ansi_loop_invariant; eassumption.
Qed.

Lemma clear_eol_size n : forall cv j y,
  cv_width (clear_eol n cv j y) = cv_width cv
  /\ cv_height (clear_eol n cv j y) = cv_height cv.
Proof.
  induction n as [|n IH]; intros cv j y; [now split|].
  cbn [clear_eol]. destruct (IH (_cucul_putchar32 cv j y 32) (j + 1) y) as [-> ->].
  apply putchar_size.
Qed.

Lemma dispatch_size c argc argv s s' :
  dispatch c argc argv s = Ok s' ->
  a_width s' = a_width s /\ a_height s' = a_height s
  /\ cv_width (a_cv s') = cv_width (a_cv s)
  /\ cv_height (a_cv s') = cv_height (a_cv s).
Proof.
  unfold dispatch, apply_colour, cucul_set_color. intros Hd.
  repeat match type of Hd with
         | (if ?b then _ else _) = _ => destruct b
         | bind ?m _ = Ok _ => let a := fresh "a" in let Ha := fresh "Ha" in
                               bind_inv Hd a Ha
         end;
    try (injection Hd as <-); cbn; repeat case_match; cbn;
    try (repeat split; reflexivity).
  destruct (clear_eol_size (Z.to_nat (a_width s - a_x s)) (a_cv s) (a_x s) (a_y s))
    as [-> ->]. now repeat split.
Qed.

Lemma paste_width b s :
  a_width (paste b s) = a_width s
  /\ (cv_width (a_cv s) = u32 (a_width s) ->
      cv_width (a_cv (paste b s)) = u32 (a_width s)).
Proof.
  unfold paste.
  destruct (a_width s <=? a_x s); cbn [a_width a_height a_x a_y a_cv with_xy];
    (destruct (a_height s <=? _);
     cbn [a_width a_height a_x a_y a_cv with_xy with_cv with_height];
     (split; [reflexivity|]); intros Hw;
     match goal with |- cv_width (_cucul_putchar32 ?cv ?x ?y ?c) = _ =>
       destruct (putchar_size cv x y c) as [-> _] end;
     [reflexivity | exact Hw]).
Qed.

(** X8. Whatever the input, the ANSI decoder leaves the width alone: the
    canvas it returns is 80 columns wide. *)
Theorem import_ansi_width buffer cv :
  import_ansi buffer = Ok (Some cv) -> cv_width cv = 80.
Proof.
  unfold import_ansi. intros Himp. bind_inv Himp s Hrun. injection Himp as <-.
  apply (ansi_run_invariant
           (fun s => a_width s = 80 /\ cv_width (a_cv s) = 80) buffer s);
    [now split | | exact Hrun].
  clear s Hrun. intros s s' [Hw Hcw] Hbody. unfold ansi_body in Hbody.
  bind_inv Hbody b Hb. bind_inv Hbody sauce Hsauce.
  destruct sauce; [discriminate|].
  destruct (b =? 13); [injection Hbody as <-; now split|].
  destruct (b =? 10); [injection Hbody as <-; now split|].
  bind_inv Hbody esc Hesc. destruct esc.
  - bind_inv Hbody c Hc. bind_inv Hbody r Hr. bind_inv Hbody argc Hargc.
    bind_inv Hbody s1 Hs1. injection Hbody as <-.
    apply dispatch_size in Hs1. destruct Hs1 as (Hw1 & _ & Hcw1 & _).
    cbn [a_width a_cv with_i]. split; congruence.
  - injection Hbody as <-. cbn [a_width a_cv with_i].
    destruct (paste_width b s) as [Hpw Hpc]. rewrite Hpw. split; [exact Hw|].
    rewrite Hpc; rewrite Hw; [reflexivity | exact Hcw].
Qed.

(** ** A stream of plain bytes *)

Lemma ansi_body_plain buffer k s b :
  sizeof buffer < 2 ^ 31 -> 0 <= k ->
  buffer !! Z.to_nat k = Some b -> plain_byte b ->
  plain_inv buffer k s ->
  exists s', ansi_body buffer s = Ok (Some s') /\ plain_inv buffer (k + 1) s'.
Proof.
  intros Hmax Hk Hb (H13 & H10 & H27 & H26)
    (Hi & Hxy & Hx & Hy & Hpos & Hw & Hh & Hcw & Hch & Hcells).
  assert (Hlen : k < sizeof buffer)
    by (apply lookup_lt_Some in Hb; unfold sizeof; lia).
  assert (Hget : getb buffer k = Ok (byte_val b)).
  { rewrite <- (getb_lookup _ _ _ Hb). f_equal. lia. }
  exists (with_i (k + 1) (paste (byte_val b) s)). split.
  { unfold ansi_body. rewrite Hi, Hget. cbn [bind].
    destruct (Z.eqb_spec (byte_val b) 26); [contradiction|]. cbn [andb bind].
    destruct (Z.eqb_spec (byte_val b) 13); [contradiction|].
    destruct (Z.eqb_spec (byte_val b) 10); [contradiction|].
    unfold is_escape. rewrite Hget. cbn [bind].
    destruct (Z.eqb_spec (byte_val b) 27); [contradiction|]. cbn [bind].
    rewrite u32_small by lia. reflexivity. }
  assert (Hsame : forall n b', n = k -> buffer !! Z.to_nat n = Some b' -> b = b').
  { intros n b' -> Hb'. congruence. }
  assert (Hx1 : 0 < k -> 1 <= a_x s) by exact Hpos.
  unfold plain_inv, paste. rewrite Hw.
  destruct (Z.leb_spec 80 (a_x s)) as [Hwrap|Hroom].
  - (* the cursor is past the last column *)
    assert (Hx80 : a_x s = 80) by lia.
    rewrite (s32_small (a_y s + 1)) by lia.
    cbn [a_height a_y a_x a_cv a_width with_xy]. rewrite Hh, Hw.
    destruct (Z.leb_spec (Z.max 25 (a_y s + 1)) (a_y s + 1)) as [Hgrow|Hfits].
    + rewrite (s32_small (a_y s + 1 + 1)) by lia.
      rewrite (u32_small 80), (u32_small (a_y s + 1 + 1)) by lia.
      cbn [a_height a_y a_x a_cv a_width a_i with_xy with_cv with_height with_i].
      rewrite (s32_small (0 + 1)) by lia.
      set (cv1 := cucul_set_canvas_size (a_cv s) 80 (a_y s + 1 + 1)).
      assert (Hin : in_canvas cv1 0 (a_y s + 1) = true).
      { unfold in_canvas, cv1, cucul_set_canvas_size. cbn [cv_width cv_height].
        rewrite !andb_true_iff, !Z.leb_le, !Z.ltb_lt. lia. }
      destruct (putchar_size cv1 0 (a_y s + 1)
                  (_cucul_cp437_to_utf32 (byte_val b))) as [Hpw Hph].
      repeat split; try lia; try (rewrite ?Hpw, ?Hph; unfold cv1; cbn; lia).
      intros x y b' Hx' Hy' Hlt Hb'.
      rewrite cell_char_putchar by (try exact Hin; unfold cv1; cbn; lia).
      destruct (Z.eqb_spec x 0) as [->|Hx0];
        [destruct (Z.eqb_spec y (a_y s + 1)) as [->|Hy0]|]; cbn [andb].
      * f_equal. f_equal. eapply Hsame; [|exact Hb']. lia.
      * unfold cv1. rewrite cell_char_resize by lia.
        replace (in_canvas (a_cv s) 0 y) with true
          by (symmetry; unfold in_canvas;
              rewrite !andb_true_iff, !Z.leb_le, !Z.ltb_lt; lia).
        eapply Hcells; [lia..|exact Hb'].
      * unfold cv1. rewrite cell_char_resize by lia.
        replace (in_canvas (a_cv s) x y) with true
          by (symmetry; unfold in_canvas;
              rewrite !andb_true_iff, !Z.leb_le, !Z.ltb_lt; lia).
        eapply Hcells; [lia..|exact Hb'].
    + cbn [a_height a_y a_x a_cv a_width a_i with_xy with_cv with_height with_i].
      rewrite (s32_small (0 + 1)) by lia.
      assert (Hin : in_canvas (a_cv s) 0 (a_y s + 1) = true).
      { unfold in_canvas.
        rewrite !andb_true_iff, !Z.leb_le, !Z.ltb_lt. lia. }
      destruct (putchar_size (a_cv s) 0 (a_y s + 1)
                  (_cucul_cp437_to_utf32 (byte_val b))) as [Hpw Hph].
      repeat split; try lia; try (rewrite ?Hpw, ?Hph; lia).
      intros x y b' Hx' Hy' Hlt Hb'.
      rewrite cell_char_putchar by (try exact Hin; lia).
      destruct (Z.eqb_spec x 0) as [->|Hx0];
        [destruct (Z.eqb_spec y (a_y s + 1)) as [->|Hy0]|]; cbn [andb].
      * f_equal. f_equal. eapply Hsame; [|exact Hb']. lia.
      * eapply Hcells; [lia..|exact Hb'].
      * eapply Hcells; [lia..|exact Hb'].
  - rewrite Hh. destruct (Z.leb_spec (Z.max 25 (a_y s + 1)) (a_y s)); [lia|].
    cbn [a_height a_y a_x a_cv a_width a_i with_xy with_cv with_height with_i].
    rewrite (s32_small (a_x s + 1)) by lia.
    assert (Hin : in_canvas (a_cv s) (a_x s) (a_y s) = true).
    { unfold in_canvas.
      rewrite !andb_true_iff, !Z.leb_le, !Z.ltb_lt. lia. }
    destruct (putchar_size (a_cv s) (a_x s) (a_y s)
                (_cucul_cp437_to_utf32 (byte_val b))) as [Hpw Hph].
    repeat split; try lia; try (rewrite ?Hpw, ?Hph; lia).
    intros x y b' Hx' Hy' Hlt Hb'.
    rewrite cell_char_putchar by (try exact Hin; lia).
    destruct (Z.eqb_spec x (a_x s)) as [->|Hx0];
      [destruct (Z.eqb_spec y (a_y s)) as [->|Hy0]|]; cbn [andb].
    + f_equal. f_equal. eapply Hsame; [|exact Hb']. lia.
    + eapply Hcells; [lia..|exact Hb'].
    + eapply Hcells; [lia..|exact Hb'].
Qed.

Lemma ansi_steps_plain buffer :
  sizeof buffer < 2 ^ 31 -> Forall plain_byte buffer ->
  forall n k s, 0 <= k -> k + Z.of_nat n <= sizeof buffer ->
  plain_inv buffer k s ->
  exists s', ansi_steps n buffer s = Ok (Some s')
             /\ plain_inv buffer (k + Z.of_nat n) s'.
Proof.
  intros Hmax Hplain. induction n as [|n IH]; intros k s Hk Hn Hinv.
  - exists s. split; [reflexivity|]. now rewrite Z.add_0_r.
  - destruct (lookup_lt_is_Some_2 buffer (Z.to_nat k)) as [b Hb];
      [unfold sizeof in Hn; lia|].
    assert (Hpb : plain_byte b).
    { eapply (proj1 (Forall_forall _ _) Hplain), list_elem_of_lookup_2, Hb. }
    destruct (ansi_body_plain buffer k s b Hmax Hk Hb Hpb Hinv) as (s1 & Hbody & Hinv1).
    destruct (IH (k + 1) s1) as (s' & Hsteps & Hinv'); [lia..|exact Hinv1|].
    exists s'. cbn [ansi_steps]. destruct Hinv as (Hi & _).
    destruct (Z.ltb_spec (a_i s) (sizeof buffer)); [|lia].
    rewrite Hbody. cbn [bind]. split; [exact Hsteps|].
    replace (k + Z.of_nat (S n)) with (k + 1 + Z.of_nat n) by lia. exact Hinv'.
Qed.

(** X9. A buffer without CR, LF, ESC and SUB is laid out row by row, 80
    cells a row: byte [k] ends in cell [k] of the canvas, translated by the
    code page, and the canvas is 25 rows tall or as many as the bytes need. *)
Theorem import_ansi_plain buffer :
  sizeof buffer < 2 ^ 31 -> Forall plain_byte buffer ->
  exists cv, import_ansi buffer = Ok (Some cv)
    /\ cv_width cv = 80
    /\ cv_height cv = Z.max 25 ((sizeof buffer + 79) / 80)
    /\ forall k b, buffer !! k = Some b ->
         cv_chars cv (Z.of_nat k) = _cucul_cp437_to_utf32 (byte_val b).
Proof.
  intros Hmax Hplain.
  destruct (ansi_steps_plain buffer Hmax Hplain (length buffer) 0 ansi_start)
    as (s & Hsteps & Hinv); [lia | unfold sizeof; lia| |].
  { unfold plain_inv, ansi_start, ansi_init, blank_canvas, cucul_set_color.
    cbn. repeat split; try lia. }
  pose proof (ansi_run_loop buffer Hmax) as Hrun.
  replace (S (length buffer)) with (length buffer + 1)%nat in Hrun by lia.
  rewrite (ansi_steps_loop _ _ _ _ _ Hsteps) in Hrun. cbn [ansi_loop] in Hrun.
  destruct Hinv as (Hi & Hxy & Hx & Hy & Hpos & Hw & Hh & Hcw & Hch & Hcells).
  fold (sizeof buffer) in *. rewrite Z.add_0_l in *.
  destruct (Z.ltb_spec (a_i s) (sizeof buffer)); [lia|].
  injection Hrun as Hrun. exists (a_cv s). unfold import_ansi. rewrite <- Hrun.
  cbn [bind]. split; [reflexivity|]. split; [exact Hcw|]. split.
  - rewrite Hch, Hh.
    destruct (Z.eq_dec (a_x s) 0) as [Hx0|Hx0].
    + assert (Hk0 : sizeof buffer = 0) by lia. rewrite Hk0.
      change ((0 + 79) / 80) with 0. lia.
    + replace (sizeof buffer + 79) with (a_x s + 79 + a_y s * 80) by lia.
      rewrite Z.div_add by lia.
      assert (Hq : (a_x s + 79) / 80 = 1); [|lia].
      symmetry. apply (Z.div_unique _ _ _ (a_x s - 1)); lia.
  - intros k b Hb.
    assert (Hk : Z.of_nat k < sizeof buffer)
      by (apply lookup_lt_Some in Hb; unfold sizeof; lia).
    specialize (Hcells (Z.of_nat k mod 80) (Z.of_nat k / 80) b).
    unfold cell_char in Hcells. rewrite Hcw in Hcells.
    pose proof (Z.mod_pos_bound (Z.of_nat k) 80 ltac:(lia)).
    pose proof (Z.div_mod (Z.of_nat k) 80 ltac:(lia)).
    assert (0 <= Z.of_nat k / 80) by (apply Z.div_pos; lia).
    replace (Z.of_nat k mod 80 + Z.of_nat k / 80 * 80) with (Z.of_nat k) in Hcells by lia.
    apply Hcells; try lia.
    replace (Z.of_nat k mod 80 + 80 * (Z.of_nat k / 80)) with (Z.of_nat k) by lia.
    now rewrite Nat2Z.id.
Qed.

(** ** Where the ANSI decoder reads outside the buffer *)

Lemma no_overread_Ok {A} (a : A) : no_overread (Ok a).
Proof. intros j. discriminate. Qed.

Lemma no_overread_bind {A B} (m : result A) (k : A -> result B) :
  no_overread m -> (forall a, m = Ok a -> no_overread (k a)) ->
  no_overread (bind m k).
Proof.
  intros Hm Hk j. destruct m as [a|f]; cbn [bind].
  - now apply Hk.
  - intros [= ->]. now apply (Hm j).
Qed.

Lemma getb_no_overread buffer i :
  0 <= i < sizeof buffer -> no_overread (getb buffer i).
Proof. intros Hi j. destruct (getb_in_range buffer i Hi) as (b & _ & ->). discriminate. Qed.

Lemma array_get_no_overread a k : no_overread (array_get a k).
Proof. intros j. unfold array_get. now destruct (a !! k). Qed.

Lemma argv_set_no_overread a k v : no_overread (array_set ArgvOverflow a k v).
Proof. intros j. unfold array_set. now destruct (_ && _). Qed.

Lemma nbr_set_no_overread a k v : no_overread (array_set NbrOverflow a k v).
Proof. intros j. unfold array_set. now destruct (_ && _). Qed.

Lemma c_string_no_overread n : forall nbr k, no_overread (c_string n nbr k).
Proof.
  induction n as [|n IH]; intros nbr k; cbn [c_string]; [intros j; discriminate|].
  apply no_overread_bind; [apply array_get_no_overread|]. intros c _.
  destruct (c =? 0); [apply no_overread_Ok|].
  apply no_overread_bind; [apply IH|]. intros rest _. apply no_overread_Ok.
Qed.

Lemma atoi_no_overread s : no_overread (atoi s).
Proof. intros j. unfold atoi. now destruct (_ && _). Qed.

Lemma store_number_no_overread ret nbr t : no_overread (store_number ret nbr t).
Proof.
  unfold store_number.
  apply no_overread_bind; [apply c_string_no_overread|]. intros s _.
  apply no_overread_bind; [apply atoi_no_overread|]. intros v _.
  apply argv_set_no_overread.
Qed.

Lemma parse_tuple_loop_no_overread n : forall buffer size i j t nbr ret,
  0 <= i -> i + Z.of_nat n <= sizeof buffer ->
  no_overread (parse_tuple_loop n buffer size i j t nbr ret).
Proof.
  induction n as [|n IH]; intros buffer size i j t nbr ret Hi Hn;
    cbn [parse_tuple_loop]; [apply no_overread_Ok|].
  apply no_overread_bind; [apply getb_no_overread; lia|]. intros b _.
  destruct (IS_ALPHA b).
  - apply no_overread_bind.
    + destruct (negb (j =? 0)); [|apply no_overread_Ok].
      apply no_overread_bind; [apply store_number_no_overread|].
      intros ret1 _. apply no_overread_Ok.
    + intros rt _. apply no_overread_bind; [apply argv_set_no_overread|].
      intros ret1 _. apply no_overread_Ok.
  - destruct (negb (b =? 59)).
    + apply no_overread_bind; [apply nbr_set_no_overread|]. intros nbr1 _.
      apply no_overread_bind; [apply nbr_set_no_overread|]. intros nbr2 _.
      apply IH; lia.
    + apply no_overread_bind; [apply store_number_no_overread|]. intros ret1 _.
      apply no_overread_bind; [apply argv_set_no_overread|]. intros ret2 _.
      apply IH; lia.
Qed.

Lemma parse_tuple_no_overread buffer size :
  size <= sizeof buffer -> no_overread (parse_tuple buffer size).
Proof.
  intros Hsize. unfold parse_tuple.
  apply no_overread_bind; [apply argv_set_no_overread|]. intros ret _.
  pose proof (sizeof_nonneg buffer).
  apply parse_tuple_loop_no_overread; lia.
Qed.

Lemma memcmp_eq_no_overread lit : forall buffer k,
  0 <= k -> k + Z.of_nat (length lit) <= sizeof buffer ->
  no_overread (memcmp_eq buffer k lit).
Proof.
  induction lit as [|c lit IH]; intros buffer k Hk Hlen; cbn [memcmp_eq];
    [apply no_overread_Ok|].
  cbn [length] in Hlen.
  apply no_overread_bind; [apply getb_no_overread; lia|]. intros b _.
  destruct (b =? byte_val c); [apply IH; lia | apply no_overread_Ok].
Qed.

Lemma final_byte_no_overread n : forall buffer j,
  0 <= j -> j + Z.of_nat n <= sizeof buffer ->
  no_overread (final_byte n buffer j).
Proof.
  induction n as [|n IH]; intros buffer j Hj Hn; cbn [final_byte];
    [apply no_overread_Ok|].
  apply no_overread_bind; [apply getb_no_overread; lia|]. intros b _.
  destruct (IS_ALPHA b); [apply no_overread_Ok | apply IH; lia].
Qed.

Lemma count_args_no_overread n : forall argv argc,
  no_overread (count_args n argv argc).
Proof.
  induction n as [|n IH]; intros argv argc; cbn [count_args];
    [intros j; discriminate|].
  apply no_overread_bind; [apply array_get_no_overread|]. intros v _.
  destruct (v =? END_ARG); [apply no_overread_Ok | apply IH].
Qed.

Lemma apply_modifiers_no_overread n : forall argv j m,
  no_overread (apply_modifiers n argv j m).
Proof.
  induction n as [|n IH]; intros argv j m; cbn [apply_modifiers];
    [apply no_overread_Ok|].
  apply no_overread_bind; [apply array_get_no_overread|]. intros v _. apply IH.
Qed.

Lemma dispatch_no_overread c argc argv s : no_overread (dispatch c argc argv s).
Proof.
  unfold dispatch, count_or_one.
  repeat first
    [ apply no_overread_Ok
    | apply array_get_no_overread
    | apply apply_modifiers_no_overread
    | apply no_overread_bind; [|intros ? _]
    | match goal with |- no_overread (if ?b then _ else _) => destruct b end ].
Qed.

(** One iteration reads outside the buffer only for the byte after a final
    ESC. *)
Lemma ansi_body_overread buffer s j :
  sizeof buffer < 2 ^ 31 -> 0 <= a_i s < sizeof buffer ->
  ansi_body buffer s = Fault (BufferOverread j) ->
  j = sizeof buffer /\ a_i s = sizeof buffer - 1
  /\ getb buffer (a_i s) = Ok 27.
Proof.
  intros Hmax Hi Hbody. unfold ansi_body in Hbody.
  destruct (getb_in_range buffer (a_i s) Hi) as (b0 & _ & Hget).
  rewrite Hget in Hbody. cbn [bind] in Hbody.
  remember (byte_val b0) as b eqn:Hb0. clear Hb0 b0.
  destruct ((b =? 26) && (8 <=? u32 (sizeof buffer - a_i s))) eqn:Hsauce.
  - apply andb_true_iff in Hsauce. destruct Hsauce as [Hb26 Hroom].
    apply Z.eqb_eq in Hb26. apply Z.leb_le in Hroom. rewrite u32_small in Hroom by lia.
    destruct (memcmp_eq buffer (a_i s + 1) SAUCE00) as [sauce|f] eqn:Hcmp.
    + cbn [bind] in Hbody. exfalso. revert Hbody.
      destruct sauce; [discriminate|].
      destruct (b =? 13); [discriminate|]. destruct (b =? 10); [discriminate|].
      unfold is_escape. rewrite Hget. cbn [bind].
      destruct (Z.eqb_spec b 27); [lia|discriminate].
    + exfalso. cbn [bind] in Hbody. injection Hbody as ->.
      apply (memcmp_eq_no_overread SAUCE00 buffer (a_i s + 1)) in Hcmp;
        [exact Hcmp | lia | cbn [length SAUCE00]; lia].
  - cbn [bind] in Hbody.
    destruct (b =? 13); [discriminate|]. destruct (b =? 10); [discriminate|].
    destruct (is_escape buffer (a_i s)) as [esc|f] eqn:Hesc.
    + cbn [bind] in Hbody. exfalso. destruct esc; [|discriminate].
      apply is_escape_true in Hesc.
      rewrite (u32_small (a_i s + 1)), (u32_small (a_i s + 1 + 1)) in Hbody by lia.
      rewrite (s32_small (sizeof buffer)), (s32_small (a_i s + 1 + 1)) in Hbody by lia.
      rewrite (u32_small (sizeof buffer - _)), (s32_small (sizeof buffer - _))
        in Hbody by lia.
      revert Hbody. apply no_overread_bind.
      { apply final_byte_no_overread; lia. }
      intros c _. apply no_overread_bind.
      { apply parse_tuple_no_overread. unfold offset, sizeof.
        rewrite length_drop. lia. }
      intros r _. apply no_overread_bind; [apply count_args_no_overread|].
      intros argc _. apply no_overread_bind; [apply dispatch_no_overread|].
      intros s1 _. apply no_overread_Ok.
    + cbn [bind] in Hbody. injection Hbody as ->.
      unfold is_escape in Hesc. rewrite Hget in Hesc. cbn [bind] in Hesc.
      destruct (Z.eqb_spec b 27) as [Hb|]; [|discriminate].
      unfold getb in Hesc.
      destruct (Z.ltb_spec (a_i s + 1) 0); [lia|].
      destruct (buffer !! Z.to_nat (a_i s + 1)) as [b1|] eqn:Hb1; [discriminate|].
      injection Hesc as <-. apply lookup_ge_None in Hb1. unfold sizeof in *.
      split; [lia|]. split; [lia|]. now rewrite Hget, Hb.
Qed.

Lemma ansi_loop_overread buffer j fuel : forall s,
  sizeof buffer < 2 ^ 31 -> 0 <= a_i s ->
  ansi_loop fuel buffer s = Some (Fault (BufferOverread j)) ->
  j = sizeof buffer /\ getb buffer (sizeof buffer - 1) = Ok 27.
Proof.
  induction fuel as [|fuel IH]; intros s Hmax Hi Hloop; [discriminate|].
  cbn [ansi_loop] in Hloop.
  destruct (Z.ltb_spec (a_i s) (sizeof buffer)) as [Hlt|]; [|discriminate].
  destruct (ansi_body buffer s) as [[s1|]|f] eqn:Hbody.
  - apply (IH s1); [exact Hmax| |exact Hloop].
    apply ansi_body_progress in Hbody; lia.
  - discriminate.
  - injection Hloop as ->.
    apply ansi_body_overread in Hbody; [|lia..].
    destruct Hbody as (-> & Hlast & Hget). rewrite <- Hlast. now split.
Qed.

(** X10. The ANSI decoder reads outside its buffer in one situation only:
    the last byte is ESC, and the read is of the byte just past it. *)
Theorem import_ansi_overread buffer j :
  sizeof buffer < 2 ^ 31 ->
  import_ansi buffer = Fault (BufferOverread j) ->
  j = sizeof buffer /\ last buffer = Some ESC.
Proof.
  intros Hmax Himp. unfold import_ansi in Himp.
  destruct (ansi_run buffer) as [s|f] eqn:Hrun; [discriminate|].
  cbn [bind] in Himp. injection Himp as ->.
  pose proof (ansi_run_loop buffer Hmax) as Hloop. rewrite Hrun in Hloop.
  apply ansi_loop_overread in Hloop; [|exact Hmax|cbn; lia].
  destruct Hloop as [-> Hget]. split; [reflexivity|].
  apply getb_Ok in Hget. destruct Hget as (Hrange & b & Hb & Hval).
  rewrite last_lookup.
  replace (Nat.pred (length buffer)) with (Z.to_nat (sizeof buffer - 1))
    by (unfold sizeof; lia).
  rewrite Hb. f_equal. apply byte_val_inj. rewrite <- Hval. reflexivity.
Qed.

(** ** One control sequence *)

Lemma tuple_bytes_not_alpha nums :
  Forall good_number nums ->
  Forall (fun b => IS_ALPHA (byte_val b) = false) (tuple_bytes nums).
Proof.
  induction nums as [|ds nums IH]; intros Hgood; [constructor|].
  inversion Hgood as [|? ? ((_ & Hds) & _) Hrest]; subst.
  assert (Hdigits : Forall (fun b => IS_ALPHA (byte_val b) = false) ds).
  { eapply Forall_impl; [exact Hds|]. intros b Hb.
    now apply digit_not_special in Hb. }
  cbn [tuple_bytes]. destruct nums as [|ds' nums]; [exact Hdigits|].
  apply Forall_app. split; [exact Hdigits|].
  constructor; [reflexivity|]. now apply IH.
Qed.

(** X11. An iteration that starts at ESC [ followed by numbers, semicolons
    between them, and a final byte between 'A' and 'z' hands the final byte,
    the number of values and the values to the [switch], and goes on right
    after the final byte. *)
Theorem ansi_body_sequence pre nums final rest s :
  let buffer := pre ++ ESC :: "["%byte :: tuple_bytes nums ++ final :: rest in
  sizeof buffer < 2 ^ 31 -> a_i s = sizeof pre ->
  Forall good_number nums -> Z.of_nat (length nums) <= 1023 ->
  Forall (fun ds => decimal ds <> END_ARG) nums ->
  IS_ALPHA (byte_val final) = true ->
  exists argv,
    (forall k ds, nums !! k = Some ds -> argv !! Z.of_nat k = Some (decimal ds))
    /\ ansi_body buffer s
       = do s' <- dispatch (byte_val final) (Z.of_nat (length nums)) argv s;
         Ok (Some (with_i (sizeof pre + 3 + sizeof (tuple_bytes nums)) s')).
Proof.
  intros buffer Hmax Hi Hgood Hlen Hno Hfinal.
  exists (array_written (<[0 := END_ARG]> ∅) 0 (map decimal nums) END_ARG).
  destruct (argv_written_values nums _ eq_refl) as [Hvals Hend].
  split; [exact Hvals|].
  set (tail := tuple_bytes nums ++ final :: rest) in *.
  assert (Hsize : sizeof buffer = sizeof pre + 2 + sizeof tail).
  { unfold buffer, sizeof. rewrite length_app. cbn [length]. lia. }
  assert (Htail : sizeof tail = sizeof (tuple_bytes nums) + 1 + sizeof rest).
  { unfold tail, sizeof. rewrite length_app. cbn [length]. lia. }
  pose proof (sizeof_nonneg pre). pose proof (sizeof_nonneg rest).
  pose proof (sizeof_nonneg (tuple_bytes nums)).
  unfold ansi_body. rewrite Hi.
  assert (Hesc : getb buffer (sizeof pre) = Ok 27) by apply getb_middle.
  assert (Hbr : getb buffer (sizeof pre + 1) = Ok 91).
  { unfold buffer.
    replace (pre ++ ESC :: "["%byte :: tail) with ((pre ++ [ESC]) ++ "["%byte :: tail)
      by now rewrite <- app_assoc.
    replace (sizeof pre + 1) with (Z.of_nat (length (pre ++ [ESC])))
      by (unfold sizeof; rewrite length_app; cbn [length]; lia).
    apply getb_middle. }
  rewrite Hesc. cbn [bind].
  change (27 =? 26) with false. change (27 =? 13) with false.
  change (27 =? 10) with false. cbn [andb bind].
  unfold is_escape. rewrite Hesc. cbn [bind].
  change (27 =? 27) with true. cbv iota. rewrite Hbr. cbn [bind].
  change (91 =? 91) with true. cbv iota.
  rewrite (u32_small (sizeof pre + 1)) by lia.
  rewrite (u32_small (sizeof pre + 1 + 1)) by lia.
  rewrite (s32_small (sizeof buffer)), (s32_small (sizeof pre + 1 + 1)) by lia.
  rewrite (u32_small (sizeof buffer - _)), (s32_small (sizeof buffer - _)) by lia.
  assert (Hshape : buffer = (pre ++ [ESC; "["%byte]) ++ tail)
    by (unfold buffer; now rewrite <- app_assoc).
  assert (Hpre2 : sizeof pre + 1 + 1 = Z.of_nat (length (pre ++ [ESC; "["%byte])))
    by (unfold sizeof; rewrite length_app; cbn [length]; lia).
  assert (Hfb : final_byte (Z.to_nat (sizeof buffer - (sizeof pre + 1 + 1))) buffer
                  (sizeof pre + 1 + 1) = Ok (byte_val final)).
  { rewrite Hshape at 2. rewrite Hpre2 at 2. unfold tail.
    apply final_byte_finds; [now apply tuple_bytes_not_alpha|assumption|].
    unfold sizeof in *. lia. }
  rewrite Hfb. cbn [bind].
  assert (Hoff : offset buffer (sizeof pre + 1 + 1) = tail).
  { unfold offset. rewrite Hshape, Hpre2, Nat2Z.id. apply drop_app_length. }
  rewrite Hoff. unfold tail at 1.
  rewrite parse_tuple_written by (assumption || lia).
  cbn [bind fst snd].
  rewrite (argv_written_count nums) by assumption.
  cbn [bind]. rewrite (u32_small (1 + _)) by lia.
  rewrite u32_small by lia.
  replace (sizeof pre + 1 + 1 + (1 + sizeof (tuple_bytes nums)))
    with (sizeof pre + 3 + sizeof (tuple_bytes nums)) by lia.
  reflexivity.
Qed.

(** ** Erasing to the end of the line *)

Lemma clear_eol_cells n : forall cv j y x' y',
  0 <= j -> j + Z.of_nat n <= cv_width cv -> 0 <= y < cv_height cv ->
  0 <= x' < cv_width cv ->
  cell_char (clear_eol n cv j y) x' y'
  = if (y' =? y) && (j <=? x') && (x' <? j + Z.of_nat n) then 32
    else cell_char cv x' y'.
Proof.
  induction n as [|n IH]; intros cv j y x' y' Hj Hn Hy Hx'; cbn [clear_eol].
  - destruct (Z.ltb_spec x' (j + Z.of_nat 0)) as [Hlt|_]; [|now rewrite andb_false_r].
    destruct (Z.leb_spec j x'); [lia|]. now rewrite andb_false_r.
  - destruct (putchar_size cv j y 32) as [Hpw Hph].
    rewrite IH by (rewrite ?Hpw, ?Hph; lia).
    rewrite cell_char_putchar; [|unfold in_canvas;
      rewrite !andb_true_iff, !Z.leb_le, !Z.ltb_lt; lia|lia].
    destruct (Z.eqb_spec y' y) as [->|]; cbn [andb];
      [|now rewrite andb_false_r].
    rewrite andb_true_r.
    destruct (Z.leb_spec (j + 1) x');
      destruct (Z.leb_spec j x'); destruct (Z.ltb_spec x' (j + 1 + Z.of_nat n));
      destruct (Z.ltb_spec x' (j + Z.of_nat (S n)));
      destruct (Z.eqb_spec x' j); cbn [andb];
      try reflexivity; lia.
Qed.

(** X12. The command K blanks the row of the cursor from the cursor to the
    last column, touches no other cell, and leaves the cursor past the last
    column. *)
Theorem erase_to_end_of_line argc argv s :
  cv_width (a_cv s) = a_width s -> 0 <= a_x s <= a_width s ->
  0 <= a_y s < cv_height (a_cv s) ->
  exists s', dispatch 75 argc argv s = Ok s'
    /\ a_x s' = a_width s /\ a_y s' = a_y s
    /\ forall x y, 0 <= x < a_width s ->
         cell_char (a_cv s') x y
         = if (y =? a_y s) && (a_x s <=? x) then 32 else cell_char (a_cv s) x y.
Proof.
  intros Hw Hx Hy. eexists. split; [reflexivity|].
  cbn [a_x a_y a_cv with_xy with_cv]. split; [reflexivity|]. split; [reflexivity|].
  intros x y Hxr. rewrite clear_eol_cells by lia.
  destruct (Z.ltb_spec x (a_x s + Z.of_nat (Z.to_nat (a_width s - a_x s)))); [|lia].
  now rewrite andb_true_r.
Qed.

(** ** The modifiers *)

(** X13. Every SGR code but 8 can be given twice for once: a second
    [manage_modifiers] with the same code changes nothing. *)
Theorem sgr_code_twice i m :
  i <> 8 -> manage_modifiers i (manage_modifiers i m) = manage_modifiers i m.
Proof.
  intros Hi. unfold manage_modifiers.
  repeat match goal with
         | |- context [if ?b then _ else _] =>
             lazymatch b with
             | context [i] => destruct b eqn:?
             end
         end; try reflexivity.
  all: match goal with
       | Hx : (_ =? 8) = true |- _ => apply Z.eqb_eq in Hx; contradiction
       end.
Qed.


(** ** What a command leaves alone *)

(** X15. No command moves the index, the width or the height of the
    decoder; only K and m touch the canvas, and m only its colour, never a
    cell; only m changes the modifiers and only s the saved position. *)
Theorem dispatch_frame c argc argv s s' :
  dispatch c argc argv s = Ok s' ->
  a_i s' = a_i s /\ a_width s' = a_width s /\ a_height s' = a_height s
  /\ (c <> 75 -> c <> 109 -> a_cv s' = a_cv s)
  /\ (c = 109 -> cv_chars (a_cv s') = cv_chars (a_cv s)
                 /\ cv_attr (a_cv s') = cv_attr (a_cv s))
  /\ (c <> 109 -> a_mod s' = a_mod s)
  /\ (c <> 115 -> a_save_x s' = a_save_x s /\ a_save_y s' = a_save_y s).
Proof.
  unfold dispatch, apply_colour, cucul_set_color. intros Hd.
  repeat match type of Hd with
         | (if ?b then _ else _) = _ => destruct b eqn:?
         | bind ?m _ = Ok _ => let a := fresh "a" in let Ha := fresh "Ha" in
                               bind_inv Hd a Ha
         end;
    try (injection Hd as <-); cbn; repeat case_match; cbn;
    repeat match goal with
           | Hx : (_ =? _) = true |- _ => apply Z.eqb_eq in Hx
           | Hx : (_ =? _) = false |- _ => apply Z.eqb_neq in Hx
           | Hx : (_ || _) = false |- _ => apply orb_false_iff in Hx; destruct Hx
           end;
    repeat split; intros; subst; try reflexivity; try contradiction; try lia.
Qed.

(** ** The decoder comes to an end *)

(** X16. On a buffer whose size fits an [int] the loop of [import_ansi]
    is left after at most as many iterations as there are bytes, with the
    canvas or at an access outside an object. *)
Theorem import_ansi_terminates buffer :
  sizeof buffer < 2 ^ 31 ->
  exists r, ansi_loop (S (length buffer)) buffer ansi_start = Some r
    /\ import_ansi buffer = (do s <- r; Ok (Some (a_cv s)))
    /\ import_ansi buffer <> Fault OutOfFuel.
Proof.
  intros Hmax. exists (ansi_run buffer).
  split; [now apply ansi_run_loop|]. split; [reflexivity|].
  pose proof (ansi_run_total buffer Hmax) as Hfuel.
  unfold import_ansi.
  destruct (ansi_run buffer) as [s|f] eqn:Hrun; cbn [bind]; congruence.
Qed.

(** * Properties of [cacademo.c] *)

Lemma load_Some a k v : load a k = Some v <-> 0 <= k /\ a !! Z.to_nat k = Some v.
Proof.
  unfold load. destruct (Z.ltb_spec k 0); split; try (intros [? ?]); try lia;
    try discriminate; auto.
Qed.

Lemma load_in_range a k :
  0 <= k < Z.of_nat (length a) -> exists v, load a k = Some v /\ a !! Z.to_nat k = Some v.
Proof.
  intros Hk. destruct (lookup_lt_is_Some_2 a (Z.to_nat k)) as [v Hv]; [lia|].
  exists v. split; [|exact Hv]. apply load_Some. split; [lia|exact Hv].
Qed.

Lemma store_in_range a k v :
  0 <= k < Z.of_nat (length a) -> store a k v = Some (<[Z.to_nat k := v]> a).
Proof.
  intros Hk. unfold store.
  destruct (Z.leb_spec 0 k); [|lia].
  destruct (Z.ltb_spec k (Z.of_nat (length a))); [|lia]. reflexivity.
Qed.

(** ** Metaballs *)

Ltac ball_sizes :=
  unfold METASIZE, XSIZ, YSIZ in *; change (256 / 2) with 128 in *;
  change (256 - 128) with 128 in *; change (128 * 128) with 16384 in *.

Lemma ball_pos_mono b0 j j' : 0 <= j < j' -> ball_pos b0 j < ball_pos b0 j'.
Proof.
  intros Hj. unfold ball_pos. ball_sizes.
  assert ((Z.max j 1 - 1) / 128 <= (Z.max j' 1 - 1) / 128)
    by (apply Z.div_le_mono; lia).
  lia.
Qed.

Lemma ball_pos_nonneg b0 j : 0 <= b0 -> 0 <= j -> 0 <= ball_pos b0 j.
Proof.
  intros Hb Hj. unfold ball_pos. ball_sizes.
  assert (0 <= (Z.max j 1 - 1) / 128) by (apply Z.div_pos; lia). lia.
Qed.

(** The loop of [draw_ball] from iteration [k] on; [q] counts the jumps to
    the next row made so far. *)
Lemma draw_ball_loop_effect metaball screen0 b0 :
  Forall is_uint8 screen0 -> Forall is_uint8 metaball ->
  0 <= b0 ->
  b0 + 2 * (METASIZE * METASIZE) - METASIZE <= Z.of_nat (length screen0) ->
  Z.of_nat (length screen0) < 2 ^ 32 ->
  Z.of_nat (length metaball) = METASIZE * METASIZE ->
  forall n k q e screen,
  Z.of_nat n + k = METASIZE * METASIZE ->
  0 <= k -> 0 <= q -> k = METASIZE * q + e ->
  (k = 0 -> q = 0) -> (0 < k -> 1 <= e <= METASIZE) ->
  length screen = length screen0 ->
  (forall p, (Z.to_nat (b0 + k + (XSIZ - METASIZE) * q) <= p)%nat ->
             screen !! p = screen0 !! p) ->
  exists screen',
    draw_ball_loop n metaball screen k e (b0 + k + (XSIZ - METASIZE) * q)
    = Some screen'
    /\ length screen' = length screen0
    /\ (forall j m v, k <= j < METASIZE * METASIZE ->
          metaball !! Z.to_nat j = Some m ->
          screen0 !! Z.to_nat (ball_pos b0 j) = Some v ->
          screen' !! Z.to_nat (ball_pos b0 j) = Some (Z.min 255 (v + m)))
    /\ (forall p, (forall j, k <= j < METASIZE * METASIZE ->
                             p <> Z.to_nat (ball_pos b0 j)) ->
          screen' !! p = screen !! p).
Proof.
  intros Hs0 Hmeta Hb0 Hfit Hlen32 Hml.
  induction n as [|n IH]; intros k q e screen Hn Hk Hq Hke Hk0 Hkpos Hlen Hrest.
  - exists screen. cbn [draw_ball_loop]. split; [reflexivity|].
    split; [exact Hlen|]. split; [intros; lia|reflexivity].
  - cbn [draw_ball_loop]. ball_sizes.
    assert (He : 0 <= e <= 128) by (destruct (Z.eq_dec k 0); lia).
    assert (Hq127 : q <= 127) by nia.
    set (b := b0 + k + 128 * q) in *.
    assert (Hb : 0 <= b < Z.of_nat (length screen0)) by (unfold b; lia).
    assert (Hpos : ball_pos b0 k = b).
    { unfold ball_pos, b. ball_sizes. do 2 f_equal.
      destruct (Z.eq_dec k 0) as [Hk00|Hne].
      - rewrite Hk00, Hk0 by exact Hk00. reflexivity.
      - rewrite Z.max_l by lia. symmetry.
        apply (Z.div_unique _ _ _ (e - 1)); lia. }
    destruct (load_in_range screen b) as (p & -> & Hp); [rewrite Hlen; lia|].
    destruct (load_in_range metaball k) as (m & -> & Hm); [lia|].
    cbn [mbind option_bind].
    assert (Hp0 : screen0 !! Z.to_nat b = Some p) by (rewrite <- Hrest by lia; exact Hp).
    assert (Hp8 : is_uint8 p).
    { eapply (proj1 (Forall_forall _ _) Hs0), list_elem_of_lookup_2, Hp0. }
    assert (Hm8 : is_uint8 m).
    { eapply (proj1 (Forall_forall _ _) Hmeta), list_elem_of_lookup_2, Hm. }
    unfold is_uint8 in Hp8, Hm8.
    rewrite (u32_small (p + m)) by lia.
    assert (Hcol : u8 (if 255 <? p + m then 255 else p + m) = Z.min 255 (p + m)).
    { destruct (Z.ltb_spec 255 (p + m)); rewrite u8_small; lia. }
    rewrite Hcol. rewrite store_in_range by (rewrite Hlen; lia).
    cbn [mbind option_bind].
    rewrite (u32_small (k + 1)) by lia.
    set (screen1 := <[Z.to_nat b := Z.min 255 (p + m)]> screen).
    assert (Hlen1 : length screen1 = length screen0)
      by (unfold screen1; now rewrite length_insert).
    set (q' := if e =? 128 then q + 1 else q).
    set (e1 := if e =? 128 then 1 else e + 1).
    assert (Hargs : u32 ((if e =? 128 then 0 else e) + 1) = e1
                    /\ u32 ((if e =? 128 then u32 (b + u32 128) else b) + 1)
                       = b0 + (k + 1) + 128 * q'
                    /\ 0 <= q' /\ k + 1 = 128 * q' + e1 /\ 1 <= e1 <= 128
                    /\ q <= q').
    { unfold q', e1, b. destruct (Z.eqb_spec e 128).
      - rewrite (u32_small 128), (u32_small (_ + 128)) by lia.
        rewrite !u32_small by lia. lia.
      - rewrite !u32_small by lia. lia. }
    destruct Hargs as (-> & -> & Hq' & Hke' & He1 & Hqq').
    destruct (IH (k + 1) q' e1 screen1) as (screen' & Hrun & Hlen' & Hw & Hu);
      try lia; try exact Hlen1.
    { intros p' Hp'. unfold screen1.
      rewrite list_lookup_insert_ne by (unfold b; lia). apply Hrest. unfold b. lia. }
    assert (Hlater : forall j, k + 1 <= j < 16384 ->
              Z.to_nat b <> Z.to_nat (ball_pos b0 j)).
    { intros j Hj. pose proof (ball_pos_mono b0 k j ltac:(lia)).
      pose proof (ball_pos_nonneg b0 k Hb0 Hk). lia. }
    exists screen'. split; [exact Hrun|]. split; [exact Hlen'|]. split.
    + intros j mj vj Hj Hmj Hvj.
      destruct (Z.eq_dec j k) as [->|Hjk]; [|apply (Hw j); [lia|assumption..]].
      rewrite Hpos in *. rewrite Hu by exact Hlater.
      unfold screen1. rewrite list_lookup_insert_eq by lia. congruence.
    + intros p' Hp'. rewrite Hu by (intros j Hj; apply Hp'; lia).
      unfold screen1. apply list_lookup_insert_ne.
      rewrite <- Hpos. apply not_eq_sym, Hp'. lia.
Qed.

(** X17. A ball drawn at most [XSIZ - METASIZE] pixels from the left and
    from the top stays inside the pixel buffer. Each of the [METASIZE *
    METASIZE] values of the sprite is added once, to a pixel of its own, and
    the sum stops at 255; no other pixel changes. The values of a row of the
    sprite go to a row of the buffer from its second value on; the first one
    goes to the end of the row above, but for the first row. *)
Theorem draw_ball_adds metaball screen bx by_ :
  Z.of_nat (length screen) = XSIZ * YSIZ ->
  Z.of_nat (length metaball) = METASIZE * METASIZE ->
  Forall is_uint8 screen -> Forall is_uint8 metaball ->
  0 <= bx <= XSIZ - METASIZE -> 0 <= by_ <= YSIZ - METASIZE ->
  let b0 := bx + XSIZ * by_ in
  exists screen',
    draw_ball metaball screen bx by_ = Some screen'
    /\ length screen' = length screen
    /\ (forall k m v, 0 <= k < METASIZE * METASIZE ->
          metaball !! Z.to_nat k = Some m ->
          screen !! Z.to_nat (ball_pos b0 k) = Some v ->
          screen' !! Z.to_nat (ball_pos b0 k) = Some (Z.min 255 (v + m)))
    /\ (forall p, (forall k, 0 <= k < METASIZE * METASIZE ->
                             p <> Z.to_nat (ball_pos b0 k)) ->
          screen' !! p = screen !! p)
    /\ (forall x y, 0 <= x < METASIZE -> 0 <= y < METASIZE ->
          ball_pos b0 (x + METASIZE * y)
          = if (x =? 0) && (0 <? y)
            then (bx + METASIZE) + XSIZ * (by_ + y - 1)
            else (bx + x) + XSIZ * (by_ + y)).
Proof.
  intros Hlen Hml Hs Hm Hbx Hby b0.
  assert (Hb0 : 0 <= b0) by (unfold b0; ball_sizes; lia).
  assert (Hfit : b0 + 2 * (METASIZE * METASIZE) - METASIZE <= Z.of_nat (length screen))
    by (unfold b0; ball_sizes; lia).
  assert (Hlen32 : Z.of_nat (length screen) < 2 ^ 32) by (ball_sizes; lia).
  destruct (draw_ball_loop_effect metaball screen b0 Hs Hm Hb0 Hfit Hlen32 Hml
              (Z.to_nat (METASIZE * METASIZE)) 0 0 0 screen)
    as (screen' & Hrun & Hlen' & Hw & Hu);
    try (ball_sizes; lia); try reflexivity.
  replace (b0 + 0 + (XSIZ - METASIZE) * 0) with b0 in Hrun by lia.
  exists screen'. split.
  { unfold draw_ball. rewrite <- Hrun. f_equal. unfold b0. ball_sizes.
    rewrite (u32_small (by_ * 256)) by lia. rewrite u32_small by lia. lia. }
  split; [exact Hlen'|]. split; [exact Hw|]. split; [exact Hu|].
  intros x y Hx Hy. unfold ball_pos, b0. ball_sizes.
  destruct (Z.eqb_spec x 0) as [->|Hx0]; [destruct (Z.ltb_spec 0 y)|]; cbn [andb].
  - rewrite Z.max_l by lia.
    replace ((0 + 128 * y - 1) / 128) with (y - 1)
      by (apply (Z.div_unique _ _ _ 127); lia). lia.
  - replace y with 0 by lia.
    change ((Z.max (0 + 128 * 0) 1 - 1) / 128) with 0. lia.
  - rewrite Z.max_l by lia.
    replace ((x + 128 * y - 1) / 128) with y
      by (apply (Z.div_unique _ _ _ (x - 1)); lia). lia.
Qed.

(** ** The moire effect *)

Ltac disc_sizes :=
  unfold DISCSIZ, DISCTHICKNESS, XSIZ, YSIZ in *;
  change (256 * 2) with 512 in *; change (512 / 2) with 256 in *;
  change (256 * 15 / 40) with 96 in *; change (512 * 2) with 1024 in *;
  change (256 * 256) with 65536 in *.

Lemma land_lxor_distr a b c :
  Z.land (Z.lxor a b) c = Z.lxor (Z.land a c) (Z.land b c).
Proof.
  apply Z.bits_inj'. intros n _.
  rewrite Z.land_spec, !Z.lxor_spec, !Z.land_spec.
  now destruct (Z.testbit a n), (Z.testbit b n), (Z.testbit c n).
Qed.

Lemma lxor_char signed p d :
  is_uint8 p -> is_uint8 d ->
  u8 (Z.lxor p (char_of signed d)) = Z.lxor p d /\ is_uint8 (Z.lxor p d).
Proof.
  unfold is_uint8. intros Hp Hd.
  assert (Hland : forall c, c mod 2 ^ 8 = d -> u8 (Z.lxor p c) = Z.lxor p d).
  { intros c Hc. unfold u8. rewrite <- !Z.land_ones by lia.
    rewrite land_lxor_distr, !Z.land_ones by lia.
    rewrite Hc, Z.mod_small by lia. reflexivity. }
  split.
  - apply Hland. unfold char_of.
    destruct signed; cbn [andb]; [destruct (Z.leb_spec 128 d)|].
    + replace (d - 256) with (d + (-1) * 2 ^ 8) by lia.
      rewrite Z.mod_add by lia. apply Z.mod_small. lia.
    + apply Z.mod_small. lia.
    + apply Z.mod_small. lia.
  - rewrite <- (Hland d) by (apply Z.mod_small; lia).
    unfold u8. apply Z.mod_pos_bound. lia.
Qed.

Lemma put_disc_cols_effect signed disc screen0 src j :
  Forall is_uint8 screen0 -> Forall is_uint8 disc ->
  Z.of_nat (length screen0) = XSIZ * YSIZ -> 0 <= j < YSIZ ->
  0 <= src + DISCSIZ * j ->
  src + DISCSIZ * j + XSIZ <= Z.of_nat (length disc) ->
  forall n i screen,
  Z.of_nat n + i = XSIZ -> 0 <= i ->
  length screen = length screen0 ->
  (forall c, i <= c < XSIZ ->
     screen !! Z.to_nat (c + XSIZ * j) = screen0 !! Z.to_nat (c + XSIZ * j)) ->
  exists screen',
    put_disc_cols n signed disc screen src j i = Some screen'
    /\ length screen' = length screen0
    /\ (forall c p d, i <= c < XSIZ ->
          screen0 !! Z.to_nat (c + XSIZ * j) = Some p ->
          disc !! Z.to_nat (src + (c + DISCSIZ * j)) = Some d ->
          screen' !! Z.to_nat (c + XSIZ * j) = Some (Z.lxor p d))
    /\ (forall k, ~ (Z.to_nat (i + XSIZ * j) <= k < Z.to_nat (XSIZ + XSIZ * j))%nat ->
          screen' !! k = screen !! k).
Proof.
  intros Hs0 Hdisc Hlen0 Hj Hsrc0 Hsrc1.
  induction n as [|n IH]; intros i screen Hn Hi Hlen Hrest.
  - exists screen. cbn [put_disc_cols]. split; [reflexivity|].
    split; [exact Hlen|]. split; [intros; lia|reflexivity].
  - cbn [put_disc_cols]. disc_sizes.
    destruct (load_in_range screen (i + 256 * j)) as (p & -> & Hp); [lia|].
    destruct (load_in_range disc (src + (i + 512 * j))) as (d & -> & Hd); [lia|].
    cbn [mbind option_bind].
    assert (Hp0 : screen0 !! Z.to_nat (i + 256 * j) = Some p)
      by (rewrite <- Hrest by lia; exact Hp).
    assert (Hp8 : is_uint8 p).
    { eapply (proj1 (Forall_forall _ _) Hs0), list_elem_of_lookup_2, Hp0. }
    assert (Hd8 : is_uint8 d).
    { eapply (proj1 (Forall_forall _ _) Hdisc), list_elem_of_lookup_2, Hd. }
    destruct (lxor_char signed p d Hp8 Hd8) as [-> _].
    rewrite store_in_range by lia. cbn [mbind option_bind].
    set (screen1 := <[Z.to_nat (i + 256 * j) := Z.lxor p d]> screen).
    destruct (IH (i + 1) screen1) as (screen' & Hrun & Hlen' & Hw & Hu); try lia.
    { unfold screen1. rewrite length_insert. exact Hlen. }
    { intros c Hc. unfold screen1.
      rewrite list_lookup_insert_ne by lia. apply Hrest. lia. }
    exists screen'. split; [exact Hrun|]. split; [exact Hlen'|]. split.
    + intros c pc dc Hc Hpc Hdc.
      destruct (Z.eq_dec c i) as [->|Hci]; [|apply Hw; [lia|assumption..]].
      rewrite Hu by lia. unfold screen1.
      rewrite list_lookup_insert_eq by lia. congruence.
    + intros k Hk. rewrite Hu by lia. unfold screen1.
      apply list_lookup_insert_ne. lia.
Qed.

Lemma put_disc_rows_effect signed disc screen0 src :
  Forall is_uint8 screen0 -> Forall is_uint8 disc ->
  Z.of_nat (length screen0) = XSIZ * YSIZ ->
  0 <= src ->
  src + DISCSIZ * (YSIZ - 1) + XSIZ <= Z.of_nat (length disc) ->
  forall n j screen,
  Z.of_nat n + j = YSIZ -> 0 <= j ->
  length screen = length screen0 ->
  (forall k, (Z.to_nat (XSIZ * j) <= k)%nat -> screen !! k = screen0 !! k) ->
  exists screen',
    put_disc_rows n signed disc screen src j = Some screen'
    /\ length screen' = length screen0
    /\ (forall c r p d, 0 <= c < XSIZ -> j <= r < YSIZ ->
          screen0 !! Z.to_nat (c + XSIZ * r) = Some p ->
          disc !! Z.to_nat (src + (c + DISCSIZ * r)) = Some d ->
          screen' !! Z.to_nat (c + XSIZ * r) = Some (Z.lxor p d))
    /\ (forall k, (k < Z.to_nat (XSIZ * j))%nat -> screen' !! k = screen !! k).
Proof.
  intros Hs0 Hdisc Hlen0 Hsrc0 Hsrc1.
  induction n as [|n IH]; intros j screen Hn Hj Hlen Hrest.
  - exists screen. cbn [put_disc_rows]. split; [reflexivity|].
    split; [exact Hlen|]. split; [intros; lia|reflexivity].
  - cbn [put_disc_rows].
    destruct (put_disc_cols_effect signed disc screen0 src j Hs0 Hdisc Hlen0)
      with (n := Z.to_nat XSIZ) (i := 0) (screen := screen)
      as (screen1 & -> & Hlen1 & Hw1 & Hu1);
      try (disc_sizes; lia); try exact Hlen.
    { intros c Hc. apply Hrest. disc_sizes. lia. }
    cbn [mbind option_bind].
    destruct (IH (j + 1) screen1) as (screen' & Hrun & Hlen' & Hw & Hu);
      try lia; try exact Hlen1.
    { intros k Hk. rewrite Hu1 by (disc_sizes; lia). apply Hrest.
      disc_sizes. lia. }
    exists screen'. split; [exact Hrun|]. split; [exact Hlen'|]. split.
    + intros c r p d Hc Hr Hp Hd.
      destruct (Z.eq_dec r j) as [->|Hrj]; [|apply Hw; [lia|lia|assumption..]].
      rewrite Hu by (disc_sizes; lia). now apply Hw1.
    + intros k Hk. rewrite Hu by (disc_sizes; lia).
      apply Hu1. disc_sizes. lia.
Qed.

Lemma put_disc_effect signed disc screen x y :
  Z.of_nat (length screen) = XSIZ * YSIZ ->
  Z.of_nat (length disc) = DISCSIZ * DISCSIZ ->
  Forall is_uint8 screen -> Forall is_uint8 disc ->
  0 <= x <= DISCSIZ / 2 -> 0 <= y <= DISCSIZ / 2 ->
  exists screen',
    put_disc signed disc screen x y = Some screen'
    /\ length screen' = length screen
    /\ (forall c r p d, 0 <= c < XSIZ -> 0 <= r < YSIZ ->
          screen !! Z.to_nat (c + XSIZ * r) = Some p ->
          disc !! Z.to_nat (DISCSIZ / 2 - x + c + DISCSIZ * (DISCSIZ / 2 - y + r))
            = Some d ->
          screen' !! Z.to_nat (c + XSIZ * r) = Some (Z.lxor p d)).
Proof.
  intros Hlen Hdl Hs Hd Hx Hy. unfold put_disc.
  assert (Hsrc : s32 (DISCSIZ / 2 - x) + s32 (s32 (DISCSIZ / 2 - y) * DISCSIZ)
                 = DISCSIZ / 2 - x + DISCSIZ * (DISCSIZ / 2 - y)).
  { disc_sizes. rewrite (s32_small (256 - x)), (s32_small (256 - y)) by lia.
    rewrite s32_small by lia. lia. }
  rewrite Hsrc.
  destruct (put_disc_rows_effect signed disc screen
              (DISCSIZ / 2 - x + DISCSIZ * (DISCSIZ / 2 - y)) Hs Hd Hlen)
    with (n := Z.to_nat YSIZ) (j := 0) (screen := screen)
    as (screen' & Hrun & Hlen' & Hw & _);
    try (disc_sizes; lia); try reflexivity.
  exists screen'. split; [exact Hrun|]. split; [exact Hlen'|].
  intros c r p d Hc Hr Hp Hdd. apply (Hw c r p d); [assumption..|].
  rewrite <- Hdd. f_equal. lia.
Qed.

Lemma pixel_coordinates k :
  0 <= k < XSIZ * YSIZ ->
  0 <= k mod XSIZ < XSIZ /\ 0 <= k / XSIZ < YSIZ /\ k = k mod XSIZ + XSIZ * (k / XSIZ).
Proof.
  intros Hk. disc_sizes.
  pose proof (Z.mod_pos_bound k 256 ltac:(lia)).
  pose proof (Z.div_mod k 256 ltac:(lia)).
  assert (0 <= k / 256) by (apply Z.div_pos; lia).
  assert (k / 256 < 256) by (apply Z.div_lt_upper_bound; lia).
  lia.
Qed.

(** X18. With the centre at most [DISCSIZ / 2] from the left and from the
    top, [put_disc] stays inside [disc] and the screen and changes each
    pixel to its exclusive or with the byte of [disc] that lies over it,
    whether [char] is signed or not; a second call at the same place gives
    the screen back. *)
Theorem put_disc_xors signed disc screen x y :
  Z.of_nat (length screen) = XSIZ * YSIZ ->
  Z.of_nat (length disc) = DISCSIZ * DISCSIZ ->
  Forall is_uint8 screen -> Forall is_uint8 disc ->
  0 <= x <= DISCSIZ / 2 -> 0 <= y <= DISCSIZ / 2 ->
  exists screen',
    put_disc signed disc screen x y = Some screen'
    /\ length screen' = length screen
    /\ (forall c r p d, 0 <= c < XSIZ -> 0 <= r < YSIZ ->
          screen !! Z.to_nat (c + XSIZ * r) = Some p ->
          disc !! Z.to_nat (DISCSIZ / 2 - x + c + DISCSIZ * (DISCSIZ / 2 - y + r))
            = Some d ->
          screen' !! Z.to_nat (c + XSIZ * r) = Some (Z.lxor p d))
    /\ put_disc signed disc screen' x y = Some screen.
Proof.
  intros Hlen Hdl Hs Hd Hx Hy.
  destruct (put_disc_effect signed disc screen x y Hlen Hdl Hs Hd Hx Hy)
    as (screen' & Hrun & Hlen' & Hw).
  exists screen'. split; [exact Hrun|]. split; [exact Hlen'|]. split; [exact Hw|].
  assert (Hcell : forall k p, screen !! k = Some p ->
            exists d, is_uint8 p /\ is_uint8 d
              /\ disc !! Z.to_nat (DISCSIZ / 2 - x + Z.of_nat k mod XSIZ
                                   + DISCSIZ * (DISCSIZ / 2 - y + Z.of_nat k / XSIZ))
                 = Some d
              /\ screen' !! k = Some (Z.lxor p d)).
  { intros k p Hp. pose proof (lookup_lt_Some _ _ _ Hp) as Hk.
    destruct (pixel_coordinates (Z.of_nat k)) as (Hc & Hr & Hkk); [lia|].
    destruct (lookup_lt_is_Some_2 disc
                (Z.to_nat (DISCSIZ / 2 - x + Z.of_nat k mod XSIZ
                           + DISCSIZ * (DISCSIZ / 2 - y + Z.of_nat k / XSIZ))))
      as [d Hdd]; [disc_sizes; nia|].
    exists d. split.
    { eapply (proj1 (Forall_forall _ _) Hs), list_elem_of_lookup_2, Hp. }
    split.
    { eapply (proj1 (Forall_forall _ _) Hd), list_elem_of_lookup_2, Hdd. }
    split; [exact Hdd|].
    rewrite <- (Nat2Z.id k) at 1. rewrite Hkk at 1.
    apply Hw; [assumption..| |exact Hdd].
    rewrite <- Hkk, Nat2Z.id. exact Hp. }
  assert (Hs' : Forall is_uint8 screen').
  { apply Forall_lookup. intros k v Hv.
    destruct (lookup_lt_is_Some_2 screen k) as [p Hp];
      [rewrite <- Hlen'; eapply lookup_lt_Some, Hv|].
    destruct (Hcell k p Hp) as (d & Hp8 & Hd8 & _ & Hk). rewrite Hk in Hv.
    injection Hv as <-. now apply (lxor_char false). }
  destruct (put_disc_effect signed disc screen' x y) as (screen2 & Hrun2 & Hlen2 & Hw2);
    try assumption; [now rewrite Hlen'|].
  rewrite Hrun2. f_equal. apply list_eq. intros k.
  destruct (screen !! k) as [p|] eqn:Hp.
  - destruct (Hcell k p Hp) as (d & Hp8 & Hd8 & Hdd & Hk).
    pose proof (lookup_lt_Some _ _ _ Hp) as Hlt.
    destruct (pixel_coordinates (Z.of_nat k)) as (Hc & Hr & Hkk); [lia|].
    rewrite <- (Nat2Z.id k) at 1. rewrite Hkk at 1.
    rewrite (Hw2 _ _ (Z.lxor p d) d Hc Hr); [| |exact Hdd].
    + now rewrite Z.lxor_assoc, Z.lxor_nilpotent, Z.lxor_0_r.
    + rewrite <- Hkk, Nat2Z.id. exact Hk.
  - apply lookup_ge_None in Hp. apply lookup_ge_None. lia.
Qed.

Lemma memset_loop_effect v n : forall a k,
  0 <= k -> k + Z.of_nat n <= Z.of_nat (length a) ->
  exists a', memset_loop n a k v = Some a'
    /\ length a' = length a
    /\ forall p, a' !! p = if (k <=? Z.of_nat p) && (Z.of_nat p <? k + Z.of_nat n)
                           then Some v else a !! p.
Proof.
  induction n as [|n IH]; intros a k Hk Hn; cbn [memset_loop].
  - exists a. split; [reflexivity|]. split; [reflexivity|]. intros p.
    destruct (Z.leb_spec k (Z.of_nat p)); destruct (Z.ltb_spec (Z.of_nat p) (k + Z.of_nat 0));
      cbn [andb]; try reflexivity; lia.
  - rewrite store_in_range by lia. cbn [mbind option_bind].
    destruct (IH (<[Z.to_nat k := v]> a) (k + 1)) as (a' & Hrun & Hlen & Hcells);
      [lia | rewrite length_insert; lia|].
    exists a'. split; [exact Hrun|]. split; [now rewrite Hlen, length_insert|].
    intros p. rewrite Hcells.
    destruct (Z.leb_spec (k + 1) (Z.of_nat p));
      destruct (Z.ltb_spec (Z.of_nat p) (k + 1 + Z.of_nat n));
      destruct (Z.leb_spec k (Z.of_nat p));
      destruct (Z.ltb_spec (Z.of_nat p) (k + Z.of_nat (S n)));
      cbn [andb]; try reflexivity; try lia;
      try (rewrite list_lookup_insert_ne by lia; reflexivity).
    replace p with (Z.to_nat k) by lia. apply list_lookup_insert_eq. lia.
Qed.

Lemma memset_effect a k v n :
  0 <= k -> 0 <= n -> k + n <= Z.of_nat (length a) ->
  exists a', memset a k v n = Some a'
    /\ length a' = length a
    /\ forall p, a' !! p = if (k <=? Z.of_nat p) && (Z.of_nat p <? k + n)
                           then Some (u8 v) else a !! p.
Proof.
  intros Hk Hn Hfit. unfold memset. destruct (Z.ltb_spec n 0); [lia|].
  destruct (memset_loop_effect (u8 v) (Z.to_nat n) a k) as (a' & Hrun & Hlen & Hcells);
    [lia..|].
  exists a'. rewrite Z2Nat.id in Hcells by lia. now repeat split.
Qed.

Lemma disc_coordinates c r p :
  0 <= c < DISCSIZ -> 0 <= r < DISCSIZ ->
  forall r0 lo n, 0 <= r0 < DISCSIZ -> 0 <= lo -> lo + n <= DISCSIZ ->
  p = Z.to_nat (c + DISCSIZ * r) ->
  (lo + DISCSIZ * r0 <=? Z.of_nat p) && (Z.of_nat p <? lo + DISCSIZ * r0 + n)
  = (r =? r0) && (lo <=? c) && (c <? lo + n).
Proof.
  intros Hc Hr r0 lo n Hr0 Hlo Hn ->. disc_sizes.
  rewrite Z2Nat.id by lia.
  destruct (Z.eqb_spec r r0) as [->|Hne]; cbn [andb].
  - destruct (Z.leb_spec (lo + 512 * r0) (c + 512 * r0)); destruct (Z.leb_spec lo c);
      destruct (Z.ltb_spec (c + 512 * r0) (lo + 512 * r0 + n));
      destruct (Z.ltb_spec c (lo + n)); cbn [andb]; try reflexivity; lia.
  - destruct (Z.leb_spec (lo + 512 * r0) (c + 512 * r));
      destruct (Z.ltb_spec (c + 512 * r) (lo + 512 * r0 + n)); cbn [andb];
      try reflexivity; lia.
Qed.

(** X19. Called with a column and a row that are not negative,
    [draw_line] stays inside [disc]. It fills nothing when one of them is
    0 or the row is beyond [DISCSIZ / 2]; else it fills two stretches of
    [2 * x - 1] bytes, [x] cut at [DISCSIZ / 2], in the rows [y] above and
    [y - 1] below the middle, and nothing else. *)
Theorem draw_line_fills disc x y color :
  Z.of_nat (length disc) = DISCSIZ * DISCSIZ ->
  0 <= x < 2 ^ 31 -> 0 <= y < 2 ^ 31 ->
  exists disc',
    draw_line disc x y color = Some disc'
    /\ length disc' = length disc
    /\ forall c r, 0 <= c < DISCSIZ -> 0 <= r < DISCSIZ ->
         disc' !! Z.to_nat (c + DISCSIZ * r)
         = if line_covers x y c r then Some (u8 color)
           else disc !! Z.to_nat (c + DISCSIZ * r).
Proof.
  intros Hlen Hx Hy. unfold draw_line, line_covers.
  destruct ((x =? 0) || (y =? 0) || (DISCSIZ / 2 <? y)) eqn:Hskip; cbn [negb andb].
  { exists disc. now repeat split. }
  apply orb_false_iff in Hskip. destruct Hskip as [Hskip Hy256].
  apply orb_false_iff in Hskip. destruct Hskip as [Hx0 Hy0].
  apply Z.eqb_neq in Hx0, Hy0. apply Z.ltb_ge in Hy256.
  set (x' := if DISCSIZ / 2 <? x then DISCSIZ / 2 else x).
  assert (Hx' : x' = Z.min x (DISCSIZ / 2))
    by (unfold x'; destruct (Z.ltb_spec (DISCSIZ / 2) x); lia).
  rewrite <- Hx'. clearbody x'.
  assert (Hx'r : 1 <= x' <= DISCSIZ / 2) by lia.
  disc_sizes.
  rewrite (s32_small (256 - y)), (s32_small (256 + y)), (s32_small (256 + y - 1)),
    (s32_small (2 * x' - 1)) by lia.
  rewrite !s32_small by lia.
  destruct (memset_effect disc (256 - x' + 512 * (256 - y)) color (2 * x' - 1))
    as (disc1 & -> & Hlen1 & Hcells1); try lia.
  cbn [mbind option_bind].
  destruct (memset_effect disc1 (256 - x' + 512 * (256 + y - 1)) color (2 * x' - 1))
    as (disc2 & -> & Hlen2 & Hcells2); try lia.
  exists disc2. split; [reflexivity|]. split; [congruence|].
  intros c r Hc Hr. rewrite Hcells2, Hcells1.
  rewrite (disc_coordinates c r _ Hc Hr (256 + y - 1) (256 - x') (2 * x' - 1))
    by (disc_sizes; lia || reflexivity).
  rewrite (disc_coordinates c r _ Hc Hr (256 - y) (256 - x') (2 * x' - 1))
    by (disc_sizes; lia || reflexivity).
  destruct (Z.eqb_spec r (256 + y - 1)); destruct (Z.eqb_spec r (256 - y));
    destruct (Z.leb_spec (256 - x') c); destruct (Z.ltb_spec c (256 - x' + (2 * x' - 1)));
    destruct (Z.leb_spec c (256 + x' - 2)); cbn [andb orb]; try reflexivity; lia.
Qed.

Lemma draw_line_keeps (P : Z -> Prop) disc x y color :
  Z.of_nat (length disc) = DISCSIZ * DISCSIZ ->
  0 <= x < 2 ^ 31 -> 0 <= y < 2 ^ 31 ->
  P (u8 color) -> Forall P disc ->
  exists disc',
    draw_line disc x y color = Some disc'
    /\ length disc' = length disc /\ Forall P disc'.
Proof.
  intros Hlen Hx Hy Hcolor Hdisc. unfold draw_line.
  destruct ((x =? 0) || (y =? 0) || (DISCSIZ / 2 <? y)) eqn:Hskip.
  { exists disc. now repeat split. }
  apply orb_false_iff in Hskip. destruct Hskip as [Hskip Hy256].
  apply orb_false_iff in Hskip. destruct Hskip as [Hx0 Hy0].
  apply Z.eqb_neq in Hx0, Hy0. apply Z.ltb_ge in Hy256.
  set (x' := if DISCSIZ / 2 <? x then DISCSIZ / 2 else x).
  assert (Hx'r : 1 <= x' <= DISCSIZ / 2)
    by (unfold x'; destruct (Z.ltb_spec (DISCSIZ / 2) x); lia).
  clearbody x'. disc_sizes.
  rewrite (s32_small (256 - y)), (s32_small (256 + y)), (s32_small (256 + y - 1)),
    (s32_small (2 * x' - 1)) by lia.
  rewrite !s32_small by lia.
  destruct (memset_effect disc (256 - x' + 512 * (256 - y)) color (2 * x' - 1))
    as (disc1 & -> & Hlen1 & Hcells1); try lia.
  cbn [mbind option_bind].
  destruct (memset_effect disc1 (256 - x' + 512 * (256 + y - 1)) color (2 * x' - 1))
    as (disc2 & -> & Hlen2 & Hcells2); try lia.
  exists disc2. split; [reflexivity|]. split; [congruence|].
  apply Forall_lookup. intros p v. rewrite Hcells2, Hcells1.
  repeat case_match; intros Hv; try (injection Hv as <-; exact Hcolor).
  eapply (proj1 (Forall_lookup _ _) Hdisc), Hv.
Qed.

Lemma circle_loop_keeps i : 0 < i <= DISCSIZ * 2 ->
  forall n disc t dx dy,
  Z.of_nat (length disc) = DISCSIZ * DISCSIZ -> Forall is_bit disc ->
  0 <= dx -> dy <= DISCSIZ * 2 -> Z.max 0 (dy - dx + 1) < Z.of_nat n ->
  exists disc',
    circle_loop n disc i t dx dy = Some disc'
    /\ length disc' = length disc /\ Forall is_bit disc'.
Proof.
  intros Hi. induction n as [|n IH]; intros disc t dx dy Hlen Hbits Hdx Hdy Hn.
  - lia.
  - cbn [circle_loop]. destruct (Z.leb_spec dx dy) as [Hle|Hgt];
      [|exists disc; now repeat split].
    assert (Hcolor : is_bit (u8 (Z.rem (Z.quot i DISCTHICKNESS) 2))).
    { disc_sizes. rewrite Z.rem_mod_nonneg, Z.quot_div_nonneg by
        (try apply Z.quot_pos; lia).
      pose proof (Z.mod_pos_bound (i / 96) 2 ltac:(lia)).
      rewrite u8_small by lia. unfold is_bit. lia. }
    assert (Hq : forall z, 0 <= z <= DISCSIZ * 2 -> 0 <= Z.quot z 3 < 2 ^ 31).
    { intros z Hz. disc_sizes. rewrite Z.quot_div_nonneg by lia.
      split; [apply Z.div_pos; lia|].
      apply Z.div_lt_upper_bound; lia. }
    destruct (draw_line_keeps is_bit disc (Z.quot dx 3) (Z.quot dy 3)
                (Z.rem (Z.quot i DISCTHICKNESS) 2))
      as (disc1 & -> & Hlen1 & Hbits1); try assumption; try (apply Hq; lia).
    cbn [mbind option_bind].
    destruct (draw_line_keeps is_bit disc1 (Z.quot dy 3) (Z.quot dx 3)
                (Z.rem (Z.quot i DISCTHICKNESS) 2))
      as (disc2 & -> & Hlen2 & Hbits2); try assumption; try (apply Hq; lia);
      [congruence|].
    cbn [mbind option_bind].
    assert (Hdx1 : s32 (dx + 1) = dx + 1) by (disc_sizes; apply s32_small; lia).
    rewrite Hdx1.
    destruct (IH disc2 (s32 (t + (if 0 <? t then s32 (dx - dy) else dx))) (dx + 1)
                (if 0 <? t then s32 (dy - 1) else dy))
      as (disc' & Hrun & Hlen' & Hbits'); try assumption; try lia;
      try congruence.
    + destruct (0 <? t); [rewrite s32_small by (disc_sizes; lia)|]; lia.
    + destruct (0 <? t); [rewrite s32_small by (disc_sizes; lia)|]; lia.
    + exists disc'. split; [exact Hrun|]. split; [congruence|exact Hbits'].
Qed.

Lemma fill_loop_keeps : forall n disc i,
  Z.of_nat (length disc) = DISCSIZ * DISCSIZ -> Forall is_bit disc ->
  i <= DISCSIZ * 2 -> (1 <= n)%nat -> i <= DISCTHICKNESS * (Z.of_nat n - 1) ->
  exists disc',
    fill_loop n disc i = Some disc'
    /\ length disc' = length disc /\ Forall is_bit disc'.
Proof.
  induction n as [|n IH]; intros disc i Hlen Hbits Hi Hn Hfuel; [lia|].
  cbn [fill_loop]. destruct (Z.ltb_spec 0 i) as [Hpos|];
    [|exists disc; now repeat split].
  destruct (circle_loop_keeps i ltac:(lia) (Z.to_nat (i + 2)) disc 0 0 i)
    as (disc1 & Hrun1 & Hlen1 & Hbits1); try assumption; try lia.
  rewrite Hrun1. cbn [mbind option_bind].
  assert (Hi' : s32 (i - DISCTHICKNESS) = i - DISCTHICKNESS)
    by (disc_sizes; apply s32_small; lia).
  rewrite Hi'.
  destruct (IH disc1 (i - DISCTHICKNESS)) as (disc' & Hrun & Hlen' & Hbits');
    try assumption; try (disc_sizes; lia).
  exists disc'. split; [exact Hrun|]. split; [congruence|exact Hbits'].
Qed.

(** X20. The loops that fill [disc] in the case [PREPARE] come to an end
    without an access outside [disc], and every byte they leave is 0 or 1
    when every byte was. *)
Theorem fill_the_circle_bits disc :
  Z.of_nat (length disc) = DISCSIZ * DISCSIZ -> Forall is_bit disc ->
  exists disc',
    fill_the_circle disc = Some disc'
    /\ length disc' = length disc /\ Forall is_bit disc'.
Proof.
  intros Hlen Hbits. apply fill_loop_keeps; try assumption;
    disc_sizes; lia.
Qed.

Lemma is_bit_uint8 v : is_bit v -> is_uint8 v.
Proof. unfold is_bit, is_uint8. lia. Qed.

(** X21. With both centres at most [DISCSIZ / 2] from the left and from
    the top, and a [disc] of bytes that are 0 or 1, the two calls of
    [put_disc] leave a screen whose pixels are 0 or 1: a pixel is 1 where
    the bytes the two discs have over it differ. *)
Theorem draw_circles_differ signed disc x1 y1 x2 y2 :
  Z.of_nat (length disc) = DISCSIZ * DISCSIZ -> Forall is_bit disc ->
  0 <= x1 <= DISCSIZ / 2 -> 0 <= y1 <= DISCSIZ / 2 ->
  0 <= x2 <= DISCSIZ / 2 -> 0 <= y2 <= DISCSIZ / 2 ->
  exists screen,
    draw_circles signed disc x1 y1 x2 y2 = Some screen
    /\ Z.of_nat (length screen) = XSIZ * YSIZ
    /\ forall c r, 0 <= c < XSIZ -> 0 <= r < YSIZ ->
       exists d1 d2,
         disc !! Z.to_nat (DISCSIZ / 2 - x1 + c + DISCSIZ * (DISCSIZ / 2 - y1 + r))
           = Some d1
         /\ disc !! Z.to_nat (DISCSIZ / 2 - x2 + c + DISCSIZ * (DISCSIZ / 2 - y2 + r))
           = Some d2
         /\ screen !! Z.to_nat (c + XSIZ * r) = Some (if d1 =? d2 then 0 else 1).
Proof.
  intros Hlen Hbits Hx1 Hy1 Hx2 Hy2. unfold draw_circles.
  set (screen0 := replicate (Z.to_nat (XSIZ * YSIZ)) 0).
  assert (Hlen0 : Z.of_nat (length screen0) = XSIZ * YSIZ)
    by (unfold screen0; rewrite length_replicate; disc_sizes; lia).
  assert (Hd8 : Forall is_uint8 disc)
    by (eapply Forall_impl; [exact Hbits|exact is_bit_uint8]).
  assert (Hs0 : Forall is_uint8 screen0).
  { unfold screen0. apply Forall_replicate. unfold is_uint8. lia. }
  destruct (put_disc_effect signed disc screen0 x1 y1) as (screen1 & -> & Hlen1 & Hw1);
    try assumption.
  cbn [mbind option_bind].
  assert (Hdisc : forall x y c r, 0 <= x <= DISCSIZ / 2 -> 0 <= y <= DISCSIZ / 2 ->
            0 <= c < XSIZ -> 0 <= r < YSIZ ->
            exists d, disc !! Z.to_nat (DISCSIZ / 2 - x + c
                                        + DISCSIZ * (DISCSIZ / 2 - y + r)) = Some d
                      /\ is_bit d).
  { intros x y c r Hx Hy Hc Hr.
    destruct (lookup_lt_is_Some_2 disc
                (Z.to_nat (DISCSIZ / 2 - x + c + DISCSIZ * (DISCSIZ / 2 - y + r))))
      as [d Hd]; [disc_sizes; nia|].
    exists d. split; [exact Hd|].
    eapply (proj1 (Forall_lookup _ _) Hbits), Hd. }
  assert (Hpix1 : forall c r, 0 <= c < XSIZ -> 0 <= r < YSIZ ->
            forall d1, disc !! Z.to_nat (DISCSIZ / 2 - x1 + c
                                         + DISCSIZ * (DISCSIZ / 2 - y1 + r)) = Some d1 ->
            screen1 !! Z.to_nat (c + XSIZ * r) = Some d1).
  { intros c r Hc Hr d1 Hd1.
    rewrite (Hw1 c r 0 d1 Hc Hr); [reflexivity| |exact Hd1].
    unfold screen0. apply lookup_replicate_2. disc_sizes. lia. }
  assert (Hs1 : Forall is_uint8 screen1).
  { apply Forall_lookup. intros k v Hv.
    pose proof (lookup_lt_Some _ _ _ Hv) as Hk.
    destruct (pixel_coordinates (Z.of_nat k)) as (Hc & Hr & Hkk); [lia|].
    destruct (Hdisc x1 y1 _ _ Hx1 Hy1 Hc Hr) as (d1 & Hd1 & Hb1).
    rewrite <- (Nat2Z.id k), Hkk, (Hpix1 _ _ Hc Hr d1 Hd1) in Hv.
    injection Hv as <-. now apply is_bit_uint8. }
  destruct (put_disc_effect signed disc screen1 x2 y2) as (screen2 & -> & Hlen2 & Hw2);
    try assumption; [congruence|].
  exists screen2. split; [reflexivity|]. split; [congruence|].
  intros c r Hc Hr.
  destruct (Hdisc x1 y1 c r Hx1 Hy1 Hc Hr) as (d1 & Hd1 & Hb1).
  destruct (Hdisc x2 y2 c r Hx2 Hy2 Hc Hr) as (d2 & Hd2 & Hb2).
  exists d1, d2. split; [exact Hd1|]. split; [exact Hd2|].
  rewrite (Hw2 c r d1 d2 Hc Hr (Hpix1 c r Hc Hr d1 Hd1) Hd2). f_equal.
  destruct Hb1 as [-> | ->], Hb2 as [-> | ->]; reflexivity.
Qed.

(** ** Langton's ants *)

Lemma low_nibble p : Z.land p 15 = p mod 16.
Proof. change 15 with (Z.ones 4). now rewrite Z.land_ones by lia. Qed.

Lemma fade_loop_effect : forall n screen x,
  Forall is_uint8 screen -> Z.of_nat (length screen) < 2 ^ 31 ->
  0 <= x -> x + Z.of_nat n = Z.of_nat (length screen) ->
  exists screen',
    fade_loop n screen x = Some screen'
    /\ length screen' = length screen
    /\ forall k p, screen !! k = Some p ->
         screen' !! k = Some (if x <=? Z.of_nat k then faded p else p).
Proof.
  induction n as [|n IH]; intros screen x H8 Hmax Hx Hn; cbn [fade_loop].
  - exists screen. split; [reflexivity|]. split; [reflexivity|].
    intros k p Hp. pose proof (lookup_lt_Some _ _ _ Hp).
    destruct (Z.leb_spec x (Z.of_nat k)); [lia|exact Hp].
  - destruct (load_in_range screen x) as (p & -> & Hp); [lia|].
    cbn [mbind option_bind].
    assert (Hp8 : is_uint8 p)
      by (eapply (proj1 (Forall_lookup _ _) H8), Hp).
    unfold is_uint8 in Hp8. rewrite low_nibble.
    pose proof (Z.mod_pos_bound p 16 ltac:(lia)) as Hlow.
    pose proof (Z.div_mod p 16 ltac:(lia)) as Hdm.
    set (screen1 := if 1 <? p mod 16 then <[Z.to_nat x := p - 1]> screen else screen).
    assert (Hstep : (if 1 <? p mod 16 then store screen x (u8 (p - 1)) else Some screen)
                    = Some screen1).
    { unfold screen1. destruct (Z.ltb_spec 1 (p mod 16)); [|reflexivity].
      assert (0 <= p / 16) by (apply Z.div_pos; lia).
      rewrite u8_small by lia. apply store_in_range. lia. }
    rewrite Hstep. cbn [mbind option_bind]. rewrite s32_small by lia.
    assert (Hlen1 : length screen1 = length screen)
      by (unfold screen1; destruct (1 <? p mod 16); [apply length_insert|reflexivity]).
    assert (Hcell1 : forall k q, screen !! k = Some q ->
              screen1 !! k = Some (if Z.of_nat k =? x then faded q else q)).
    { intros k q Hq. unfold screen1, faded.
      destruct (Z.eqb_spec (Z.of_nat k) x) as [Hkx|Hkx].
      - assert (q = p) by (rewrite <- Hkx, Nat2Z.id in Hp; congruence). subst q.
        destruct (1 <? p mod 16); [|rewrite <- Hkx, Nat2Z.id in Hp; exact Hp].
        rewrite <- Hkx, Nat2Z.id. apply list_lookup_insert_eq.
        now apply lookup_lt_Some in Hq.
      - destruct (1 <? p mod 16); [|exact Hq].
        rewrite list_lookup_insert_ne by lia. exact Hq. }
    destruct (IH screen1 (x + 1)) as (screen' & Hrun & Hlen' & Hcells); try lia.
    { apply Forall_lookup. intros k v Hv.
      destruct (lookup_lt_is_Some_2 screen k) as [q Hq];
        [rewrite <- Hlen1; eapply lookup_lt_Some, Hv|].
      rewrite (Hcell1 k q Hq) in Hv. injection Hv as <-.
      assert (Hq8 : is_uint8 q) by (eapply (proj1 (Forall_lookup _ _) H8), Hq).
      unfold is_uint8, faded in *.
      pose proof (Z.mod_pos_bound q 16 ltac:(lia)).
      pose proof (Z.div_mod q 16 ltac:(lia)).
      assert (0 <= q / 16) by (apply Z.div_pos; lia).
      destruct (Z.of_nat k =? x); [|lia].
      destruct (Z.ltb_spec 1 (q mod 16)); lia. }
    exists screen'. split; [exact Hrun|]. split; [congruence|].
    intros k q Hq. rewrite (Hcells k _ (Hcell1 k q Hq)). f_equal.
    destruct (Z.eqb_spec (Z.of_nat k) x); destruct (Z.leb_spec (x + 1) (Z.of_nat k));
      destruct (Z.leb_spec x (Z.of_nat k)); try reflexivity; lia.
Qed.

Lemma faded_uint8 p : is_uint8 p -> is_uint8 (faded p).
Proof.
  unfold is_uint8, faded. intros Hp.
  pose proof (Z.mod_pos_bound p 16 ltac:(lia)).
  pose proof (Z.div_mod p 16 ltac:(lia)).
  assert (0 <= p / 16) by (apply Z.div_pos; lia).
  destruct (Z.ltb_spec 1 (p mod 16)); lia.
Qed.

(** X22. One pass of the fading loop over a screen of bytes takes 1 off
    every cell whose low four bits are above 1 and leaves the others: the
    high four bits, the owner of a trail, stay, and the low four stop at 1,
    so that no marked cell becomes unmarked. *)
Theorem fade_stops_at_one screen :
  Forall is_uint8 screen -> Z.of_nat (length screen) < 2 ^ 31 ->
  fade_loop (length screen) screen 0 = Some (map faded screen)
  /\ forall p, is_uint8 p ->
       faded p / 16 = p / 16
       /\ faded p mod 16 = (if p mod 16 =? 0 then 0 else Z.max 1 (p mod 16 - 1)).
Proof.
  intros H8 Hmax. split.
  - destruct (fade_loop_effect (length screen) screen 0 H8 Hmax)
      as (screen' & -> & Hlen & Hcells); [lia..|].
    f_equal. apply list_eq. intros k. rewrite list_lookup_fmap.
    destruct (screen !! k) as [p|] eqn:Hp; cbn [fmap option_fmap option_map].
    + rewrite (Hcells k p Hp). now destruct (Z.leb_spec 0 (Z.of_nat k)); [|lia].
    + apply lookup_ge_None in Hp. apply lookup_ge_None. lia.
  - intros p Hp. unfold is_uint8, faded in *.
    pose proof (Z.mod_pos_bound p 16 ltac:(lia)) as Hlow.
    pose proof (Z.div_mod p 16 ltac:(lia)) as Hdm.
    destruct (Z.ltb_spec 1 (p mod 16)) as [Hgt|Hle].
    + assert (Hq : (p - 1) / 16 = p / 16)
        by (symmetry; apply (Z.div_unique _ _ _ (p mod 16 - 1)); lia).
      assert (Hr : (p - 1) mod 16 = p mod 16 - 1)
        by (symmetry; apply (Z.mod_unique _ _ (p / 16)); lia).
      rewrite Hq, Hr. split; [reflexivity|].
      destruct (Z.eqb_spec (p mod 16) 0); lia.
    + split; [reflexivity|]. destruct (Z.eqb_spec (p mod 16) 0); lia.
Qed.

Lemma lookup_in_range {A} (P : A -> Prop) (l : list A) (a : Z) :
  Forall P l -> 0 <= a < Z.of_nat (length l) ->
  exists v, l !! Z.to_nat a = Some v /\ P v.
Proof.
  intros HP Ha. destruct (lookup_lt_is_Some_2 l (Z.to_nat a)) as [v Hv]; [lia|].
  exists v. split; [exact Hv|]. eapply (proj1 (Forall_lookup _ _) HP), Hv.
Qed.

Lemma c_mod_Some a b : b <> 0 -> c_mod a b = Some (Z.rem a b).
Proof. intros Hb. unfold c_mod. now destruct (Z.eqb_spec b 0). Qed.

Lemma ants_loop_keeps width height : forall n st a,
  ants_on_screen width height st -> 0 <= a -> a + Z.of_nat n = ANTS ->
  exists st', ants_loop n width height st a = Some st'
              /\ ants_on_screen width height st'.
Proof.
  induction n as [|n IH]; intros st a Hinv Ha Hn; cbn [ants_loop].
  - now exists st.
  - destruct Hinv as (Hw & Hh & Hwh & Hsl & Hs8 & Hxl & Hxr & Hyl & Hyr & Hdl & Hdr).
    unfold ANTS in *.
    destruct (lookup_in_range _ _ a Hxr) as (x & Hx & Hxb); [lia|].
    destruct (lookup_in_range _ _ a Hyr) as (y & Hy & Hyb); [lia|].
    destruct (lookup_in_range _ _ a Hdr) as (d & Hd & Hdb); [lia|].
    rewrite (proj2 (load_Some _ _ _) (conj Ha Hx)),
            (proj2 (load_Some _ _ _) (conj Ha Hy)),
            (proj2 (load_Some _ _ _) (conj Ha Hd)).
    cbn [mbind option_bind].
    assert (Hk : 0 <= x + width * y < width * height) by nia.
    rewrite (s32_small (width * y)) by nia.
    rewrite (s32_small (x + width * y)) by lia.
    destruct (load_in_range (l_screen st) (x + width * y)) as (p & -> & Hp); [lia|].
    cbn [mbind option_bind].
    set (marked := negb (Z.land p 15 =? 0)).
    set (turn := if marked then 1 else 3).
    assert (Hturn : 1 <= turn <= 3) by (unfold turn; destruct marked; lia).
    rewrite (s32_small (d + turn)) by lia.
    rewrite (c_mod_Some (d + turn) 4) by lia.
    cbn [mbind option_bind].
    pose proof (Z.rem_bound_pos (d + turn) 4 ltac:(lia) ltac:(lia)) as Hd'.
    set (d' := Z.rem (d + turn) 4) in *.
    rewrite (store_in_range (l_dir st)) by lia. cbn [mbind option_bind].
    rewrite (store_in_range (l_screen st)) by lia. cbn [mbind option_bind].
    destruct (Z.ltb_spec d' 0); [lia|].
    assert (Hstep : exists sx sy, steps !! Z.to_nat d' = Some (sx, sy)
                                  /\ -1 <= sx <= 1 /\ -1 <= sy <= 1).
    { assert (Hcases : d' = 0 \/ d' = 1 \/ d' = 2 \/ d' = 3) by lia.
      destruct Hcases as [-> | [-> | [-> | ->]]]; cbn; eexists _, _;
        (split; [reflexivity|lia]). }
    destruct Hstep as (sx & sy & -> & Hsx & Hsy). cbn [mbind option_bind fst snd].
    rewrite (s32_small (width + x)), (s32_small (height + y)) by lia.
    rewrite (s32_small (width + x + sx)), (s32_small (height + y + sy)) by lia.
    rewrite (c_mod_Some _ width), (c_mod_Some _ height) by lia.
    cbn [mbind option_bind].
    pose proof (Z.rem_bound_pos (width + x + sx) width ltac:(lia) ltac:(lia)) as Hx'.
    pose proof (Z.rem_bound_pos (height + y + sy) height ltac:(lia) ltac:(lia)) as Hy'.
    rewrite (store_in_range (l_ax st)) by lia. cbn [mbind option_bind].
    rewrite (store_in_range (l_ay st)) by lia. cbn [mbind option_bind].
    rewrite s32_small by lia.
    apply IH; [|lia|lia].
    unfold ants_on_screen. cbn [l_screen l_ax l_ay l_dir].
    rewrite !length_insert.
    repeat split; try assumption; try lia; apply Forall_insert; try assumption.
    unfold is_uint8, u8. apply Z.mod_pos_bound. lia.
Qed.

Lemma langton_iter_keeps width height : forall n st,
  ants_on_screen width height st ->
  exists st', langton_iter n width height st = Some st'
              /\ ants_on_screen width height st'.
Proof.
  induction n as [|n IH]; intros st Hinv; cbn [langton_iter]; [now exists st|].
  pose proof Hinv as (Hw & Hh & Hwh & Hsl & Hs8 & Hxl & Hxr & Hyl & Hyr & Hdl & Hdr).
  rewrite s32_small by nia.
  destruct (fade_loop_effect (Z.to_nat (width * height)) (l_screen st) 0)
    as (screen1 & -> & Hlen1 & Hcells); try assumption; try lia.
  cbn [mbind option_bind].
  destruct (ants_loop_keeps width height (Z.to_nat ANTS)
              {| l_screen := screen1; l_ax := l_ax st; l_ay := l_ay st;
                 l_dir := l_dir st |} 0) as (st1 & -> & Hinv1);
    [|lia|unfold ANTS; lia|].
  { unfold ants_on_screen. cbn [l_screen l_ax l_ay l_dir].
    repeat split; try assumption; try lia.
    apply Forall_lookup. intros k v Hv.
    destruct (lookup_lt_is_Some_2 (l_screen st) k) as [q Hq];
      [rewrite <- Hlen1; eapply lookup_lt_Some, Hv|].
    rewrite (Hcells k q Hq) in Hv. injection Hv as <-.
    assert (Hq8 : is_uint8 q) by (eapply (proj1 (Forall_lookup _ _) Hs8), Hq).
    destruct (0 <=? Z.of_nat k); [now apply faded_uint8|exact Hq8]. }
  cbn [mbind option_bind]. now apply IH.
Qed.

(** X23. With a screen of [width * height] bytes and every ant on a cell
    of it, heading one of the four ways, [UPDATE] makes no access outside
    the screen or the arrays of the ants and divides by nothing that is 0,
    and it leaves the ants on cells of the screen, heading one of the four
    ways: the next [UPDATE] finds what this one found. *)
Theorem langton_update_keeps_ants width height st :
  ants_on_screen width height st ->
  exists st', langton_update width height st = Some st'
              /\ ants_on_screen width height st'.
Proof. apply langton_iter_keeps. Qed.

(** ** The matrix effect *)

Lemma render_drop_loop_inside d x y : forall n j,
  0 < d_len d <= Z.of_nat (length (d_str d)) -> d_len d < 2 ^ 31 ->
  0 <= j -> j + Z.of_nat n = d_len d -> d_len d - 1 <= y < 2 ^ 31 ->
  exists calls,
    render_drop_loop n d x y j = Some calls
    /\ length calls = n
    /\ forall k c, calls !! k = Some c ->
         dr_x c = x /\ dr_y c = y - (j + Z.of_nat k)
         /\ d_str d !! Z.to_nat ((y - (j + Z.of_nat k)) mod d_len d) = Some (dr_ch c)
         /\ (j + Z.of_nat k < 2 <-> dr_fg c = DROP_WHITE).
Proof.
  induction n as [|n IH]; intros j Hlen Hmax Hj Hn Hy; cbn [render_drop_loop].
  - exists []. split; [reflexivity|]. split; [reflexivity|]. intros k c Hk.
    discriminate.
  - rewrite (s32_small (y - j)), (s32_small (j + 1)) by lia.
    rewrite c_mod_Some by lia. cbn [mbind option_bind].
    rewrite Z.rem_mod_nonneg by lia.
    pose proof (Z.mod_pos_bound (y - j) (d_len d) ltac:(lia)) as Hk.
    destruct (load_in_range (d_str d) ((y - j) mod d_len d)) as (ch & -> & Hch); [lia|].
    cbn [mbind option_bind].
    destruct (IH (j + 1)) as (rest & -> & Hrest & Hcalls); try lia.
    cbn [mbind option_bind]. eexists. split; [reflexivity|].
    split; [cbn [length]; now rewrite Hrest|].
    intros [|k] c Hc.
    + injection Hc as <-. cbn [dr_x dr_y dr_ch dr_fg].
      rewrite Z.add_0_r. repeat split; try exact Hch.
      * intros Hj2. destruct (Z.ltb_spec j 2); [reflexivity|lia].
      * destruct (Z.ltb_spec j 2); [lia|]. repeat case_match; discriminate.
    + cbn [lookup list_lookup] in Hc. destruct (Hcalls k c Hc) as (Hx & Hyy & Hs & Hw).
      replace (j + Z.of_nat (S k)) with (j + 1 + Z.of_nat k) by lia.
      split; [exact Hx|]. split; [exact Hyy|]. split; [exact Hs|exact Hw].
Qed.

Lemma render_drop_loop_outside d x y : forall n j,
  0 < d_len d < 2 ^ 31 -> 0 <= j -> 0 <= y ->
  (1 <= n)%nat -> y < j + Z.of_nat n - 1 -> j + Z.of_nat n <= d_len d ->
  render_drop_loop n d x y j = None.
Proof.
  induction n as [|n IH]; intros j Hlen Hj Hy Hn1 Hn Hjn; [lia|].
  cbn [render_drop_loop].
  rewrite (s32_small (y - j)), (s32_small (j + 1)) by lia.
  rewrite c_mod_Some by lia. cbn [mbind option_bind].
  destruct (Z.le_gt_cases j y) as [Hle|Hgt].
  - rewrite Z.rem_mod_nonneg by lia.
    destruct (load (d_str d) ((y - j) mod d_len d)); [|reflexivity].
    cbn [mbind option_bind]. rewrite IH by lia. reflexivity.
  - assert (Hneg : Z.rem (y - j) (d_len d) = y - j).
    { replace (y - j) with (- (j - y)) by lia.
      rewrite Z.rem_opp_l by lia. rewrite Z.rem_small by lia. reflexivity. }
    rewrite Hneg. unfold load. destruct (Z.ltb_spec (y - j) 0); [reflexivity|lia].
Qed.

(** X24. For a drop as [PREPARE] and [UPDATE] leave it, on a canvas at most
    30000 rows tall: when the head of the drop is on row [len - 1] or
    below, the loop of [RENDER] draws its [len] characters upwards from the
    head, the first two in white, each read from [str] at the row modulo
    [len]; when the head is above row [len - 1], the loop reads [str] before
    its first byte, the remainder of a negative row being negative. *)
Theorem render_drop_near_the_top w h d :
  drop_ok d -> 0 <= w <= 30000 -> 0 <= h <= 30000 ->
  (d_len d - 1 <= head_row h d ->
   exists calls,
     render_drop w h d = Some calls
     /\ Z.of_nat (length calls) = d_len d
     /\ forall k c, calls !! k = Some c ->
          dr_y c = head_row h d - Z.of_nat k
          /\ d_str d !! Z.to_nat ((head_row h d - Z.of_nat k) mod d_len d)
             = Some (dr_ch c)
          /\ (Z.of_nat k < 2 <-> dr_fg c = DROP_WHITE))
  /\ (head_row h d < d_len d - 1 -> render_drop w h d = None).
Proof.
  intros (Hx & Hy & Hlen & Hstr) Hw Hh. unfold MINLEN, MAXLEN in *.
  unfold render_drop, head_row, MAXLEN.
  rewrite (s32_small (h + 30)) by lia.
  rewrite (s32_small (d_y d * (h + 30))) by nia.
  rewrite (Z.quot_div_nonneg (d_y d * (h + 30))) by nia.
  assert (Hrow : 0 <= d_y d * (h + 30) / 1000 <= 30030).
  { split; [apply Z.div_pos; nia|].
    apply Z.div_le_upper_bound; nia. }
  split.
  - intros Hhead.
    destruct (render_drop_loop_inside d
                (s32 (Z.quot (Z.quot (s32 (d_x d * w)) 1000) 2 * 2))
                (d_y d * (h + 30) / 1000) (Z.to_nat (d_len d)) 0)
      as (calls & Hrun & Hcount & Hcalls); try lia.
    exists calls. split; [exact Hrun|]. split; [lia|].
    intros k c Hc. destruct (Hcalls k c Hc) as (_ & Hyy & Hs & Hwhite).
    rewrite Z.add_0_l in *.
    split; [exact Hyy|]. split; [exact Hs|exact Hwhite].
  - intros Hhead. apply render_drop_loop_outside; lia.
Qed.

End MoreProperties.

(** * The properties at concrete inputs *)

#[local] Existing Instance libcucul.

(** The assignment [libcucul] is a palette as the spec describes it. *)
Lemma libcucul_palette_ok : palette_ok.
Proof. split; unfold base_colour; cbn; lia. Qed.

(** C1 at the four bytes "CACB". *)
Lemma autodetected_caca_is_rejected_witness :
  caca_signature cacb
  /\ (autodetect cacb = Ok Caca /\ import_caca cacb = Ok None
      /\ cucul_import_canvas cacb "" = Ok None).
Proof.
  assert (Hsig : caca_signature cacb).
  { unfold caca_signature, sizeof. cbn. repeat split; try lia. discriminate. }
  split; [exact Hsig | exact (autodetected_caca_is_rejected cacb Hsig)].
Defined.

(** C2, at its failing input. After ESC [ 1;7;31 m the command ESC [ m
    has an empty tuple, no argument is counted for it, and it changes
    nothing: bold and reverse stay set, the colours stay bright red on dark
    gray and the canvas keeps that pair reversed, where ESC [ 0 m turns bold
    and reverse off and makes the colours and the canvas colour the
    default. The cursor commands of the same [switch] do put their default
    in the place of the missing argument: ESC [ A moves one row up, as
    ESC [ 1 A does. *)
Theorem sgr_empty_tuple_is_not_code_0 :
  observe (fun r => count_args 1024 (snd r) 0)
          (parse_tuple (offset (bold_reverse_red ++ esc_m) 11)
                       (sizeof (bold_reverse_red ++ esc_m) - 11))
  = Ok (Ok 0)
  /\ observe colours (ansi_run (bold_reverse_red ++ esc_m))
     = observe colours (ansi_run bold_reverse_red)
  /\ observe colours (ansi_run (bold_reverse_red ++ esc_m))
     = Ok ({| fg := 12; bg := 8; save_fg := 7; save_bg := 0; bold := 1;
              reverse := 1 |}, (8, 12))
  /\ observe colours (ansi_run (bold_reverse_red ++ [ESC; "["; "0"; "m"]%byte))
     = Ok ({| fg := 16; bg := 16; save_fg := 7; save_bg := 0; bold := 0;
              reverse := 0 |}, (16, 16))
  /\ observe a_y (ansi_run up_default) = Ok 2
  /\ observe a_y (ansi_run up_1) = Ok 2.
Proof. repeat split; vm_compute; reflexivity. Qed.

(** C3 fails as stated: after ESC [ 1;31 m the pair that ESC [ 8 m saves
    is bright red on dark gray (red + 8, black + 8), not the base colours. *)
Lemma bold_promotion_is_observed :
  observe (fun s => (save_fg (a_mod s), save_bg (a_mod s)))
          (ansi_run bold_red_invisible)
  = Ok (CUCUL_COLOR_RED + 8, CUCUL_COLOR_BLACK + 8).
Proof. vm_compute. reflexivity. Qed.

(** C3, as amended, at the command ESC [ 1;31 m in the initial state:
    red, 4, is stored as 12 and black, 0, as 8. *)
Lemma bold_promotion_is_stored_witness :
  uint8_modifiers (a_mod ansi_start)
  /\ Z.of_nat (length codes_1_31) < 2 ^ 31
  /\ (forall k c, codes_1_31 !! k = Some c -> argv_1_31 !! Z.of_nat k = Some c)
  /\ argv_8 !! 0 = Some 8
  /\ let m0 := fold_left (fun m c => manage_modifiers (s32 c) m) codes_1_31
                         (a_mod ansi_start) in
     let bright v := if negb (bold m0 =? 0) && (v <? 8) then v + 8 else v in
     exists s' s8,
       dispatch 109 (Z.of_nat (length codes_1_31)) argv_1_31 ansi_start = Ok s'
       /\ fg (a_mod s') = bright (fg m0) /\ bg (a_mod s') = bright (bg m0)
       /\ bold (a_mod s') = bold m0 /\ reverse (a_mod s') = reverse m0
       /\ save_fg (a_mod s') = save_fg m0 /\ save_bg (a_mod s') = save_bg m0
       /\ (bold (a_mod s') = 0 \/ (8 <= fg (a_mod s') /\ 8 <= bg (a_mod s')))
       /\ cv_fgcolor (a_cv s')
          = (if reverse m0 =? 0 then bright (fg m0) else bright (bg m0))
       /\ cv_bgcolor (a_cv s')
          = (if reverse m0 =? 0 then bright (bg m0) else bright (fg m0))
       /\ dispatch 109 1 argv_8 s' = Ok s8
       /\ save_fg (a_mod s8) = bright (fg m0) /\ save_bg (a_mod s8) = bright (bg m0)
       /\ (forall m, manage_modifiers 1 m
                     = {| fg := fg m; bg := bg m; save_fg := save_fg m;
                          save_bg := save_bg m; bold := 1; reverse := reverse m |}).
Proof.
  assert (Hm : uint8_modifiers (a_mod ansi_start))
    by (vm_compute; repeat split; discriminate).
  assert (Hlen : Z.of_nat (length codes_1_31) < 2 ^ 31) by (vm_compute; reflexivity).
  assert (Hargv : forall k c, codes_1_31 !! k = Some c ->
                              argv_1_31 !! Z.of_nat k = Some c).
  { intros [|[|k]] c Hk; try discriminate; injection Hk as <-;
      vm_compute; reflexivity. }
  assert (H8 : argv_8 !! 0 = Some 8) by (vm_compute; reflexivity).
  repeat (split; [assumption|]).
  exact (bold_promotion_is_stored ansi_start codes_1_31 argv_1_31 argv_8
           Hm Hlen Hargv H8).
Defined.

(** C4 fails as stated: "CACA" starts with 'C' 'A' 'C' and its fourth
    byte differs from the first byte of that signature, yet it is
    imported as text, not by the native decoder. *)
Lemma autodetect_caca_fourth_byte :
  take 3 caca = ["C"; "A"; "C"]%byte
  /\ caca !! 3%nat <> Some "C"%byte
  /\ autodetect caca = Ok Text
  /\ cucul_import_canvas caca "" = import_text caca.
Proof. repeat split. discriminate. Qed.

(** C4, as amended, at the three bytes ESC [ m. *)
Lemma autodetect_priority_witness :
  0 < sizeof esc_m < 2 ^ 32
  /\ exists f, autodetect esc_m = Ok f
    /\ cucul_import_canvas esc_m "" = run_importer f esc_m
    /\ (f = Caca <-> caca_signature esc_m)
    /\ (f = Ansi <-> ~ caca_signature esc_m /\ has_csi esc_m)
    /\ (f = Text <-> ~ caca_signature esc_m /\ ~ has_csi esc_m).
Proof.
  assert (Hsize : 0 < sizeof esc_m < 2 ^ 32) by (vm_compute; split; reflexivity).
  split; [exact Hsize | exact (autodetect_priority esc_m Hsize)].
Defined.




(** ** The further properties at concrete inputs *)

(** X2 at the empty buffer. *)
Lemma import_rejects_witness :
  ((@nil byte) = [] \/ lower "ansi" ∉ ["caca"; "text"; "ansi"; ""]%string)
  /\ cucul_import_canvas (@nil byte) "ansi" = Ok None.
Proof.
  assert (Hin : (@nil byte) = [] \/ lower "ansi" ∉ ["caca"; "text"; "ansi"; ""]%string)
    by (left; reflexivity).
  split; [exact Hin | exact (import_rejects [] "ansi" Hin)].
Defined.

(** X3 at the three bytes ESC [ m and the format "ansi". *)
Lemma import_list_is_accepted_witness :
  0 < sizeof esc_m < 2 ^ 32
  /\ "ansi"%string ∈ format_values cucul_get_import_list
  /\ ((("ansi" = "")%string
       /\ exists f, autodetect esc_m = Ok f
                    /\ cucul_import_canvas esc_m "ansi" = run_importer f esc_m)
      \/ (("ansi" = "text")%string
          /\ cucul_import_canvas esc_m "ansi" = import_text esc_m)
      \/ (("ansi" = "caca")%string
          /\ cucul_import_canvas esc_m "ansi" = import_caca esc_m)
      \/ (("ansi" = "ansi")%string
          /\ cucul_import_canvas esc_m "ansi" = import_ansi esc_m)).
Proof.
  assert (Hsize : 0 < sizeof esc_m < 2 ^ 32) by (vm_compute; split; reflexivity).
  assert (Hin : "ansi"%string ∈ format_values cucul_get_import_list)
    by (cbn; do 3 apply list_elem_of_further; apply list_elem_of_here).
  split; [exact Hsize|]. split; [exact Hin|].
  exact (import_list_is_accepted esc_m "ansi" Hsize Hin).
Defined.

(** X4 at the 1 x 1 native file. *)
Lemma import_caca_decodes_witness :
  take 8 caca_1x1 = ["C"; "A"; "C"; "A"; "C"; "A"; "N"; "V"]%byte
  /\ be32 caca_1x1 8 = Ok 1 /\ be32 caca_1x1 12 = Ok 1
  /\ sizeof caca_1x1 = 16 + 1 * 1 * 8 /\ sizeof caca_1x1 < 2 ^ 32
  /\ exists cv, import_caca caca_1x1 = Ok (Some cv)
       /\ cv_width cv = 1 /\ cv_height cv = 1
       /\ forall n, 0 <= n < 1 * 1 ->
            be32 caca_1x1 (16 + 8 * n) = Ok (cv_chars cv n)
            /\ be32 caca_1x1 (16 + 8 * n + 4) = Ok (cv_attr cv n).
Proof.
  assert (Hmagic : take 8 caca_1x1 = ["C"; "A"; "C"; "A"; "C"; "A"; "N"; "V"]%byte)
    by reflexivity.
  assert (Hw : be32 caca_1x1 8 = Ok 1) by (vm_compute; reflexivity).
  assert (Hh : be32 caca_1x1 12 = Ok 1) by (vm_compute; reflexivity).
  assert (Hlen : sizeof caca_1x1 = 16 + 1 * 1 * 8) by (vm_compute; reflexivity).
  assert (Hmax : sizeof caca_1x1 < 2 ^ 32) by (vm_compute; reflexivity).
  repeat (split; [assumption|]).
  exact (import_caca_decodes caca_1x1 1 1 Hmagic Hw Hh ltac:(lia) ltac:(lia) Hlen Hmax).
Defined.

(** X5 at the three lines "A", "BB", "CCC". *)
Lemma import_text_rows_witness :
  sizeof a_nl_bb_nl_ccc < 2 ^ 31
  /\ exists cv, import_text a_nl_bb_nl_ccc = Ok (Some cv)
       /\ cv_width cv = Z.max 1 (max_len (text_lines (map byte_val a_nl_bb_nl_ccc)))
       /\ cv_height cv = Z.max 1 (used_rows (text_lines (map byte_val a_nl_bb_nl_ccc)))
       /\ forall x y, 0 <= x < cv_width cv -> 0 <= y < cv_height cv ->
            cell_char cv x y = line_char (text_lines (map byte_val a_nl_bb_nl_ccc)) x y.
Proof.
  assert (Hsize : sizeof a_nl_bb_nl_ccc < 2 ^ 31) by (vm_compute; reflexivity).
  split; [exact Hsize | exact (import_text_rows a_nl_bb_nl_ccc Hsize)].
Defined.

(** The numbers 1 and 31 are numbers [parse_tuple] can take, and neither
    is [END_ARG]. *)
Lemma one_and_31_good : Forall good_number one_and_31.
Proof.
  repeat constructor; try discriminate;
    try (vm_compute; intuition discriminate); vm_compute; reflexivity.
Defined.

Lemma one_and_31_not_END_ARG :
  Forall (fun ds => decimal ds <> END_ARG) one_and_31.
Proof. repeat constructor; vm_compute; discriminate. Defined.

(** X7 at the tuple of ESC [ 1;31 m. *)
Lemma parse_tuple_numbers_witness :
  Forall good_number one_and_31 /\ Z.of_nat (length one_and_31) <= 1023
  /\ IS_ALPHA (byte_val "m") = true /\ sizeof (tuple_bytes one_and_31) < 5
  /\ exists argv,
       parse_tuple (tuple_bytes one_and_31 ++ "m"%byte :: []) 5
       = Ok (sizeof (tuple_bytes one_and_31), argv)
       /\ (forall k ds, one_and_31 !! k = Some ds ->
             argv !! Z.of_nat k = Some (decimal ds))
       /\ argv !! Z.of_nat (length one_and_31) = Some END_ARG
       /\ (Forall (fun ds => decimal ds <> END_ARG) one_and_31 ->
           count_args 1024 argv 0 = Ok (Z.of_nat (length one_and_31))).
Proof.
  assert (Hlen : Z.of_nat (length one_and_31) <= 1023) by (vm_compute; discriminate).
  assert (Halpha : IS_ALPHA (byte_val "m") = true) by reflexivity.
  assert (Hsize : sizeof (tuple_bytes one_and_31) < 5) by (vm_compute; reflexivity).
  split; [exact one_and_31_good|]. repeat (split; [assumption|]).
  exact (parse_tuple_numbers one_and_31 "m" [] 5 one_and_31_good Hlen Halpha Hsize).
Defined.

(** X8 at ESC [ 1;31 m H i: a command and two pasted characters. *)
Lemma import_ansi_width_witness :
  import_ansi red_hi = Ok (Some (a_cv red_hi_pasted))
  /\ cv_width (a_cv red_hi_pasted) = 80.
Proof.
  assert (Himp : import_ansi red_hi = Ok (Some (a_cv red_hi_pasted)))
    by (vm_compute; reflexivity).
  split; [exact Himp | exact (import_ansi_width red_hi (a_cv red_hi_pasted) Himp)].
Defined.

Lemma hi_plain : Forall plain_byte hi.
Proof. repeat constructor; vm_compute; discriminate. Defined.

(** X9 at the two bytes "Hi". *)
Lemma import_ansi_plain_witness :
  sizeof hi < 2 ^ 31 /\ Forall plain_byte hi
  /\ exists cv, import_ansi hi = Ok (Some cv)
       /\ cv_width cv = 80
       /\ cv_height cv = Z.max 25 ((sizeof hi + 79) / 80)
       /\ forall k b, hi !! k = Some b ->
            cv_chars cv (Z.of_nat k) = _cucul_cp437_to_utf32 (byte_val b).
Proof.
  assert (Hsize : sizeof hi < 2 ^ 31) by (vm_compute; reflexivity).
  split; [exact Hsize|]. split; [exact hi_plain|].
  exact (import_ansi_plain hi Hsize hi_plain).
Defined.

(** X10 at the single byte ESC. *)
Lemma import_ansi_overread_witness :
  sizeof [ESC] < 2 ^ 31 /\ import_ansi [ESC] = Fault (BufferOverread 1)
  /\ (1 = sizeof [ESC] /\ last [ESC] = Some ESC).
Proof.
  assert (Hsize : sizeof [ESC] < 2 ^ 31) by (vm_compute; reflexivity).
  assert (Himp : import_ansi [ESC] = Fault (BufferOverread 1))
    by (vm_compute; reflexivity).
  split; [exact Hsize|]. split; [exact Himp|].
  exact (import_ansi_overread [ESC] 1 Hsize Himp).
Defined.

(** X11 at the command ESC [ 1;31 m in the initial state. *)
Lemma ansi_body_sequence_witness :
  sizeof esc_1_31_m < 2 ^ 31 /\ a_i ansi_start = sizeof (@nil byte)
  /\ Forall good_number one_and_31 /\ Z.of_nat (length one_and_31) <= 1023
  /\ Forall (fun ds => decimal ds <> END_ARG) one_and_31
  /\ IS_ALPHA (byte_val "m") = true
  /\ exists argv,
       (forall k ds, one_and_31 !! k = Some ds ->
          argv !! Z.of_nat k = Some (decimal ds))
       /\ ansi_body esc_1_31_m ansi_start
          = do s' <- dispatch (byte_val "m") (Z.of_nat (length one_and_31)) argv
                              ansi_start;
            Ok (Some (with_i (sizeof (@nil byte) + 3 + sizeof (tuple_bytes one_and_31))
                             s')).
Proof.
  assert (Hsize : sizeof esc_1_31_m < 2 ^ 31) by (vm_compute; reflexivity).
  assert (Hi : a_i ansi_start = sizeof (@nil byte)) by reflexivity.
  assert (Hlen : Z.of_nat (length one_and_31) <= 1023) by (vm_compute; discriminate).
  assert (Halpha : IS_ALPHA (byte_val "m") = true) by reflexivity.
  split; [exact Hsize|]. split; [exact Hi|]. split; [exact one_and_31_good|].
  split; [exact Hlen|]. split; [exact one_and_31_not_END_ARG|].
  split; [exact Halpha|].
  exact (ansi_body_sequence [] one_and_31 "m" [] ansi_start Hsize Hi one_and_31_good
           Hlen one_and_31_not_END_ARG Halpha).
Defined.

(** X12 at the initial state: the first row is blanked. *)
Lemma erase_to_end_of_line_witness :
  cv_width (a_cv ansi_start) = a_width ansi_start
  /\ 0 <= a_x ansi_start <= a_width ansi_start
  /\ 0 <= a_y ansi_start < cv_height (a_cv ansi_start)
  /\ exists s', dispatch 75 0 ∅ ansi_start = Ok s'
       /\ a_x s' = a_width ansi_start /\ a_y s' = a_y ansi_start
       /\ forall x y, 0 <= x < a_width ansi_start ->
            cell_char (a_cv s') x y
            = if (y =? a_y ansi_start) && (a_x ansi_start <=? x) then 32
              else cell_char (a_cv ansi_start) x y.
Proof.
  assert (Hw : cv_width (a_cv ansi_start) = a_width ansi_start) by reflexivity.
  assert (Hx : 0 <= a_x ansi_start <= a_width ansi_start)
    by (vm_compute; split; discriminate).
  assert (Hy : 0 <= a_y ansi_start < cv_height (a_cv ansi_start))
    by (vm_compute; split; [discriminate|reflexivity]).
  repeat (split; [assumption|]).
  exact (erase_to_end_of_line 0 ∅ ansi_start Hw Hx Hy).
Defined.

(** X13 at code 1 and the initial modifiers. *)
Lemma sgr_code_twice_witness :
  1 <> 8
  /\ manage_modifiers 1 (manage_modifiers 1 (a_mod ansi_start))
     = manage_modifiers 1 (a_mod ansi_start).
Proof.
  assert (Hi : 1 <> 8) by discriminate.
  split; [exact Hi | exact (sgr_code_twice 1 (a_mod ansi_start) Hi)].
Defined.


(** X15 at the command ESC [ 1;31 m in the initial state. *)
Lemma dispatch_frame_witness :
  dispatch 109 2 argv_1_31 ansi_start = Ok bold_red
  /\ (a_i bold_red = a_i ansi_start /\ a_width bold_red = a_width ansi_start
      /\ a_height bold_red = a_height ansi_start
      /\ (109 <> 75 -> 109 <> 109 -> a_cv bold_red = a_cv ansi_start)
      /\ (109 = 109 -> cv_chars (a_cv bold_red) = cv_chars (a_cv ansi_start)
                       /\ cv_attr (a_cv bold_red) = cv_attr (a_cv ansi_start))
      /\ (109 <> 109 -> a_mod bold_red = a_mod ansi_start)
      /\ (109 <> 115 -> a_save_x bold_red = a_save_x ansi_start
                        /\ a_save_y bold_red = a_save_y ansi_start)).
Proof.
  assert (Hd : dispatch 109 2 argv_1_31 ansi_start = Ok bold_red)
    by (vm_compute; reflexivity).
  split; [exact Hd | exact (dispatch_frame 109 2 argv_1_31 ansi_start bold_red Hd)].
Defined.

(** X16 at the three bytes ESC [ m. *)
Lemma import_ansi_terminates_witness :
  sizeof esc_m < 2 ^ 31
  /\ exists r, ansi_loop (S (length esc_m)) esc_m ansi_start = Some r
       /\ import_ansi esc_m = (do s <- r; Ok (Some (a_cv s)))
       /\ import_ansi esc_m <> Fault OutOfFuel.
Proof.
  assert (Hsize : sizeof esc_m < 2 ^ 31) by (vm_compute; reflexivity).
  split; [exact Hsize | exact (import_ansi_terminates esc_m Hsize)].
Defined.

Lemma bright_screen_length : Z.of_nat (length bright_screen) = XSIZ * YSIZ.
Proof. unfold bright_screen. rewrite length_replicate. unfold XSIZ, YSIZ. lia. Defined.

Lemma bright_screen_bytes : Forall is_uint8 bright_screen.
Proof. apply Forall_replicate. unfold is_uint8. lia. Defined.

Lemma flat_ball_length : Z.of_nat (length flat_ball) = METASIZE * METASIZE.
Proof.
  unfold flat_ball. rewrite length_replicate. unfold METASIZE, XSIZ.
  change (256 / 2) with 128. lia.
Defined.

Lemma flat_ball_bytes : Forall is_uint8 flat_ball.
Proof. apply Forall_replicate. unfold is_uint8. lia. Defined.

(** X17 at a ball in the top left corner of a bright screen. *)
Lemma draw_ball_adds_witness :
  0 <= 0 <= XSIZ - METASIZE /\ 0 <= 0 <= YSIZ - METASIZE
  /\ exists screen',
       draw_ball flat_ball bright_screen 0 0 = Some screen'
       /\ length screen' = length bright_screen
       /\ (forall k m v, 0 <= k < METASIZE * METASIZE ->
             flat_ball !! Z.to_nat k = Some m ->
             bright_screen !! Z.to_nat (ball_pos (0 + XSIZ * 0) k) = Some v ->
             screen' !! Z.to_nat (ball_pos (0 + XSIZ * 0) k) = Some (Z.min 255 (v + m)))
       /\ (forall p, (forall k, 0 <= k < METASIZE * METASIZE ->
                                p <> Z.to_nat (ball_pos (0 + XSIZ * 0) k)) ->
             screen' !! p = bright_screen !! p)
       /\ (forall x y, 0 <= x < METASIZE -> 0 <= y < METASIZE ->
             ball_pos (0 + XSIZ * 0) (x + METASIZE * y)
             = if (x =? 0) && (0 <? y)
               then (0 + METASIZE) + XSIZ * (0 + y - 1)
               else (0 + x) + XSIZ * (0 + y)).
Proof.
  assert (Hbx : 0 <= 0 <= XSIZ - METASIZE) by (vm_compute; split; discriminate).
  assert (Hby : 0 <= 0 <= YSIZ - METASIZE) by (vm_compute; split; discriminate).
  split; [exact Hbx|]. split; [exact Hby|].
  exact (draw_ball_adds flat_ball bright_screen 0 0 bright_screen_length
           flat_ball_length bright_screen_bytes flat_ball_bytes Hbx Hby).
Defined.

Lemma black_screen_length : Z.of_nat (length black_screen) = XSIZ * YSIZ.
Proof. unfold black_screen. rewrite length_replicate. unfold XSIZ, YSIZ. lia. Defined.

Lemma black_screen_bytes : Forall is_uint8 black_screen.
Proof. apply Forall_replicate. unfold is_uint8. lia. Defined.

Lemma full_disc_length : Z.of_nat (length full_disc) = DISCSIZ * DISCSIZ.
Proof.
  unfold full_disc. rewrite length_replicate. unfold DISCSIZ, XSIZ. lia.
Defined.

Lemma full_disc_bits : Forall is_bit full_disc.
Proof. apply Forall_replicate. now right. Defined.

Lemma full_disc_bytes : Forall is_uint8 full_disc.
Proof. apply Forall_replicate. unfold is_uint8. lia. Defined.

Lemma empty_disc_length : Z.of_nat (length empty_disc) = DISCSIZ * DISCSIZ.
Proof.
  unfold empty_disc. rewrite length_replicate. unfold DISCSIZ, XSIZ. lia.
Defined.

Lemma empty_disc_bits : Forall is_bit empty_disc.
Proof. apply Forall_replicate. now left. Defined.

(** X18 at a full disc centred in the middle of a black screen. *)
Lemma put_disc_xors_witness :
  0 <= 128 <= DISCSIZ / 2
  /\ exists screen',
       put_disc true full_disc black_screen 128 128 = Some screen'
       /\ length screen' = length black_screen
       /\ (forall c r p d, 0 <= c < XSIZ -> 0 <= r < YSIZ ->
             black_screen !! Z.to_nat (c + XSIZ * r) = Some p ->
             full_disc !! Z.to_nat (DISCSIZ / 2 - 128 + c
                                    + DISCSIZ * (DISCSIZ / 2 - 128 + r)) = Some d ->
             screen' !! Z.to_nat (c + XSIZ * r) = Some (Z.lxor p d))
       /\ put_disc true full_disc screen' 128 128 = Some black_screen.
Proof.
  assert (Hx : 0 <= 128 <= DISCSIZ / 2) by (vm_compute; split; discriminate).
  split; [exact Hx|].
  exact (put_disc_xors true full_disc black_screen 128 128 black_screen_length
           full_disc_length black_screen_bytes full_disc_bytes Hx Hx).
Defined.

(** X19 at the line of half-width 3 in the rows 5 off the middle. *)
Lemma draw_line_fills_witness :
  0 <= 3 < 2 ^ 31 /\ 0 <= 5 < 2 ^ 31
  /\ exists disc',
       draw_line empty_disc 3 5 1 = Some disc'
       /\ length disc' = length empty_disc
       /\ forall c r, 0 <= c < DISCSIZ -> 0 <= r < DISCSIZ ->
            disc' !! Z.to_nat (c + DISCSIZ * r)
            = if line_covers 3 5 c r then Some (u8 1)
              else empty_disc !! Z.to_nat (c + DISCSIZ * r).
Proof.
  assert (Hx : 0 <= 3 < 2 ^ 31) by (split; [discriminate|reflexivity]).
  assert (Hy : 0 <= 5 < 2 ^ 31) by (split; [discriminate|reflexivity]).
  split; [exact Hx|]. split; [exact Hy|].
  exact (draw_line_fills empty_disc 3 5 1 empty_disc_length Hx Hy).
Defined.

(** X20 at the static array as it starts. *)
Lemma fill_the_circle_bits_witness :
  Z.of_nat (length empty_disc) = DISCSIZ * DISCSIZ /\ Forall is_bit empty_disc
  /\ exists disc',
       fill_the_circle empty_disc = Some disc'
       /\ length disc' = length empty_disc /\ Forall is_bit disc'.
Proof.
  split; [exact empty_disc_length|]. split; [exact empty_disc_bits|].
  exact (fill_the_circle_bits empty_disc empty_disc_length empty_disc_bits).
Defined.

(** X21 at a full disc put twice, in the middle and further to the top
    left. *)
Lemma draw_circles_differ_witness :
  0 <= 128 <= DISCSIZ / 2 /\ 0 <= 64 <= DISCSIZ / 2
  /\ exists screen,
       draw_circles true full_disc 128 128 64 64 = Some screen
       /\ Z.of_nat (length screen) = XSIZ * YSIZ
       /\ forall c r, 0 <= c < XSIZ -> 0 <= r < YSIZ ->
          exists d1 d2,
            full_disc !! Z.to_nat (DISCSIZ / 2 - 128 + c
                                   + DISCSIZ * (DISCSIZ / 2 - 128 + r)) = Some d1
            /\ full_disc !! Z.to_nat (DISCSIZ / 2 - 64 + c
                                      + DISCSIZ * (DISCSIZ / 2 - 64 + r)) = Some d2
            /\ screen !! Z.to_nat (c + XSIZ * r) = Some (if d1 =? d2 then 0 else 1).
Proof.
  assert (Hx1 : 0 <= 128 <= DISCSIZ / 2) by (vm_compute; split; discriminate).
  assert (Hx2 : 0 <= 64 <= DISCSIZ / 2) by (vm_compute; split; discriminate).
  split; [exact Hx1|]. split; [exact Hx2|].
  exact (draw_circles_differ true full_disc 128 128 64 64 full_disc_length
           full_disc_bits Hx1 Hx1 Hx2 Hx2).
Defined.

Lemma four_cells_bytes : Forall is_uint8 four_cells.
Proof. repeat constructor; discriminate || reflexivity. Defined.

(** X22 at four cells. *)
Lemma fade_stops_at_one_witness :
  Forall is_uint8 four_cells /\ Z.of_nat (length four_cells) < 2 ^ 31
  /\ fade_loop (length four_cells) four_cells 0 = Some (map faded four_cells)
  /\ forall p, is_uint8 p ->
       faded p / 16 = p / 16
       /\ faded p mod 16 = (if p mod 16 =? 0 then 0 else Z.max 1 (p mod 16 - 1)).
Proof.
  assert (Hmax : Z.of_nat (length four_cells) < 2 ^ 31) by (vm_compute; reflexivity).
  split; [exact four_cells_bytes|]. split; [exact Hmax|].
  exact (fade_stops_at_one four_cells four_cells_bytes Hmax).
Defined.

Lemma ants_4x4_on_screen : ants_on_screen 4 4 ants_4x4.
Proof.
  unfold ants_on_screen, ants_4x4. cbn [l_screen l_ax l_ay l_dir].
  rewrite !length_replicate.
  repeat split; try discriminate; try reflexivity;
    apply Forall_replicate; unfold is_uint8; lia.
Defined.

(** X23 at fifteen ants on a screen of 4 by 4. *)
Lemma langton_update_keeps_ants_witness :
  ants_on_screen 4 4 ants_4x4
  /\ exists st', langton_update 4 4 ants_4x4 = Some st'
                 /\ ants_on_screen 4 4 st'.
Proof.
  split; [exact ants_4x4_on_screen|].
  exact (langton_update_keeps_ants 4 4 ants_4x4 ants_4x4_on_screen).
Defined.

Lemma top_drop_ok : drop_ok top_drop.
Proof.
  unfold drop_ok, top_drop, MINLEN, MAXLEN. cbn [d_x d_y d_len d_str].
  rewrite length_replicate. repeat split; discriminate || reflexivity.
Defined.

(** X24 at a drop at the top of a canvas of 80 by 25. *)
Lemma render_drop_near_the_top_witness :
  drop_ok top_drop /\ 0 <= 80 <= 30000 /\ 0 <= 25 <= 30000
  /\ (d_len top_drop - 1 <= head_row 25 top_drop ->
      exists calls,
        render_drop 80 25 top_drop = Some calls
        /\ Z.of_nat (length calls) = d_len top_drop
        /\ forall k c, calls !! k = Some c ->
             dr_y c = head_row 25 top_drop - Z.of_nat k
             /\ d_str top_drop
                  !! Z.to_nat ((head_row 25 top_drop - Z.of_nat k) mod d_len top_drop)
                = Some (dr_ch c)
             /\ (Z.of_nat k < 2 <-> dr_fg c = DROP_WHITE))
  /\ (head_row 25 top_drop < d_len top_drop - 1 -> render_drop 80 25 top_drop = None).
Proof.
  assert (Hw : 0 <= 80 <= 30000) by (split; discriminate).
  assert (Hh : 0 <= 25 <= 30000) by (split; discriminate).
  split; [exact top_drop_ok|]. split; [exact Hw|]. split; [exact Hh|].
  exact (render_drop_near_the_top 80 25 top_drop top_drop_ok Hw Hh).
Defined.
